(** * TesterTool: the page-analysis pipeline, embedded and verified

    A shallow embedding of the analyzer package of TesterTool

      - [analyzer/crawler.py]            (module [Crawler])
      - [analyzer/parser.py]             (module [Parser])
      - [analyzer/language_analyzer.py]  (module [LanguageAnalyzer])
      - [analyzer/test_generator.py]     (module [TestGenerator])
      - the synthesis step of [app.py]   (module [App])

    Python values are modelled by typed records; a dictionary key that the
    code tests for (['k' in d], [d.get('k', default)]) or that some producer
    leaves out is an [option] field, [None] meaning "key absent".  A value
    that can be Python's [None] is an [option] as well, so a key whose value
    may be [None] has type [option (option _)].

    Exceptions are values of [exn]; a call that may raise returns a
    [result].  The test-case generator is a mutable object: its methods are
    computations in the state-and-exception monad [Gen], in which, as in
    Python, what was appended before an exception stays appended.

    Strings are [string]s whose characters are 8-bit code units.  Python
    floats are modelled by exact rationals ([Q]).

    Third-party libraries (requests, BeautifulSoup's lxml parser,
    urllib.parse, langid, charset_normalizer) are parameters of the
    sections that use them; module [Urllib] gives a concrete model of the
    two urllib.parse functions the parser calls, for closed examples. *)

From Stdlib Require Import String Ascii List ZArith QArith Lia Bool Arith.
From Stdlib Require Import DecimalString DecimalNat.
From Stdlib Require Import Permutation Sorted.
Import ListNotations.

Close Scope Q_scope.
Close Scope Z_scope.
Open Scope nat_scope.
Open Scope list_scope.
Open Scope string_scope.

Set Implicit Arguments.

(* ===================================================================== *)
(** * Python primitives *)
(* ===================================================================== *)

Module Py.

(** The exception classes of [requests.exceptions] that matter to the
    crawler, and [OtherRequestException] for the rest of the hierarchy
    (TooManyRedirects, InvalidURL, ...).  In requests,
    [ConnectTimeout] derives from both [ConnectionError] and [Timeout];
    [SSLError] and [ProxyError] derive from [ConnectionError];
    [ReadTimeout] derives from [Timeout]; all derive from
    [RequestException]. *)
Inductive request_class : Type :=
| HTTPError
| ConnectionError
| ProxyError
| SSLError
| Timeout
| ConnectTimeout
| ReadTimeout
| OtherRequestException.

(** Exceptions, by class, with the text [str(e)] gives. *)
Inductive exn : Type :=
| KeyError (key : string)
| TypeError (msg : string)
| AttributeError (msg : string)
| ValueError (msg : string)
| RequestException (cls : request_class) (msg : string)
| OtherException (msg : string).

(** [str(e)]. *)
Definition str_exn (e : exn) : string :=
  match e with
  | KeyError key => "'" ++ key ++ "'"
  | TypeError msg | AttributeError msg | ValueError msg
  | RequestException _ msg | OtherException msg => msg
  end.

Inductive result (A : Type) : Type :=
| Ok (a : A)
| Raise (e : exn).

Arguments Ok {A} a.
Arguments Raise {A} e.

Definition rbind {A B} (r : result A) (f : A -> result B) : result B :=
  match r with
  | Ok a => f a
  | Raise e => Raise e
  end.

(** [d['k']] on a key that may be absent. *)
Definition getitem {A} (key : string) (field : option A) : result A :=
  match field with
  | Some v => Ok v
  | None => Raise (KeyError key)
  end.

(** [v['k']] where [v] may be [None]. *)
Definition subscript {A} (v : option A) : result A :=
  match v with
  | Some d => Ok d
  | None => Raise (TypeError "'NoneType' object is not subscriptable")
  end.

(** [d.get('k', default)]. *)
Definition get_default {A} (field : option A) (default : A) : A :=
  match field with
  | Some v => v
  | None => default
  end.

(** ** Strings *)

(** Truthiness of a string: non-empty. *)
Definition truthy (s : string) : bool :=
  match s with
  | EmptyString => false
  | String _ _ => true
  end.

(** Truthiness of a list: non-empty. *)
Definition truthy_list {A} (l : list A) : bool :=
  match l with
  | [] => false
  | _ :: _ => true
  end.

(** Truthiness of a value that may be [None]. *)
Definition truthy_opt (v : option string) : bool :=
  match v with
  | Some s => truthy s
  | None => false
  end.

(** [needle in hay] for strings. *)
Fixpoint contains (needle hay : string) : bool :=
  String.prefix needle hay ||
  match hay with
  | EmptyString => false
  | String _ hay' => contains needle hay'
  end.

(** [str.isspace] on one character (code points below 256). *)
Definition is_space (c : ascii) : bool :=
  let n := nat_of_ascii c in
  (((9 <=? n) && (n <=? 13)) || ((28 <=? n) && (n <=? 32))
   || (n =? 133) || (n =? 160))%nat.

Fixpoint lstrip (s : string) : string :=
  match s with
  | EmptyString => EmptyString
  | String c s' => if is_space c then lstrip s' else s
  end.

Fixpoint rstrip (s : string) : string :=
  match s with
  | EmptyString => EmptyString
  | String c s' =>
      match rstrip s' with
      | EmptyString => if is_space c then EmptyString else String c EmptyString
      | r => String c r
      end
  end.

Definition strip (s : string) : string := rstrip (lstrip s).

(** [sep.join(parts)]. *)
Fixpoint join (sep : string) (parts : list string) : string :=
  match parts with
  | [] => ""
  | [p] => p
  | p :: rest => p ++ sep ++ join sep rest
  end.

(** [s.split(c)] for a one-character separator: never the empty list. *)
Fixpoint split (sep : ascii) (s : string) : list string :=
  match s with
  | EmptyString => [EmptyString]
  | String c s' =>
      if Ascii.eqb c sep then EmptyString :: split sep s'
      else match split sep s' with
           | [] => [String c EmptyString]
           | p :: rest => String c p :: rest
           end
  end.

Definition lower_char (c : ascii) : ascii :=
  let n := nat_of_ascii c in
  if ((65 <=? n) && (n <=? 90))%nat then ascii_of_nat (n + 32) else c.

Definition upper_char (c : ascii) : ascii :=
  let n := nat_of_ascii c in
  if ((97 <=? n) && (n <=? 122))%nat then ascii_of_nat (n - 32) else c.

Fixpoint map_chars (f : ascii -> ascii) (s : string) : string :=
  match s with
  | EmptyString => EmptyString
  | String c s' => String (f c) (map_chars f s')
  end.

(** [s.lower()] and [s.upper()], on ASCII letters. *)
Definition lower : string -> string := map_chars lower_char.
Definition upper : string -> string := map_chars upper_char.

(** ** Numbers as text *)

(** [str(n)] for a non-negative integer. *)
Definition str_nat (n : nat) : string :=
  NilEmpty.string_of_uint (Nat.to_uint n).

(** [str(z)] for an integer. *)
Definition str_int (z : Z) : string :=
  match z with
  | Zneg p => "-" ++ str_nat (Pos.to_nat p)
  | _ => str_nat (Z.to_nat z)
  end.

(** [str(v)] for an integer that may be [None]. *)
Definition str_opt_int (v : option Z) : string :=
  match v with
  | Some z => str_int z
  | None => "None"
  end.

(** [str(v)] for a string that may be [None]. *)
Definition str_opt (v : option string) : string :=
  match v with
  | Some s => s
  | None => "None"
  end.

Fixpoint zeros (k : nat) : string :=
  match k with
  | O => ""
  | S k' => String "0" (zeros k')
  end.

(** [f'{n:0wd}']: decimal, padded on the left with zeros to width [w]. *)
Definition zero_padded (w n : nat) : string :=
  let s := str_nat n in
  zeros (w - String.length s) ++ s.

(** Round to the nearest integer, ties to even. *)
Definition round_half_even (q : Q) : Z :=
  let n := Qnum q in
  let d := Zpos (Qden q) in
  let f := (n / d)%Z in
  let r := (2 * (n - f * d))%Z in
  if (r <? d)%Z then f
  else if (d <? r)%Z then (f + 1)%Z
  else if Z.even f then f else (f + 1)%Z.

(** Decimal digits of [n] with a point before the last [prec] digits. *)
Definition fixed_point (prec n : nat) : string :=
  let s := zero_padded (S prec) n in
  let k := String.length s - prec in
  match prec with
  | O => s
  | _ => substring 0 k s ++ "." ++ substring k prec s
  end.

(** [f'{q:.<prec>%}']: the value times 100 in fixed-point notation with
    [prec] digits after the point, followed by a percent sign. *)
Definition format_percent (prec : nat) (q : Q) : string :=
  let scaled := (q * inject_Z (100 * 10 ^ Z.of_nat prec))%Q in
  let r := round_half_even scaled in
  (if Qlt_le_dec q 0 then "-" else "")
  ++ fixed_point prec (Z.abs_nat r) ++ "%".

End Py.
Export Py.

Notation "x <-r c1 ;; c2" := (rbind c1 (fun x => c2))
  (at level 61, c1 at next level, right associativity).


(* ===================================================================== *)
(** * Stateful code that may raise *)
(* ===================================================================== *)

Module StateExn.

(** A computation on a mutable state [S]: the state goes in and comes
    out, also when the computation raises. *)
Definition M (S A : Type) : Type := S -> result A * S.

Section Monad.
Context {S : Type}.

Definition ret {A} (a : A) : M S A := fun s => (Ok a, s).

Definition bind {A B} (m : M S A) (f : A -> M S B) : M S B :=
  fun s =>
    match m s with
    | (Ok a, s') => f a s'
    | (Raise e, s') => (Raise e, s')
    end.

(** An expression that may raise, evaluated inside a computation. *)
Definition eval {A} (r : result A) : M S A := fun s => (r, s).

(** [try: m except <handled>: handler(e)]; an exception the clause does
    not name goes through. *)
Definition try_except {A} (m : M S A) (handled : exn -> bool)
    (handler : exn -> M S A) : M S A :=
  fun s =>
    match m s with
    | (Ok a, s') => (Ok a, s')
    | (Raise e, s') => if handled e then handler e s' else (Raise e, s')
    end.

(** [try: m except Exception: pass]. *)
Definition try_pass (m : M S unit) : M S unit :=
  try_except m (fun _ => true) (fun _ => ret tt).

(** [if c: body]. *)
Definition when (c : bool) (body : M S unit) : M S unit :=
  if c then body else ret tt.

End Monad.

Notation "x <- c1 ;; c2" := (bind c1 (fun x => c2))
  (at level 61, c1 at next level, right associativity).
Notation "c1 ;; c2" := (bind c1 (fun _ => c2))
  (at level 61, right associativity).

(** [for x in xs: body]. *)
Fixpoint for_each {S A} (xs : list A) (body : A -> M S unit) : M S unit :=
  match xs with
  | [] => ret tt
  | x :: xs' => body x ;; for_each xs' body
  end.

End StateExn.
Export StateExn.

(* ===================================================================== *)
(** * Data model: the dictionaries passed between the stages *)
(* ===================================================================== *)

Module Model.

(** A dictionary with string keys, in insertion order. *)
Definition dict (V : Type) : Type := list (string * V).

(** [d.get(k)]: [None] when the key is absent. *)
Fixpoint lookup {V} (k : string) (d : dict V) : option V :=
  match d with
  | [] => None
  | (k', v) :: d' => if String.eqb k k' then Some v else lookup k d'
  end.

(** [d[k] = v]: an existing key keeps its position. *)
Fixpoint store {V} (k : string) (v : V) (d : dict V) : dict V :=
  match d with
  | [] => [(k, v)]
  | (k', v') :: d' =>
      if String.eqb k k' then (k', v) :: d' else (k', v') :: store k v d'
  end.

(** [{'url': ..., 'text': ..., 'type': ...}] of [extract_links]. *)
Record Link : Type := mkLink {
  link_url : string;
  link_text : string;
  link_type : string
}.

(** The result of [check_link_accessibility]; ['redirect_url'] is only in
    the success record, ['error'] only in the failure record. *)
Record LinkCheck : Type := mkLinkCheck {
  check_url : string;
  status_code : option Z;
  is_accessible : bool;
  redirect_url : option (option string);
  error : option string
}.

(** The result of [check_form_submission]; ['error'] is only in the
    failure record. *)
Record FormCheck : Type := mkFormCheck {
  form_check_url : string;
  form_status_code : option Z;
  accepts_submission : bool;
  form_error : option string
}.

Record Field : Type := mkField {
  field_type : string;
  field_name : string;
  field_id : string;
  required : bool
}.

Record Form : Type := mkForm {
  action : string;
  method : string;
  fields : list Field
}.

Record Image : Type := mkImage {
  src : option string;
  alt : string;
  img_title : string;
  width : string;
  height : string
}.

Record ResourceCount : Type := mkResourceCount {
  total : nat;
  external : nat;
  inline : nat
}.

Record Landmark : Type := mkLandmark {
  landmark_type : string;
  role : string;
  aria_label : string
}.

Record ListCount : Type := mkListCount { ul : nat; ol : nat; dl : nat }.

Record Table : Type := mkTable {
  has_caption : bool;
  has_headers : bool;
  rows : nat;
  cols : nat;
  has_scope : bool
}.

Record InteractiveElements : Type := mkInteractive {
  buttons : nat;
  inputs : dict nat;
  select : nat;
  textarea : nat;
  clickable : nat
}.

Record SeoElements : Type := mkSeo {
  canonical : bool;
  h1_count : nat;
  meta_description : bool;
  meta_keywords : bool;
  img_alt_ratio : Q
}.

Record SecurityElements : Type := mkSecurity {
  csrf_token : bool;
  external_links : nat;
  password_inputs : nat;
  forms_with_csrf : nat
}.

Record SocialMeta : Type := mkSocial {
  og_tags : option (dict (option string));
  twitter_tags : option (dict (option string))
}.

(** The page structure.  Every key is optional: the generator guards most
    of them with ['k' in structure] or [.get], and the compatibility
    wrapper accepts any dictionary. *)
Record PageStructure : Type := mkStructure {
  title : option (option string);
  headings : option (dict (list string));
  meta : option (dict (option string));
  images : option (list Image);
  scripts : option ResourceCount;
  stylesheets : option ResourceCount;
  language : option (option string);
  landmarks : option (list Landmark);
  lists : option ListCount;
  tables : option (list Table);
  interactive_elements : option InteractiveElements;
  seo_elements : option SeoElements;
  security_headers : option SecurityElements;
  social_meta : option SocialMeta
}.

(** [{}]. *)
Definition empty_structure : PageStructure :=
  mkStructure None None None None None None None None None None None None
    None None.

(** Truthiness of the structure dictionary: it has some key. *)
Definition structure_truthy (s : PageStructure) : bool :=
  match s with
  | mkStructure None None None None None None None None None None None None
      None None => false
  | _ => true
  end.

(** ['declared_language']: the full result has the three keys, the partial
    results only ['code']. *)
Record DeclaredLanguage : Type := mkDeclared {
  declared_code : string;
  declared_name : option string;
  declared_native_name : option string
}.

Record DetectedLanguage : Type := mkDetected {
  detected_code : string;
  detected_name : string;
  detected_native_name : string;
  detected_confidence : Q
}.

Record OtherLanguage : Type := mkOther {
  other_code : string;
  other_name : string;
  other_native : string;
  other_count : nat;
  other_confidence : Q
}.

Record LangAttribute : Type := mkLangAttribute {
  attr_tag : string;
  attr_value : string
}.

Record AlternateLink : Type := mkAlternate {
  alt_href : string;
  alt_hreflang : string
}.

(** ['multilingual_meta']; the fallback of [_analyze_language_elements]
    is the empty dictionary. *)
Record MultilingualMeta : Type := mkMultilingual {
  alternate_links : option (list AlternateLink);
  content_language : option (option string)
}.

Record TranslationLink : Type := mkTranslation {
  tl_text : string;
  tl_href : string;
  tl_lang : string
}.

Record LanguageElements : Type := mkElements {
  lang_attributes : option (list LangAttribute);
  dir_attributes : option (list LangAttribute);
  multilingual_meta : option MultilingualMeta;
  translation_links : option (list TranslationLink)
}.

(** The language analysis.  The full result has every key but ['error']
    and ['locale_info']; the short-circuit result adds ['error']; the
    result of the exception handler has only ['error'] and
    ['declared_language']. *)
Record LanguageAnalysis : Type := mkAnalysis {
  la_error : option string;
  declared_language : option (option DeclaredLanguage);
  detected_language : option (option DetectedLanguage);
  other_languages : option (list OtherLanguage);
  direction : option string;
  language_elements : option LanguageElements;
  charset : option (option string);
  locale_info : option (dict string)
}.

(** Truthiness of the analysis dictionary. *)
Definition analysis_truthy (la : LanguageAnalysis) : bool :=
  match la with
  | mkAnalysis None None None None None None None None => false
  | _ => true
  end.

(** The argument of the compatibility wrapper [generate_test_cases]. *)
Record ParsedData : Type := mkParsed {
  pd_links : option (list Link);
  pd_forms : option (list Form);
  pd_structure : option PageStructure;
  pd_language : option (option LanguageAnalysis)
}.

End Model.
Export Model.

(* ===================================================================== *)
(** * analyzer/test_generator.py *)
(* ===================================================================== *)

Module TestGenerator.

(** One row of the report. *)
Record TestCase : Type := mkTestCase {
  TC_ID : string;
  Description : string;
  Test_Step : string;
  Expected_Result : string;
  Actual_Result : string;
  Status : string
}.

(** The object state of [TestCaseGenerator]. *)
Record TestCaseGenerator : Type := mkGenerator {
  test_cases : list TestCase;
  tc_counter : nat
}.

(** [TestCaseGenerator.__init__]. *)
Definition init : TestCaseGenerator :=
  {| test_cases := []; tc_counter := 1 |}.

(** Methods of the generator: the instance goes in and comes out, also
    when the method raises. *)
Definition Gen (A : Type) : Type := M TestCaseGenerator A.

(** [enumerate(xs, 1)]. *)
Definition enumerate1 {A} (xs : list A) : list (nat * A) :=
  combine (seq 1 (length xs)) xs.

(** [f'TC_{n:03d}']. *)
Definition format_tc_id (n : nat) : string := "TC_" ++ zero_padded 3 n.

(** [TestCaseGenerator.add_test_case]. *)
Definition add_test_case (description test_step expected_result actual_result
                          status : string) : Gen unit :=
  fun g =>
    (Ok tt,
     {| test_cases :=
          (test_cases g ++
           [ {| TC_ID := format_tc_id (tc_counter g);
                Description := description;
                Test_Step := test_step;
                Expected_Result := expected_result;
                Actual_Result := actual_result;
                Status := status |} ])%list;
        tc_counter := tc_counter g + 1 |}).

(** [TestCaseGenerator.generate_link_test_cases]. *)
Definition generate_link_test_cases (links : list Link)
    (link_checks : list LinkCheck) : Gen unit :=
  for_each (combine links link_checks) (fun '(link, check) =>
    add_test_case
      ("Verify presence of link: " ++ link_text link)
      ("Check if link with text '" ++ link_text link ++ "' exists")
      "Link should be present in the page"
      "Link is present"
      "Pass" ;;
    let status := if is_accessible check then "Pass" else "Fail" in
    let actual_result :=
      if is_accessible check
      then "Link is accessible with status code "
           ++ str_opt_int (status_code check)
      else "Link is not accessible: "
           ++ get_default (error check)
                ("Status code: " ++ str_opt_int (status_code check)) in
    add_test_case
      ("Verify accessibility of link: " ++ link_text link)
      ("Try to access URL: " ++ link_url link)
      "Link should be accessible with 2xx/3xx status code"
      actual_result
      status).

(** [TestCaseGenerator.generate_form_test_cases]. *)
Definition generate_form_test_cases (forms : list Form) : Gen unit :=
  for_each (enumerate1 forms) (fun '(i, form) =>
    add_test_case
      ("Verify presence of form #" ++ str_nat i)
      ("Check if form with action '" ++ action form ++ "' exists")
      "Form should be present in the page"
      "Form is present"
      "Pass" ;;
    let required_fields := filter required (fields form) in
    when (truthy_list required_fields)
      (add_test_case
         ("Verify required fields in form #" ++ str_nat i)
         "Check if required fields are properly marked"
         ("Fields " ++ join ", " (map field_name required_fields)
          ++ " should be required")
         "All required fields are properly marked"
         "Pass") ;;
    add_test_case
      ("Verify form #" ++ str_nat i ++ " submission endpoint")
      ("Check if form action URL '" ++ action form ++ "' is valid")
      "Form action URL should be valid"
      ("Form action URL is "
       ++ (if truthy (action form) then "valid" else "missing"))
      (if truthy (action form) then "Pass" else "Fail")).

(** [TestCaseGenerator._generate_resource_test_cases]. *)
Definition _generate_resource_test_cases (structure : PageStructure)
    : Gen unit :=
  match scripts structure with
  | Some scripts =>
      add_test_case
        "Verify script loading"
        "Check script inclusion"
        "Page should load all required scripts"
        ("Found " ++ str_nat (total scripts) ++ " scripts ("
         ++ str_nat (external scripts) ++ " external, "
         ++ str_nat (inline scripts) ++ " inline)")
        (if (0 <? total scripts)%nat then "Pass" else "Fail")
  | None => ret tt
  end ;;
  match stylesheets structure with
  | Some stylesheets =>
      add_test_case
        "Verify stylesheet loading"
        "Check stylesheet inclusion"
        "Page should load all required stylesheets"
        ("Found " ++ str_nat (total stylesheets) ++ " stylesheets ("
         ++ str_nat (external stylesheets) ++ " external, "
         ++ str_nat (inline stylesheets) ++ " inline)")
        (if (0 <? total stylesheets)%nat then "Pass" else "Fail")
  | None => ret tt
  end.

(** [TestCaseGenerator._generate_table_test_cases]. *)
Definition _generate_table_test_cases (tables : list Table) : Gen unit :=
  for_each (enumerate1 tables) (fun '(i, table) =>
    add_test_case
      ("Verify table #" ++ str_nat i ++ " accessibility")
      "Check table structure and accessibility features"
      "Table should have proper headers and structure"
      ("Table has " ++ str_nat (rows table) ++ " rows, "
       ++ str_nat (cols table) ++ " columns, "
       ++ (if has_headers table then "has" else "lacks") ++ " headers, "
       ++ (if has_caption table then "has" else "lacks") ++ " caption")
      (if has_headers table && has_caption table
       then "Pass" else "Warning")).

(** [TestCaseGenerator._generate_interactive_element_test_cases]. *)
Definition _generate_interactive_element_test_cases
    (elements : InteractiveElements) : Gen unit :=
  let total_inputs := list_sum (map snd (inputs elements)) in
  add_test_case
    "Verify form elements presence"
    "Check presence of interactive elements"
    "Page should have necessary interactive elements"
    ("Found " ++ str_nat (buttons elements) ++ " buttons, "
     ++ str_nat total_inputs ++ " input fields, "
     ++ str_nat (select elements) ++ " select dropdowns, "
     ++ str_nat (textarea elements) ++ " text areas")
    (if (0 <? total_inputs)%nat then "Pass" else "Info").

(** [ratio > 0.8]. *)
Definition above_0_8 (q : Q) : bool :=
  if Qlt_le_dec (8 # 10) q then true else false.

(** [TestCaseGenerator._generate_seo_test_cases]. *)
Definition _generate_seo_test_cases (seo : SeoElements) : Gen unit :=
  add_test_case
    "Verify SEO basics"
    "Check basic SEO elements"
    "Page should have basic SEO elements"
    ((if canonical seo then "Has" else "Missing") ++ " canonical link, "
     ++ (if meta_description seo then "Has" else "Missing")
     ++ " meta description, "
     ++ "Image alt text ratio: " ++ format_percent 0 (img_alt_ratio seo))
    (if canonical seo && meta_description seo
        && above_0_8 (img_alt_ratio seo)
     then "Pass" else "Warning").

(** [TestCaseGenerator._generate_security_test_cases]. *)
Definition _generate_security_test_cases (security : SecurityElements)
    : Gen unit :=
  add_test_case
    "Verify security measures"
    "Check security features"
    "Page should implement basic security measures"
    ("CSRF protection: "
     ++ (if csrf_token security then "Present" else "Missing") ++ ", "
     ++ "External links: " ++ str_nat (external_links security) ++ ", "
     ++ "Password fields: " ++ str_nat (password_inputs security))
    (if csrf_token security || (password_inputs security =? 0)%nat
     then "Pass" else "Warning").

(** [TestCaseGenerator._generate_social_media_test_cases]. *)
Definition _generate_social_media_test_cases (social : SocialMeta)
    : Gen unit :=
  let og_tags := get_default (og_tags social) [] in
  let twitter_tags := get_default (twitter_tags social) [] in
  add_test_case
    "Verify social media metadata"
    "Check social media meta tags"
    "Page should have social media meta tags"
    ("OpenGraph tags: " ++ str_nat (length og_tags) ++ ", "
     ++ "Twitter cards: " ++ str_nat (length twitter_tags))
    (if truthy_list og_tags || truthy_list twitter_tags
     then "Pass" else "Info").

(** [meta.get('viewport') or '']. *)
Definition or_empty (v : option string) : string :=
  match v with
  | Some s => if truthy s then s else ""
  | None => ""
  end.

(** [TestCaseGenerator.generate_structure_test_cases]. *)
Definition generate_structure_test_cases (structure : PageStructure)
    : Gen unit :=
  match title structure with
  | Some title =>
      add_test_case
        "Verify page title"
        "Check if page has a title"
        "Page should have a title"
        ("Page title is '" ++ str_opt title ++ "'")
        (if truthy_opt title then "Pass" else "Fail")
  | None => ret tt
  end ;;
  let meta := get_default (meta structure) [] in
  for_each meta (fun '(meta_type, content) =>
    add_test_case
      ("Verify meta " ++ meta_type)
      ("Check if page has meta " ++ meta_type)
      ("Page should have meta " ++ meta_type)
      ("Meta " ++ meta_type ++ " is "
       ++ (if truthy_opt content then "present" else "missing"))
      (if truthy_opt content then "Pass" else "Fail")) ;;
  match lookup "viewport" meta with
  | Some viewport =>
      add_test_case
        "Verify responsive design meta tag"
        "Check if page has viewport meta tag"
        "Page should have viewport meta tag for responsiveness"
        ("Viewport meta tag is present: " ++ str_opt viewport)
        (if contains "width=device-width" (or_empty viewport)
         then "Pass" else "Fail")
  | None => ret tt
  end ;;
  _generate_resource_test_cases structure ;;
  match tables structure with
  | Some tables => _generate_table_test_cases tables
  | None => ret tt
  end ;;
  match interactive_elements structure with
  | Some elements => _generate_interactive_element_test_cases elements
  | None => ret tt
  end ;;
  match seo_elements structure with
  | Some seo => _generate_seo_test_cases seo
  | None => ret tt
  end ;;
  match security_headers structure with
  | Some security => _generate_security_test_cases security
  | None => ret tt
  end ;;
  match social_meta structure with
  | Some social => _generate_social_media_test_cases social
  | None => ret tt
  end.

(** [{}] as the default of [language_analysis.get('language_elements', {})]. *)
Definition no_elements : LanguageElements := mkElements None None None None.

(** [x in ['utf-8', 'utf8']]. *)
Definition is_utf8 (s : string) : bool :=
  String.eqb s "utf-8" || String.eqb s "utf8".

(** [charset.lower()], where [charset] may be [None]. *)
Definition lower_opt (v : option string) : result string :=
  match v with
  | Some s => Ok (lower s)
  | None => Raise (AttributeError "'NoneType' object has no attribute 'lower'")
  end.

(** [TestCaseGenerator.generate_language_test_cases].  The arguments of
    each [add_test_case] call are evaluated in the order they are written;
    the first one that raises ends the method. *)
Definition generate_language_test_cases (language_analysis : LanguageAnalysis)
    : Gen unit :=
  declared <- eval (getitem "declared_language"
                      (declared_language language_analysis)) ;;
  detected <- eval (getitem "detected_language"
                      (detected_language language_analysis)) ;;
  (* Language Declaration Test *)
  actual_result <- eval (
    d <-r subscript declared ;;
    if truthy (declared_code d)
    then name <-r getitem "name" (declared_name d) ;;
         Ok ("Declared language: " ++ name ++ " (" ++ declared_code d ++ ")")
    else Ok "No language declaration found") ;;
  status <- eval (
    d <-r subscript declared ;;
    Ok (if truthy (declared_code d) then "Pass" else "Fail")) ;;
  add_test_case
    "Verify HTML language declaration"
    "Check if page has proper language declaration"
    "Page should have valid language declaration"
    actual_result
    status ;;
  (* Language Detection Test *)
  actual_result <- eval (
    d <-r subscript detected ;;
    Ok ("Detected language: " ++ detected_name d ++ " ("
        ++ detected_code d ++ ") " ++ "with "
        ++ format_percent 1 (detected_confidence d) ++ " confidence")) ;;
  status <- eval (
    d <-r subscript detected ;;
    Ok (if above_0_8 (detected_confidence d) then "Pass" else "Warning")) ;;
  add_test_case
    "Verify content language"
    "Detect main content language"
    "Content language should be detectable"
    actual_result
    status ;;
  (* Language Consistency Test *)
  both <- eval (
    d <-r subscript declared ;;
    if truthy (declared_code d)
    then e <-r subscript detected ;; Ok (truthy (detected_code e))
    else Ok false) ;;
  when both (
    is_consistent <- eval (
      d <-r subscript declared ;;
      e <-r subscript detected ;;
      Ok (String.eqb (hd "" (split "-" (declared_code d)))
            (detected_code e))) ;;
    actual_result <- eval (
      d <-r subscript declared ;;
      name <-r getitem "name" (declared_name d) ;;
      e <-r subscript detected ;;
      Ok ("Declared: " ++ name ++ " (" ++ declared_code d ++ "), "
          ++ "Detected: " ++ detected_name e ++ " (" ++ detected_code e
          ++ ")")) ;;
    add_test_case
      "Verify language consistency"
      "Compare declared vs detected language"
      "Declared language should match content language"
      actual_result
      (if is_consistent : bool then "Pass" else "Fail")) ;;
  (* Multi-language Content Test *)
  other_langs <- eval (getitem "other_languages"
                         (other_languages language_analysis)) ;;
  when (truthy_list other_langs) (
    add_test_case
      "Check multi-language content"
      "Analyze content for multiple languages"
      "Document should consistently use declared language"
      ("Found content in other languages: "
       ++ join ", "
            (map (fun lang =>
                    other_name lang ++ " ("
                    ++ format_percent 1 (other_confidence lang) ++ ")")
               other_langs))
      "Info") ;;
  (* Text Direction Test *)
  direction <- eval (getitem "direction" (direction language_analysis)) ;;
  add_test_case
    "Verify text direction"
    "Check if text direction is appropriate for the language"
    "Text direction should match language requirements"
    ("Text direction is " ++ upper direction)
    "Pass" ;;
  (* Character Encoding Test *)
  let charset := get_default (charset language_analysis) (Some "utf-8") in
  status <- eval (
    lowered <-r lower_opt charset ;;
    Ok (if is_utf8 lowered then "Pass" else "Warning")) ;;
  add_test_case
    "Verify character encoding"
    "Check character encoding declaration"
    "Page should use UTF-8 or appropriate encoding"
    ("Character encoding: " ++ str_opt charset)
    status ;;
  (* Language Elements Test *)
  let elements :=
    get_default (language_elements language_analysis) no_elements in
  let lang_attrs := get_default (lang_attributes elements) [] in
  add_test_case
    "Check language annotations"
    "Verify language attributes on elements"
    "Multi-language content should be properly marked"
    ("Found " ++ str_nat (length lang_attrs)
     ++ " elements with language attributes")
    (if (0 <? length lang_attrs)%nat || negb (truthy_list other_langs)
     then "Pass" else "Warning") ;;
  (* Translation Support Test *)
  let translation_links := get_default (translation_links elements) [] in
  when (truthy_list translation_links) (
    add_test_case
      "Check translation support"
      "Verify language switching options"
      "Multi-language sites should offer language selection"
      ("Found " ++ str_nat (length translation_links)
       ++ " language switcher links")
      (if (0 <? length translation_links)%nat then "Pass" else "Info")) ;;
  (* Locale Information Test *)
  let locale_info := get_default (locale_info language_analysis) [] in
  when (truthy_list locale_info) (
    add_test_case
      "Verify locale information"
      "Check locale-specific content"
      "Content should be properly localized"
      ("Language: "
       ++ get_default (lookup "language_name" locale_info) "Unknown" ++ ", "
       ++ "Territory: "
       ++ get_default (lookup "territory" locale_info) "Not specified" ++ ", "
       ++ "Script: "
       ++ get_default (lookup "script" locale_info) "Not specified")
      "Info").

(** [TestCaseGenerator.generate_accessibility_test_cases]. *)
Definition generate_accessibility_test_cases (structure : PageStructure)
    : Gen unit :=
  images <- eval (getitem "images" (images structure)) ;;
  let images_without_alt :=
    filter (fun img => negb (truthy (alt img))) images in
  add_test_case
    "Verify image alt texts"
    "Check if all images have alt text"
    "All images should have alt text"
    (if truthy_list images_without_alt
     then str_nat (length images_without_alt) ++ " images missing alt text"
     else "All images have alt text")
    (if truthy_list images_without_alt then "Fail" else "Pass") ;;
  headings <- eval (getitem "headings" (headings structure)) ;;
  let h1 := get_default (lookup "h1" headings) [] in
  let has_h1 := (0 <? length h1)%nat in
  add_test_case
    "Verify heading hierarchy"
    "Check if page has proper heading structure starting with H1"
    "Page should have at least one H1 heading"
    (if has_h1 then "Found H1 heading" else "No H1 heading found")
    (if has_h1 then "Pass" else "Fail") ;;
  let multiple_h1s := (1 <? length h1)%nat in
  add_test_case
    "Check for multiple H1 headings"
    "Verify page has only one main H1 heading"
    "Page should have only one H1 heading"
    ("Found " ++ str_nat (length h1) ++ " H1 heading(s)")
    (if multiple_h1s then "Fail" else "Pass") ;;
  match landmarks structure with
  | Some landmarks =>
      add_test_case
        "Verify ARIA landmarks"
        "Check for presence of ARIA landmarks"
        "Page should have proper ARIA landmarks"
        ("Found " ++ str_nat (length landmarks) ++ " ARIA landmarks")
        (if truthy_list landmarks then "Pass" else "Fail")
  | None => ret tt
  end.

(** The optimistic link check the wrapper makes up for every link. *)
Definition default_link_check (l : Link) : LinkCheck :=
  {| check_url := link_url l;
     status_code := Some 200%Z;
     is_accessible := true;
     redirect_url := None;
     error := None |}.

(** The body of the module-level [generate_test_cases], as a method of the
    generator it creates. *)
Definition generate_all (parsed_data : ParsedData) : Gen unit :=
  let links := get_default (pd_links parsed_data) [] in
  let link_checks := map default_link_check links in
  when (truthy_list links) (generate_link_test_cases links link_checks) ;;
  let forms := get_default (pd_forms parsed_data) [] in
  when (truthy_list forms) (generate_form_test_cases forms) ;;
  let structure := get_default (pd_structure parsed_data) empty_structure in
  when (structure_truthy structure) (
    generate_structure_test_cases structure ;;
    generate_accessibility_test_cases structure) ;;
  match pd_language parsed_data with
  | Some (Some language_analysis) =>
      when (analysis_truthy language_analysis)
        (try_pass (generate_language_test_cases language_analysis))
  | _ => ret tt
  end.

(** The module-level [generate_test_cases]: a fresh generator, and its
    [test_cases] unless an exception escapes. *)
Definition generate_test_cases (parsed_data : ParsedData)
    : result (list TestCase) :=
  match generate_all parsed_data init with
  | (Ok _, gen) => Ok (test_cases gen)
  | (Raise e, _) => Raise e
  end.

End TestGenerator.

(* ===================================================================== *)
(** * analyzer/crawler.py *)
(* ===================================================================== *)

Module Crawler.

(** What the crawler hands to [requests.Session]: the verb, the URL and
    the keyword arguments that differ between the call sites. *)
Record Request : Type := mkRequest {
  verb : string;
  req_url : string;
  connect_timeout : Q;
  read_timeout : Q;
  verify : bool;
  allow_redirects : bool
}.

(** What the crawler reads of a [requests.Response]; [history] is the list
    of redirect responses, of which only emptiness is used. *)
Record Response : Type := mkResponse {
  resp_status_code : Z;
  reason : string;
  resp_url : string;
  text : string;
  history : list Z
}.

(** [isinstance(e, Timeout)]. *)
Definition is_Timeout (e : exn) : bool :=
  match e with
  | RequestException (Timeout | ConnectTimeout | ReadTimeout) _ => true
  | _ => false
  end.

(** [isinstance(e, ConnectionError)]. *)
Definition is_ConnectionError (e : exn) : bool :=
  match e with
  | RequestException (ConnectionError | ProxyError | SSLError
                      | ConnectTimeout) _ => true
  | _ => false
  end.

(** [isinstance(e, SSLError)]. *)
Definition is_SSLError (e : exn) : bool :=
  match e with
  | RequestException SSLError _ => true
  | _ => false
  end.

(** [isinstance(e, RequestException)]. *)
Definition is_RequestException (e : exn) : bool :=
  match e with
  | RequestException _ _ => true
  | _ => false
  end.

(** [Response.raise_for_status] of requests: an [HTTPError] for a status
    from 400 to 599. *)
Definition raise_for_status (r : Response) : result unit :=
  let code := resp_status_code r in
  if ((400 <=? code) && (code <? 500))%Z
  then Raise (RequestException HTTPError
                (str_int code ++ " Client Error: " ++ reason r
                 ++ " for url: " ++ resp_url r))
  else if ((500 <=? code) && (code <? 600))%Z
  then Raise (RequestException HTTPError
                (str_int code ++ " Server Error: " ++ reason r
                 ++ " for url: " ++ resp_url r))
  else Ok tt.

(** [DEFAULT_CONNECT_TIMEOUT] and [DEFAULT_READ_TIMEOUT], in seconds. *)
Definition DEFAULT_CONNECT_TIMEOUT : Q := 5.
Definition DEFAULT_READ_TIMEOUT : Q := 30.

(** The fields of a [WebCrawler] that its methods read. *)
Record WebCrawler : Type := mkCrawler {
  base_url : string;
  timeouts : Q * Q
}.

(** [WebCrawler.__init__], with the defaults of its keyword arguments
    filled in by the caller. *)
Definition new_crawler (base_url : string) (connect_timeout read_timeout : Q)
    : WebCrawler :=
  {| base_url := base_url; timeouts := (connect_timeout, read_timeout) |}.

(** The network, as the session sees it: every request the process has
    sent so far is logged, and the answer to a request may depend on the
    log, so that a retry can meet another outcome than the first try. *)
Definition Log : Type := list Request.
Definition IO (A : Type) : Type := M Log A.

Section WithNetwork.

(** [requests.Session.request] behind the mounted adapter. *)
Variable network : Log -> Request -> result Response.

(** [urllib.parse.urljoin]; it raises [ValueError] on some malformed
    URLs. *)
Variable urljoin : string -> string -> result string.

Definition send (r : Request) : IO Response :=
  fun log => (network log r, (log ++ [r])%list).

(** [self.session.get(url, timeout=timeout, verify=verify)]. *)
Definition session_get (url : string) (timeout : Q * Q) (verify : bool)
    : IO Response :=
  send {| verb := "GET"; req_url := url;
          connect_timeout := fst timeout; read_timeout := snd timeout;
          verify := verify; allow_redirects := true |}.

(** [self.session.head(url, timeout=5, allow_redirects=True)]. *)
Definition session_head (url : string) : IO Response :=
  send {| verb := "HEAD"; req_url := url;
          connect_timeout := 5; read_timeout := 5;
          verify := true; allow_redirects := true |}.


(** [self.session.get(url, timeout=5)] and [self.session.post(url,
    timeout=5)]. *)
Definition session_submit (verb : string) (url : string) : IO Response :=
  send {| verb := verb; req_url := url;
          connect_timeout := 5; read_timeout := 5;
          verify := true; allow_redirects := true |}.

(** The three statements every attempt consists of. *)
Definition attempt (url : string) (timeout : Q * Q) (verify : bool)
    : IO string :=
  response <- session_get url timeout verify ;;
  eval (raise_for_status response) ;;
  ret (text response).

(** [WebCrawler.fetch_website_content].  The [except] clauses are tried in
    the order they are written: [Timeout], [ConnectionError], [SSLError],
    [RequestException]. *)
Definition fetch_website_content (self : WebCrawler) (url : string)
    : IO string :=
  try_except (attempt url (timeouts self) true) (fun _ => true) (fun e =>
    if is_Timeout e then
      try_except
        (attempt url (fst (timeouts self), (snd (timeouts self) * 2)%Q) true)
        (fun _ => true)
        (fun retry_error => eval (Raise retry_error))
    else if is_ConnectionError e then
      eval (Raise e)
    else if is_SSLError e then
      try_except
        (attempt url (timeouts self) false)
        (fun _ => true)
        (fun ssl_retry_error => eval (Raise ssl_retry_error))
    else
      eval (Raise e)).

(** [WebCrawler.check_link_accessibility].  [urljoin] is inside the [try]
    block, whose only clause is [except RequestException]; the handler
    reads [absolute_url], which is unbound when [urljoin] itself raised. *)
Definition check_link_accessibility (self : WebCrawler) (url : string)
    : IO LinkCheck :=
  try_except
    (absolute_url <- eval (urljoin (base_url self) url) ;;
     try_except
       (response <- session_head absolute_url ;;
        ret {| check_url := absolute_url;
               status_code := Some (resp_status_code response);
               is_accessible :=
                 ((200 <=? resp_status_code response)
                  && (resp_status_code response <? 400))%Z;
               redirect_url :=
                 Some (if truthy_list (history response)
                       then Some (resp_url response) else None);
               error := None |})
       is_RequestException
       (fun e =>
          ret {| check_url := absolute_url;
                 status_code := None;
                 is_accessible := false;
                 redirect_url := None;
                 error := Some (str_exn e) |}))
    is_RequestException
    (fun _ =>
       eval (Raise (OtherException
                      "cannot access local variable 'absolute_url'"))).


(** [WebCrawler.check_form_submission]; [method] is ['GET'] unless the
    caller says otherwise. *)
Definition check_form_submission (self : WebCrawler)
    (form_url method : string) : IO FormCheck :=
  try_except
    (response <- (if String.eqb (upper method) "GET"
                  then session_submit "GET" form_url
                  else session_submit "POST" form_url) ;;
     ret {| form_check_url := form_url;
            form_status_code := Some (resp_status_code response);
            accepts_submission :=
              ((200 <=? resp_status_code response)
               && (resp_status_code response <? 400))%Z;
            form_error := None |})
    is_RequestException
    (fun e =>
       ret {| form_check_url := form_url;
              form_status_code := None;
              accepts_submission := false;
              form_error := Some (str_exn e) |}).

(** The module-level [fetch_website_content]; the two optional timeouts
    are [None] when the caller leaves them out. *)
Definition fetch_website_content_compat (url : string)
    (connect_timeout read_timeout : option Q) : IO string :=
  let connect_timeout := get_default connect_timeout DEFAULT_CONNECT_TIMEOUT in
  let read_timeout := get_default read_timeout DEFAULT_READ_TIMEOUT in
  let crawler := new_crawler url connect_timeout read_timeout in
  text <- fetch_website_content crawler url ;;
  if negb (contains "<html>" text)
  then ret ("<html>" ++ text)
  else ret text.

End WithNetwork.

End Crawler.

(* ===================================================================== *)
(** * The parsed document, as BeautifulSoup presents it *)
(* ===================================================================== *)

Module Bs4.

(** A node of the tree.  [Str] is a [NavigableString] that the string
    iterators yield; [Special] is one they leave out (a comment, a
    doctype, the text of a script or style element). *)
#[warnings="-register-all"]
Inductive node : Type :=
| Tag (name : string) (attrs : dict string) (children : list node)
| Str (s : string)
| Special (s : string).

(** The [BeautifulSoup] object is itself a tag, named [[document]]. *)
Definition document (children : list node) : node :=
  Tag "[document]" [] children.

(** [tag.descendants]: every node below, in document order. *)
Fixpoint descendants (n : node) : list node :=
  match n with
  | Tag _ _ children => flat_map (fun c => c :: descendants c) children
  | _ => []
  end.

Definition tag_name (n : node) : string :=
  match n with
  | Tag name _ _ => name
  | _ => ""
  end.

(** [tag.get(attr)]. *)
Definition get (n : node) (attr : string) : option string :=
  match n with
  | Tag _ attrs _ => lookup attr attrs
  | _ => None
  end.

(** [tag.find_all(...)], the search criteria being the predicate [p]. *)
Definition find_all (root : node) (p : node -> bool) : list node :=
  filter p (descendants root).

(** [tag.find(...)]. *)
Definition find (root : node) (p : node -> bool) : option node :=
  hd_error (find_all root p).

(** ** Search criteria *)

(** A tag name: [find_all('a')]. *)
Definition named (name : string) (n : node) : bool :=
  match n with
  | Tag name' _ _ => String.eqb name name'
  | _ => false
  end.

(** A list of tag names: [find_all(['input', 'textarea', 'select'])]. *)
Definition named_any (names : list string) (n : node) : bool :=
  existsb (fun name => named name n) names.

(** [attr=True]: the attribute is there. *)
Definition has_attr (attr : string) (n : node) : bool :=
  match n with
  | Tag _ _ _ => match get n attr with Some _ => true | None => false end
  | _ => false
  end.

(** [attr=False]: the attribute is not there. *)
Definition lacks_attr (attr : string) (n : node) : bool :=
  match n with
  | Tag _ _ _ => match get n attr with Some _ => false | None => true end
  | _ => false
  end.

(** The attributes BeautifulSoup splits into a list of values: some on
    every tag, some on particular tags. *)
Definition multi_valued (tag attr : string) : bool :=
  let on tags attrs :=
    existsb (String.eqb tag) tags && existsb (String.eqb attr) attrs in
  existsb (String.eqb attr) ["class"; "accesskey"; "dropzone"]
  || on ["a"; "link"] ["rel"; "rev"]
  || on ["td"; "th"] ["headers"]
  || on ["form"] ["accept-charset"]
  || on ["object"] ["archive"]
  || on ["area"] ["rel"]
  || on ["icon"] ["sizes"]
  || on ["iframe"] ["sandbox"]
  || on ["output"] ["for"].

(** The whitespace-separated words of a string. *)
Fixpoint words_aux (cur : string) (s : string) : list string :=
  match s with
  | EmptyString => if truthy cur then [cur] else []
  | String c s' =>
      if is_space c
      then (if truthy cur then [cur] else []) ++ words_aux "" s'
      else words_aux (cur ++ String c "") s'
  end%list.

Definition words (s : string) : list string := words_aux "" s.

(** [attr='value']: the value as it is or, for a multi-valued attribute,
    one of its words or the words joined by single spaces. *)
Definition attr_is (attr value : string) (n : node) : bool :=
  match n with
  | Tag _ _ _ =>
      match get n attr with
      | Some v =>
          if multi_valued (tag_name n) attr
          then existsb (String.eqb value) (words v)
               || String.eqb value (join " " (words v))
          else String.eqb value v
      | None => false
      end
  | _ => false
  end.

(** [attr=[v1, v2, ...]]: any of the values. *)
Definition attr_in (attr : string) (values : list string) (n : node) : bool :=
  existsb (fun value => attr_is attr value n) values.

(** [attr=f], a callable or a compiled pattern's [search]: applied to the
    value of an attribute that is there. *)
Definition attr_satisfies (attr : string) (f : string -> bool) (n : node)
    : bool :=
  match n with
  | Tag _ _ _ => match get n attr with Some v => f v | None => false end
  | _ => false
  end.

(** ** Text *)

(** The strings [_all_strings(strip=True)] yields below a node: stripped,
    the empty ones left out. *)
Definition stripped_strings (n : node) : list string :=
  flat_map (fun d =>
              match d with
              | Str s => if truthy (strip s) then [strip s] else []
              | _ => []
              end)
           (descendants n).

(** [tag.get_text(strip=True)]. *)
Definition get_text_strip (n : node) : string :=
  join "" (stripped_strings n).

(** [tag.string]: the single string child, looked for through single
    tag children. *)
Fixpoint string_of (n : node) : option string :=
  match n with
  | Tag _ _ (c :: rest) =>
      match rest with
      | [] =>
          match c with
          | Str s | Special s => Some s
          | Tag _ _ _ => string_of c
          end
      | _ :: _ => None
      end
  | _ => None
  end.

(** The tree after [decompose()] was called on every tag [p] selects. *)
Fixpoint decompose_all (p : node -> bool) (n : node) : node :=
  match n with
  | Tag name attrs children =>
      Tag name attrs
        ((fix keep (cs : list node) : list node :=
            match cs with
            | [] => []
            | c :: cs' =>
                if p c then keep cs' else decompose_all p c :: keep cs'
            end) children)
  | _ => n
  end.

End Bs4.
Export Bs4.

(* ===================================================================== *)
(** * analyzer/parser.py *)
(* ===================================================================== *)

Module Parser.

(** The fields of a [WebParser] that its methods read. *)
Record WebParser : Type := mkParser {
  soup : node;
  base_url : string
}.

(** The names of the CSRF token fields. *)
Definition csrf_names : list string := ["csrf_token"; "_token"; "_csrf"].

Section WithLibraries.

(** [BeautifulSoup(html_content, 'lxml')]. *)
Variable BeautifulSoup : string -> node.

(** [urllib.parse.urljoin]; it raises [ValueError] on some malformed
    URLs. *)
Variable urljoin : string -> string -> result string.

(** [urllib.parse.urlparse(url).netloc]; [urlparse] raises [ValueError] on
    some malformed URLs. *)
Variable netloc : string -> result string.

(** [WebParser.__init__]; either argument may be [None]. *)
Definition new_parser (html_content base_url : option string)
    : result WebParser :=
  if negb (truthy_opt html_content)
  then Raise (ValueError "HTML content cannot be None or empty")
  else if negb (truthy_opt base_url)
  then Raise (ValueError "Base URL cannot be None or empty")
  else Ok {| soup := BeautifulSoup (get_default html_content "");
             base_url := get_default base_url "" |}.

(** One turn of the loop of [extract_links]: the entries it appends. *)
Definition link_of_anchor (self : WebParser) (base_netloc : string)
    (a_tag : node) : list Link :=
  let href := get a_tag "href" in
  if negb (truthy_opt href) then []
  else
    let text := get_text_strip a_tag in
    match urljoin (base_url self) (get_default href "") with
    | Raise _ => []
    | Ok absolute_url =>
        let link_type :=
          match netloc absolute_url with
          | Ok link_netloc =>
              if String.eqb link_netloc base_netloc
              then "internal" else "external"
          | Raise _ => "external"
          end in
        [ {| link_url := absolute_url;
             link_text := text;
             link_type := link_type |} ]
    end.

(** [WebParser.extract_links]. *)
Definition extract_links (self : WebParser) : result (list Link) :=
  base_netloc <-r netloc (base_url self) ;;
  Ok (flat_map (link_of_anchor self base_netloc)
        (find_all (soup self)
           (fun n => named "a" n && has_attr "href" n))).

(** The field loop of [extract_forms]. *)
Definition field_of (field : node) : Field :=
  {| field_type := get_default (get field "type") "text";
     field_name := get_default (get field "name") "";
     field_id := get_default (get field "id") "";
     required := match get field "required" with
                 | Some _ => true
                 | None => false
                 end |}.

(** [WebParser.extract_forms]. *)
Fixpoint forms_of (self : WebParser) (form_tags : list node)
    : result (list Form) :=
  match form_tags with
  | [] => Ok []
  | form :: rest =>
      action <-r urljoin (base_url self) (get_default (get form "action") "") ;;
      let method := upper (get_default (get form "method") "get") in
      let fields :=
        map field_of
          (find_all form (named_any ["input"; "textarea"; "select"])) in
      forms <-r forms_of self rest ;;
      Ok ({| action := action; method := method; fields := fields |}
          :: forms)
  end.

Definition extract_forms (self : WebParser) : result (list Form) :=
  forms_of self (find_all (soup self) (named "form")).

(** [soup.find('meta', {'name': name}).get('content', '')] if there is
    such a meta element, [None] otherwise. *)
Definition meta_content (self : WebParser) (name : string) : option string :=
  match find (soup self) (fun n => named "meta" n && attr_is "name" name n) with
  | Some m => Some (get_default (get m "content") "")
  | None => None
  end.

(** [WebParser._extract_landmarks]. *)
Definition _extract_landmarks (self : WebParser) : list Landmark :=
  let semantic_elements :=
    ["header"; "nav"; "main"; "article"; "aside"; "footer"; "section"] in
  let roles :=
    ["banner"; "navigation"; "main"; "complementary"; "contentinfo"] in
  (flat_map (fun element =>
     map (fun el =>
            {| landmark_type := element;
               role := get_default (get el "role") "";
               aria_label := get_default (get el "aria-label") "" |})
         (find_all (soup self) (named element)))
     semantic_elements
   ++
   flat_map (fun role =>
     map (fun el =>
            {| landmark_type := tag_name el;
               role := role;
               aria_label := get_default (get el "aria-label") "" |})
         (find_all (soup self) (attr_is "role" role)))
     roles)%list.

(** [WebParser._analyze_tables]. *)
Definition _analyze_tables (self : WebParser) : list Table :=
  map (fun table =>
         let trs := find_all table (named "tr") in
         {| has_caption :=
              match find table (named "caption") with
              | Some _ => true
              | None => false
              end;
            has_headers := truthy_list (find_all table (named "th"));
            rows := length trs;
            cols := if truthy_list trs
                    then length (find_all table (named "td")) / length trs
                    else 0;
            has_scope :=
              truthy_list
                (find_all table
                   (fun n => named "th" n && has_attr "scope" n)) |})
      (find_all (soup self) (named "table")).

(** [len(soup.find_all('input', {'type': t}))]. *)
Definition count_inputs (self : WebParser) (t : string) : nat :=
  length (find_all (soup self)
            (fun n => named "input" n && attr_is "type" t n)).

(** [WebParser._extract_interactive_elements].  The last search lists a
    dictionary among the tag names; it selects no tag. *)
Definition _extract_interactive_elements (self : WebParser)
    : InteractiveElements :=
  {| buttons := length (find_all (soup self) (named "button"));
     inputs := [ ("text", count_inputs self "text");
                 ("password", count_inputs self "password");
                 ("email", count_inputs self "email");
                 ("checkbox", count_inputs self "checkbox");
                 ("radio", count_inputs self "radio");
                 ("submit", count_inputs self "submit") ];
     select := length (find_all (soup self) (named "select"));
     textarea := length (find_all (soup self) (named "textarea"));
     clickable :=
       length (find_all (soup self) (named_any ["a"; "button"; "input"])) |}.

(** [k / n] for two lengths, [n] positive. *)
Definition ratio (k n : nat) : Q := Z.of_nat k # Pos.of_nat n.

(** [WebParser._extract_seo_elements]. *)
Definition _extract_seo_elements (self : WebParser) : SeoElements :=
  let imgs := find_all (soup self) (named "img") in
  {| canonical :=
       match find (soup self)
               (fun n => named "link" n && attr_is "rel" "canonical" n) with
       | Some _ => true
       | None => false
       end;
     h1_count := length (find_all (soup self) (named "h1"));
     meta_description :=
       match find (soup self)
               (fun n => named "meta" n && attr_is "name" "description" n) with
       | Some _ => true
       | None => false
       end;
     meta_keywords :=
       match find (soup self)
               (fun n => named "meta" n && attr_is "name" "keywords" n) with
       | Some _ => true
       | None => false
       end;
     img_alt_ratio :=
       if truthy_list imgs
       then ratio (length (filter (fun img => truthy_opt (get img "alt")) imgs))
                  (length imgs)
       else 1 |}.

(** The comprehension of ['external_links']: the anchors kept, or the
    first exception [urlparse] raises. *)
Fixpoint external_anchors (self : WebParser) (anchors : list node)
    : result (list node) :=
  match anchors with
  | [] => Ok []
  | a :: rest =>
      keep <-r (if String.prefix "http" (get_default (get a "href") "")
                   || String.prefix "https" (get_default (get a "href") "")
                then link_netloc <-r netloc (get_default (get a "href") "") ;;
                     base_netloc <-r netloc (base_url self) ;;
                     Ok (negb (String.eqb link_netloc base_netloc))
                else Ok false) ;;
      kept <-r external_anchors self rest ;;
      Ok (if keep : bool then a :: kept else kept)
  end.

(** [WebParser._extract_security_elements]. *)
Definition _extract_security_elements (self : WebParser)
    : result SecurityElements :=
  let has_csrf_input (root : node) :=
    match find root (fun n => named "input" n && attr_in "name" csrf_names n)
    with
    | Some _ => true
    | None => false
    end in
  externals <-r
    external_anchors self
      (find_all (soup self) (fun n => named "a" n && has_attr "href" n)) ;;
  Ok {| csrf_token := has_csrf_input (soup self);
        external_links := length externals;
        password_inputs := count_inputs self "password";
        forms_with_csrf :=
          length (filter has_csrf_input
                    (find_all (soup self) (named "form"))) |}.

(** A dictionary comprehension over tags: later tags overwrite the value
    of a key that is already there. *)
Definition tag_dict (key_attr : string) (tags : list node)
    : dict (option string) :=
  fold_left (fun d tag =>
               store (get_default (get tag key_attr) "") (get tag "content") d)
            tags [].

(** [WebParser._extract_social_meta]. *)
Definition _extract_social_meta (self : WebParser) : SocialMeta :=
  {| og_tags :=
       Some (tag_dict "property"
               (find_all (soup self)
                  (fun n => named "meta" n
                            && attr_satisfies "property"
                                 (fun x => truthy x && String.prefix "og:" x)
                                 n)));
     twitter_tags :=
       Some (tag_dict "name"
               (find_all (soup self)
                  (fun n => named "meta" n
                            && attr_satisfies "name"
                                 (fun x => truthy x
                                           && String.prefix "twitter:" x)
                                 n))) |}.

(** [WebParser.extract_page_structure].  Of the values of the dictionary
    only ['security_headers'] can raise, so it is computed first. *)
Definition extract_page_structure (self : WebParser) : result PageStructure :=
  let heading i :=
    ("h" ++ str_nat i,
     map get_text_strip (find_all (soup self) (named ("h" ++ str_nat i)))) in
  security <-r _extract_security_elements self ;;
  Ok {| title :=
          Some (match find (soup self) (named "title") with
                | Some t => string_of t
                | None => None
                end);
        headings := Some (map heading (seq 1 6));
        meta :=
          Some [ ("description", meta_content self "description");
                 ("keywords", meta_content self "keywords");
                 ("viewport", meta_content self "viewport");
                 ("charset",
                  match find (soup self)
                          (fun n => named "meta" n && has_attr "charset" n) with
                  | Some m => Some (get_default (get m "charset") "")
                  | None => None
                  end);
                 ("robots", meta_content self "robots") ];
        images :=
          Some (map (fun img =>
                       {| src := get img "src";
                          alt := get_default (get img "alt") "";
                          img_title := get_default (get img "title") "";
                          width := get_default (get img "width") "";
                          height := get_default (get img "height") "" |})
                    (find_all (soup self) (named "img")));
        scripts :=
          Some {| total := length (find_all (soup self) (named "script"));
                  external :=
                    length (find_all (soup self)
                              (fun n => named "script" n && has_attr "src" n));
                  inline :=
                    length (find_all (soup self)
                              (fun n => named "script" n
                                        && lacks_attr "src" n)) |};
        stylesheets :=
          Some {| total :=
                    length (find_all (soup self)
                              (fun n => named "link" n
                                        && attr_is "rel" "stylesheet" n));
                  external :=
                    length (find_all (soup self)
                              (fun n => named "link" n
                                        && attr_is "rel" "stylesheet" n
                                        && has_attr "href" n));
                  inline := length (find_all (soup self) (named "style")) |};
        language :=
          Some (match find (soup self) (named "html") with
                | Some h => get h "lang"
                | None => None
                end);
        landmarks := Some (_extract_landmarks self);
        lists :=
          Some {| ul := length (find_all (soup self) (named "ul"));
                  ol := length (find_all (soup self) (named "ol"));
                  dl := length (find_all (soup self) (named "dl")) |};
        tables := Some (_analyze_tables self);
        interactive_elements := Some (_extract_interactive_elements self);
        seo_elements := Some (_extract_seo_elements self);
        security_headers := Some security;
        social_meta := Some (_extract_social_meta self) |}.

(** The module-level [parse_html]; a caller that leaves [base_url] out
    passes ['http://example.com']. *)
Definition parse_html (html_content base_url : option string)
    : result ParsedData :=
  parser <-r new_parser html_content base_url ;;
  links <-r extract_links parser ;;
  forms <-r extract_forms parser ;;
  structure <-r extract_page_structure parser ;;
  Ok {| pd_links := Some links;
        pd_forms := Some forms;
        pd_structure := Some structure;
        pd_language := None |}.

End WithLibraries.

End Parser.

(* ===================================================================== *)
(** * analyzer/language_analyzer.py *)
(* ===================================================================== *)

Module LanguageAnalyzer.

(** [LANGUAGE_NAMES]: code, English name, native name (UTF-8). *)
Definition LANGUAGE_NAMES : dict (string * string) :=
  [ ("en", ("English", "English"));
    ("es", ("Spanish", "Español"));
    ("fr", ("French", "Français"));
    ("de", ("German", "Deutsch"));
    ("it", ("Italian", "Italiano"));
    ("pt", ("Portuguese", "Português"));
    ("ru", ("Russian", "Русский"));
    ("ja", ("Japanese", "日本語"));
    ("ko", ("Korean", "한국어"));
    ("zh", ("Chinese", "中文"));
    ("ar", ("Arabic", "العربية"));
    ("hi", ("Hindi", "हिन्दी"));
    ("nl", ("Dutch", "Nederlands"));
    ("pl", ("Polish", "Polski"));
    ("tr", ("Turkish", "Türkçe"));
    ("vi", ("Vietnamese", "Tiếng Việt"));
    ("th", ("Thai", "ไทย"));
    ("sv", ("Swedish", "Svenska"));
    ("da", ("Danish", "Dansk"));
    ("fi", ("Finnish", "Suomi")) ].

(** [re.sub(r'\s+', ' ', text)]: every run of whitespace becomes one
    space; [in_run] tells whether the previous character was whitespace. *)
Fixpoint collapse_from (in_run : bool) (text : string) : string :=
  match text with
  | EmptyString => EmptyString
  | String c rest =>
      if is_space c
      then if in_run then collapse_from true rest
           else String " " (collapse_from true rest)
      else String c (collapse_from false rest)
  end.

Definition collapse_whitespace (text : string) : string :=
  collapse_from false text.

(** The four tags whose content is not analysed. *)
Definition skipped_tags : list string := ["script"; "style"; "code"; "pre"].

(** [LanguageAnalyzer._extract_text_content].  The method removes the
    skipped tags from the tree it is given: the tree it leaves behind is
    returned with the text. *)
Definition _extract_text_content (soup : node) : string * node :=
  let soup := decompose_all (named_any skipped_tags) soup in
  let text := join " " (stripped_strings soup) in
  let text := strip (collapse_whitespace text) in
  (text, soup).

(** [text[i:i+step]]. *)
Definition slice (text : string) (i step : nat) : string :=
  substring i step text.

(** [range(0, length, step)], [step] positive. *)
Definition range_step (length step : nat) : list nat :=
  map (fun k => k * step) (seq 0 ((length + step - 1) / step)).

(** [sum(confs)]. *)
Definition sum_Q (confs : list Q) : Q :=
  fold_left Qplus confs (0 : Q).

(** The sort key [(count, confidence)] of [b] is below that of [a]. *)
Definition key_below (b a : OtherLanguage) : bool :=
  (other_count b <? other_count a)%nat
  || ((other_count b =? other_count a)%nat
      && if Qlt_le_dec (other_confidence b) (other_confidence a)
         then true else false).

(** Where [sort(key=..., reverse=True)] puts one more element: before the
    first one with a smaller key, so after its equals. *)
Fixpoint insert_desc (x : OtherLanguage) (sorted : list OtherLanguage)
    : list OtherLanguage :=
  match sorted with
  | [] => [x]
  | y :: rest =>
      if key_below y x then x :: sorted else y :: insert_desc x rest
  end.

Definition sort_desc (results : list OtherLanguage) : list OtherLanguage :=
  fold_left (fun sorted x => insert_desc x sorted) results [].

(** [LANGUAGE_NAMES.get(lang, {'name': 'Unknown', 'native': 'Unknown'})]. *)
Definition language_info (lang : string) : string * string :=
  get_default (lookup lang LANGUAGE_NAMES) ("Unknown", "Unknown").

(** [LanguageAnalyzer._is_rtl_language]. *)
Definition _is_rtl_language (lang_code : string) : bool :=
  existsb (String.eqb lang_code)
    ["ar"; "fa"; "he"; "ur"; "arc"; "az"; "dv"; "ku"; "nqo"].

(** [re.compile(r'lang|language|translate', re.I).search(s)]. *)
Definition search_lang_word (s : string) : bool :=
  contains "lang" (lower s) || contains "language" (lower s)
  || contains "translate" (lower s).

Definition is_letter (c : ascii) : bool :=
  let n := nat_of_ascii (lower_char c) in
  ((97 <=? n) && (n <=? 122))%nat.

(** The pattern [[?&]lang=|/[a-z]{2}(?:-[A-Z]{2})?/] with [re.I], matched
    at the start of [s]. *)
Definition lang_href_at (s : string) : bool :=
  match s with
  | String c0 rest =>
      ((Ascii.eqb c0 "?" || Ascii.eqb c0 "&")
       && String.prefix "lang=" (lower rest))
      || (Ascii.eqb c0 "/"
          && match rest with
             | String c1 (String c2 (String c3 rest3)) =>
                 is_letter c1 && is_letter c2
                 && (Ascii.eqb c3 "/"
                     || (Ascii.eqb c3 "-"
                         && match rest3 with
                            | String c4 (String c5 (String c6 _)) =>
                                is_letter c4 && is_letter c5
                                && Ascii.eqb c6 "/"
                            | _ => false
                            end))
             | _ => false
             end)
  | EmptyString => false
  end.

(** [re.compile(r'[?&]lang=|/[a-z]{2}(?:-[A-Z]{2})?/', re.I).search(s)]. *)
Fixpoint search_lang_href (s : string) : bool :=
  lang_href_at s ||
  match s with
  | EmptyString => false
  | String _ rest => search_lang_href rest
  end.

(** [LanguageAnalyzer._find_lang_attributes] and [_find_dir_attributes]. *)
Definition _find_attributes (attr : string) (soup : node)
    : list LangAttribute :=
  map (fun element =>
         {| attr_tag := tag_name element;
            attr_value := get_default (get element attr) "" |})
      (find_all soup (has_attr attr)).

Definition _find_lang_attributes : node -> list LangAttribute :=
  _find_attributes "lang".

Definition _find_dir_attributes : node -> list LangAttribute :=
  _find_attributes "dir".

(** [tag[attr]]. *)
Definition tag_item (tag : node) (attr : string) : result string :=
  getitem attr (get tag attr).

(** The comprehension of ['alternate_links']. *)
Fixpoint alternate_links_of (links : list node) : result (list AlternateLink) :=
  match links with
  | [] => Ok []
  | link :: rest =>
      href <-r tag_item link "href" ;;
      hreflang <-r tag_item link "hreflang" ;;
      others <-r alternate_links_of rest ;;
      Ok ({| alt_href := href; alt_hreflang := hreflang |} :: others)
  end.

(** [LanguageAnalyzer._find_multilingual_meta]. *)
Definition _find_multilingual_meta (soup : node) : result MultilingualMeta :=
  links <-r alternate_links_of
              (find_all soup
                 (fun n => named "link" n && attr_is "rel" "alternate" n
                           && has_attr "hreflang" n)) ;;
  content_language <-r
    match find soup
            (fun n => named "meta" n
                      && attr_is "http-equiv" "content-language" n) with
    | Some m => c <-r tag_item m "content" ;; Ok (Some c)
    | None => Ok None
    end ;;
  Ok {| alternate_links := Some links;
        content_language := Some content_language |}.

(** [LanguageAnalyzer._find_translation_links].  The three patterns are
    attribute dictionaries: the first one names the attribute [class_]. *)
Definition _find_translation_links (soup : node) : list TranslationLink :=
  let patterns :=
    [ attr_satisfies "class_" search_lang_word;
      attr_satisfies "id" search_lang_word;
      attr_satisfies "href" search_lang_href ] in
  flat_map (fun pattern =>
     map (fun link =>
            {| tl_text := get_text_strip link;
               tl_href := get_default (get link "href") "";
               tl_lang := get_default (get link "hreflang") "" |})
         (find_all soup (fun n => named "a" n && pattern n)))
     patterns.

(** What [_analyze_language_elements] returns when it gives up. *)
Definition empty_elements : LanguageElements :=
  {| lang_attributes := Some [];
     dir_attributes := Some [];
     multilingual_meta := Some (mkMultilingual None None);
     translation_links := Some [] |}.

(** [LanguageAnalyzer._analyze_language_elements]. *)
Definition _analyze_language_elements (soup : node) : LanguageElements :=
  match _find_multilingual_meta soup with
  | Ok multilingual =>
      {| lang_attributes := Some (_find_lang_attributes soup);
         dir_attributes := Some (_find_dir_attributes soup);
         multilingual_meta := Some multilingual;
         translation_links := Some (_find_translation_links soup) |}
  | Raise _ => empty_elements
  end.

Section WithLibraries.

(** [BeautifulSoup(html_content, 'lxml')]. *)
Variable BeautifulSoup : string -> node.

(** [langid.classify]: a language code and a confidence, or an
    exception. *)
Variable classify : string -> result (string * Q).

(** [charset_normalizer.detect(content.encode())['encoding']]: a name,
    [None], or an exception. *)
Variable detect : string -> result (option string).

(** One turn of the sampling loop of [_detect_other_languages]: [counts]
    after the chunk that starts at [i]. *)
Definition sample_chunk (text primary_lang : string) (step : nat)
    (counts : dict (list Q)) (i : nat) : dict (list Q) :=
  let sample := strip (slice text i step) in
  if negb (truthy sample) then counts
  else match classify sample with
       | Raise _ => counts
       | Ok (lang, conf) =>
           if String.eqb lang primary_lang then counts
           else store lang (get_default (lookup lang counts) [] ++ [conf])%list
                  counts
       end.

(** [LanguageAnalyzer._detect_other_languages], [chunks] being 8 unless
    the caller says otherwise. *)
Definition _detect_other_languages (text primary_lang : string)
    (chunks : nat) : list OtherLanguage :=
  if negb (truthy text) || (String.length text <? 50)%nat then []
  else
    let length := String.length text in
    let step := Nat.max 1 (length / chunks) in
    let counts :=
      fold_left (sample_chunk text primary_lang step)
        (range_step length step) [] in
    let results :=
      map (fun '(lang, confs) =>
             let avg_conf :=
               if truthy_list confs
               then (sum_Q confs / inject_Z (Z.of_nat (List.length confs)))%Q
               else 0%Q in
             let info := language_info lang in
             {| other_code := lang;
                other_name := fst info;
                other_native := snd info;
                other_count := List.length confs;
                other_confidence := avg_conf |})
          counts in
    sort_desc results.

(** [LanguageAnalyzer._detect_charset]. *)
Definition _detect_charset (content : string) : option string :=
  match detect content with
  | Ok encoding => encoding
  | Raise _ => Some "utf-8"
  end.

(** ['declared_language'] of the two partial results. *)
Definition declared_only (declared_lang : string) : option DeclaredLanguage :=
  if truthy declared_lang
  then Some {| declared_code := declared_lang;
               declared_name := None;
               declared_native_name := None |}
  else None.

(** The name, or the native name, of the declared language in the full
    result; [pick] selects one of the two. *)
Definition declared_label (pick : string * string -> string)
    (declared_lang : string) : string :=
  if truthy declared_lang
  then match lookup (hd "" (split "-" declared_lang)) LANGUAGE_NAMES with
       | Some info => pick info
       | None => "Not declared"
       end
  else "Not declared".

(** [LanguageAnalyzer.analyze_language]; [html_content] may be [None]. *)
Definition analyze_language (html_content : option string) (url : string)
    : result LanguageAnalysis :=
  match html_content with
  | None => Raise (ValueError "HTML content cannot be None")
  | Some html_content =>
      let soup := BeautifulSoup html_content in
      let declared_lang :=
        match find soup (named "html") with
        | Some html_tag => get_default (get html_tag "lang") ""
        | None => ""
        end in
      let '(text_content, soup) := _extract_text_content soup in
      if negb (truthy text_content)
         || (String.length (strip text_content) <? 10)%nat
      then
        Ok {| la_error :=
                Some "Insufficient text content for language analysis";
              declared_language := Some (declared_only declared_lang);
              detected_language := Some None;
              other_languages := Some [];
              direction := Some "ltr";
              language_elements := Some (_analyze_language_elements soup);
              charset := Some (_detect_charset html_content);
              locale_info := None |}
      else
        match classify text_content with
        | Ok (detected_lang, confidence) =>
            let lang_info := language_info detected_lang in
            let other_langs :=
              _detect_other_languages text_content detected_lang 8 in
            Ok {| la_error := None;
                  declared_language :=
                    Some (Some
                      {| declared_code := declared_lang;
                         declared_name :=
                           Some (declared_label fst declared_lang);
                         declared_native_name :=
                           Some (declared_label snd declared_lang) |});
                  detected_language :=
                    Some (Some
                      {| detected_code := detected_lang;
                         detected_name := fst lang_info;
                         detected_native_name := snd lang_info;
                         detected_confidence := confidence |});
                  other_languages := Some other_langs;
                  direction :=
                    Some (if _is_rtl_language detected_lang
                          then "rtl" else "ltr");
                  language_elements :=
                    Some (_analyze_language_elements soup);
                  charset := Some (_detect_charset html_content);
                  locale_info := None |}
        | Raise e =>
            Ok {| la_error :=
                    Some ("Language detection failed: " ++ str_exn e);
                  declared_language := Some (declared_only declared_lang);
                  detected_language := None;
                  other_languages := None;
                  direction := None;
                  language_elements := None;
                  charset := None;
                  locale_info := None |}
        end
  end.

End WithLibraries.

(** [LanguageAnalyzer.get_language_name]. *)
Definition get_language_name (lang_code : string)
    : string * string * string :=
  let lang_info := language_info (hd "" (split "-" lang_code)) in
  (fst lang_info, snd lang_info, lang_code).

End LanguageAnalyzer.

(* ===================================================================== *)
(** * A model of urllib.parse *)
(* ===================================================================== *)

(** [urlsplit], [urlparse], [urlunparse] and [urljoin] after CPython 3.12,
    for the closed examples: the developments above take the library as a
    parameter.  Left out: the check of what stands between the brackets
    of a bracketed host, and the NFKC check of a non-ASCII netloc. *)
Module Urllib.

Definition is_alpha (c : ascii) : bool :=
  let n := nat_of_ascii c in
  (((65 <=? n) && (n <=? 90)) || ((97 <=? n) && (n <=? 122)))%nat.

Definition is_digit (c : ascii) : bool :=
  let n := nat_of_ascii c in
  ((48 <=? n) && (n <=? 57))%nat.

(** [c in scheme_chars]. *)
Definition is_scheme_char (c : ascii) : bool :=
  is_alpha c || is_digit c
  || Ascii.eqb c "+" || Ascii.eqb c "-" || Ascii.eqb c ".".

Definition uses_relative : list string :=
  [""; "ftp"; "http"; "gopher"; "nntp"; "imap"; "wais"; "file"; "https";
   "shttp"; "mms"; "prospero"; "rtsp"; "rtsps"; "rtspu"; "sftp"; "svn";
   "svn+ssh"; "ws"; "wss"].

Definition uses_netloc : list string :=
  [""; "ftp"; "http"; "gopher"; "nntp"; "telnet"; "imap"; "wais"; "file";
   "mms"; "https"; "shttp"; "snews"; "prospero"; "rtsp"; "rtsps"; "rtspu";
   "rsync"; "svn"; "svn+ssh"; "sftp"; "nfs"; "git"; "git+ssh"; "ws"; "wss";
   "itms-services"].

Definition uses_params : list string :=
  [""; "ftp"; "hdl"; "prospero"; "http"; "imap"; "https"; "shttp"; "rtsp";
   "rtsps"; "rtspu"; "sip"; "sips"; "mms"; "sftp"; "tel"].

Definition member (s : string) (l : list string) : bool :=
  existsb (String.eqb s) l.

(** The part of [s] before the first character [p] selects, and the part
    from that character on. *)
Fixpoint break (p : ascii -> bool) (s : string) : string * string :=
  match s with
  | EmptyString => (EmptyString, EmptyString)
  | String c s' =>
      if p c then (EmptyString, s)
      else let '(before, rest) := break p s' in (String c before, rest)
  end.

(** [c in s]. *)
Fixpoint has_char (c : ascii) (s : string) : bool :=
  match s with
  | EmptyString => false
  | String c' s' => Ascii.eqb c c' || has_char c s'
  end.

Fixpoint all_chars (p : ascii -> bool) (s : string) : bool :=
  match s with
  | EmptyString => true
  | String c s' => p c && all_chars p s'
  end.

Fixpoint filter_chars (p : ascii -> bool) (s : string) : string :=
  match s with
  | EmptyString => EmptyString
  | String c s' => if p c then String c (filter_chars p s')
                   else filter_chars p s'
  end.

Definition tail (s : string) : string :=
  match s with
  | EmptyString => EmptyString
  | String _ s' => s'
  end.

(** [s.partition(c)], without the separator: before, found, after. *)
Definition partition (c : ascii) (s : string) : string * bool * string :=
  let '(before, rest) := break (Ascii.eqb c) s in
  (before, truthy rest, tail rest).


(** [url.lstrip(_WHATWG_C0_CONTROL_OR_SPACE)]. *)
Fixpoint lstrip_c0 (s : string) : string :=
  match s with
  | EmptyString => EmptyString
  | String c s' => if (nat_of_ascii c <=? 32)%nat then lstrip_c0 s' else s
  end.

(** The removal of [_UNSAFE_URL_BYTES_TO_REMOVE]: tab, CR, LF. *)
Definition remove_unsafe (s : string) : string :=
  filter_chars (fun c => negb (existsb (Nat.eqb (nat_of_ascii c)) [9; 13; 10]))
    s.

Record SplitResult : Type := mkSplit {
  scheme : string;
  netloc : string;
  path : string;
  query : string;
  fragment : string
}.

Definition is_delimiter (c : ascii) : bool :=
  Ascii.eqb c "/" || Ascii.eqb c "?" || Ascii.eqb c "#".

(** [urlsplit(url, scheme)]. *)
Definition urlsplit (url default_scheme : string) : result SplitResult :=
  let url := remove_unsafe (lstrip_c0 url) in
  let default_scheme := remove_unsafe (strip default_scheme) in
  let '(before, rest) := break (Ascii.eqb ":") url in
  let '(scheme, url) :=
    if truthy before && truthy rest
       && match before with
          | String c _ => is_alpha c
          | EmptyString => false
          end
       && all_chars is_scheme_char before
    then (lower before, tail rest)
    else (default_scheme, url) in
  let '(netloc, url) :=
    if String.prefix "//" url
    then break is_delimiter (tail (tail url))
    else (EmptyString, url) in
  if (has_char "[" netloc && negb (has_char "]" netloc))
     || (has_char "]" netloc && negb (has_char "[" netloc))
  then Raise (ValueError "Invalid IPv6 URL")
  else
    let '(url, has_fragment, fragment) := partition "#" url in
    let '(url, has_query, query) := partition "?" url in
    Ok {| scheme := scheme; netloc := netloc; path := url;
          query := query; fragment := fragment |}.

(** [urlparse(url).netloc]. *)
Definition urlparse_netloc (url : string) : result string :=
  parts <-r urlsplit url "" ;;
  Ok (netloc parts).



(** [s] up to and including its last [c], and what follows; the first
    part is empty when [c] is not in [s]. *)
Fixpoint rsplit_last (c : ascii) (s : string) : string * string :=
  match s with
  | EmptyString => (EmptyString, EmptyString)
  | String c' s' =>
      if has_char c s'
      then let '(front, back) := rsplit_last c s' in (String c' front, back)
      else if Ascii.eqb c c' then (String c' EmptyString, s')
           else (EmptyString, s)
  end.

(** [_splitparams]: the parameters follow the first semicolon of the last
    path segment. *)
Definition _splitparams (url : string) : string * string :=
  let '(front, back) := rsplit_last "/" url in
  let '(before, found, after) := partition ";" back in
  if found : bool then (front ++ before, after) else (url, EmptyString).

Record ParseResult : Type := mkParse {
  p_scheme : string;
  p_netloc : string;
  p_path : string;
  p_params : string;
  p_query : string;
  p_fragment : string
}.

(** [urlparse(url, scheme)]. *)
Definition urlparse (url default_scheme : string) : result ParseResult :=
  parts <-r urlsplit url default_scheme ;;
  let '(url, params) :=
    if member (scheme parts) uses_params && has_char ";" (path parts)
    then _splitparams (path parts)
    else (path parts, EmptyString) in
  Ok {| p_scheme := scheme parts; p_netloc := netloc parts; p_path := url;
        p_params := params; p_query := query parts;
        p_fragment := fragment parts |}.

(** [urlunparse], through [urlunsplit]. *)
Definition urlunparse (p : ParseResult) : string :=
  let url := if truthy (p_params p)
             then p_path p ++ ";" ++ p_params p else p_path p in
  let url :=
    if truthy (p_netloc p)
       || (truthy (p_scheme p) && member (p_scheme p) uses_netloc
           && negb (String.prefix "//" url))
    then "//" ++ p_netloc p
         ++ (if truthy url && negb (String.prefix "/" url)
             then "/" ++ url else url)
    else url in
  let url := if truthy (p_scheme p) then p_scheme p ++ ":" ++ url else url in
  let url := if truthy (p_query p) then url ++ "?" ++ p_query p else url in
  if truthy (p_fragment p) then url ++ "#" ++ p_fragment p else url.

(** [segments[1:-1] = filter(None, segments[1:-1])]. *)
Definition drop_empty_inner (segments : list string) : list string :=
  match segments with
  | first :: (_ :: _) as rest =>
      (first :: filter truthy (removelast rest) ++ [last rest ""])%list
  | _ => segments
  end.

(** The loop of [urljoin] over the segments: [..] pops, [.] is skipped. *)
Definition resolve_segments (segments : list string) : list string :=
  fold_left (fun resolved seg =>
               if String.eqb seg ".." then removelast resolved
               else if String.eqb seg "." then resolved
               else (resolved ++ [seg])%list)
            segments [].

(** [urljoin(base, url)]. *)
Definition urljoin (base url : string) : result string :=
  if negb (truthy base) then Ok url
  else if negb (truthy url) then Ok base
  else
    b <-r urlparse base "" ;;
    u <-r urlparse url (p_scheme b) ;;
    if negb (String.eqb (p_scheme u) (p_scheme b))
       || negb (member (p_scheme u) uses_relative)
    then Ok url
    else if member (p_scheme u) uses_netloc && truthy (p_netloc u)
    then Ok (urlunparse u)
    else
      let netloc :=
        if member (p_scheme u) uses_netloc then p_netloc b else p_netloc u in
      if negb (truthy (p_path u)) && negb (truthy (p_params u))
      then Ok (urlunparse
                 {| p_scheme := p_scheme u; p_netloc := netloc;
                    p_path := p_path b; p_params := p_params b;
                    p_query := if truthy (p_query u)
                               then p_query u else p_query b;
                    p_fragment := p_fragment u |})
      else
        let base_parts := split "/" (p_path b) in
        let base_parts :=
          if truthy (last base_parts "")
          then removelast base_parts else base_parts in
        let segments :=
          if String.prefix "/" (p_path u)
          then split "/" (p_path u)
          else drop_empty_inner (base_parts ++ split "/" (p_path u))%list in
        let resolved_path := resolve_segments segments in
        let resolved_path :=
          if String.eqb (last segments "") "."
             || String.eqb (last segments "") ".."
          then (resolved_path ++ [""])%list else resolved_path in
        let joined := join "/" resolved_path in
        Ok (urlunparse
              {| p_scheme := p_scheme u; p_netloc := netloc;
                 p_path := if truthy joined then joined else "/";
                 p_params := p_params u; p_query := p_query u;
                 p_fragment := p_fragment u |}).

End Urllib.

(* ===================================================================== *)
(** * app.py: the synthesis step of the [/analyze] route *)
(* ===================================================================== *)

Module App.

Import TestGenerator.

(** What the route answers once the page is fetched, parsed and probed:
    the results page with its test cases, or a JSON error. *)
Inductive Response : Type :=
| Rendered (cases : list TestCase) (url filename : string)
           (total passed failed : nat)
| JsonError (status : nat) (error : string).

(** The five generator calls of [analyze], on the generator it creates. *)
Definition synthesize (links : list Link) (link_checks : list LinkCheck)
    (forms : list Form) (structure : PageStructure)
    (language_analysis : LanguageAnalysis) : Gen unit :=
  generate_link_test_cases links link_checks ;;
  generate_form_test_cases forms ;;
  generate_structure_test_cases structure ;;
  generate_accessibility_test_cases structure ;;
  generate_language_test_cases language_analysis.

(** [sum(1 for tc in test_cases if tc['Status'] == status)]. *)
Definition count_status (status : string) (cases : list TestCase) : nat :=
  length (filter (fun tc => String.eqb (Status tc) status) cases).

Section WithEnvironment.

(** [werkzeug.utils.secure_filename]. *)
Variable secure_filename : string -> string.

(** The end of [analyze], from the creation of the generator on.
    [timestamp] is [datetime.now().strftime('%Y%m%d_%H%M%S')].  An
    exception of the generator reaches the [except Exception] clause of
    the route, which answers with status 500. *)
Definition report (timestamp url : string) (links : list Link)
    (link_checks : list LinkCheck) (forms : list Form)
    (structure : PageStructure) (language_analysis : LanguageAnalysis)
    : Response :=
  match synthesize links link_checks forms structure language_analysis init
  with
  | (Ok _, test_generator) =>
      let filename :=
        secure_filename ("test_cases_" ++ timestamp ++ ".csv") in
      let cases := test_cases test_generator in
      Rendered cases url filename
        (length cases) (count_status "Pass" cases)
        (count_status "Fail" cases)
  | (Raise e, _) =>
      JsonError 500
        ("An error occurred while analyzing the website: " ++ str_exn e)
  end.

End WithEnvironment.

(** The test cases of an answer; none when it is an error. *)
Definition cases_of (r : Response) : list TestCase :=
  match r with
  | Rendered cases _ _ _ _ _ => cases
  | JsonError _ _ => []
  end.

End App.

(* ===================================================================== *)
(** * Notions the statements below are phrased in *)
(* ===================================================================== *)

Module Runs.

Import TestGenerator.

(** The five arguments of one [add_test_case] call. *)
Definition Row : Type := string * string * string * string * string.

(** The generator after one [add_test_case] call. *)
Definition add_row (g : TestCaseGenerator) (r : Row) : TestCaseGenerator :=
  let '(description, test_step, expected_result, actual_result, status) := r in
  snd (add_test_case description test_step expected_result actual_result
         status g).

(** The generator after a sequence of [add_test_case] calls. *)
Definition add_rows (rows : list Row) (g : TestCaseGenerator)
    : TestCaseGenerator :=
  fold_left add_row rows g.

(** A computation whose whole effect on the generator is a sequence of
    [add_test_case] calls that does not depend on the generator's state;
    neither does its outcome. *)
Definition adds_only {A} (m : Gen A) : Prop :=
  exists (rows : list Row) (r : result A),
    forall g, m g = (r, add_rows rows g).

(** A call of a public method of [TestCaseGenerator]. *)
Inductive Call : Type :=
| CallAdd (description test_step expected_result actual_result
           status : string)
| CallLinks (links : list Link) (link_checks : list LinkCheck)
| CallForms (forms : list Form)
| CallStructure (structure : PageStructure)
| CallAccessibility (structure : PageStructure)
| CallLanguage (language_analysis : LanguageAnalysis).

Definition perform (c : Call) : Gen unit :=
  match c with
  | CallAdd d s e a st => add_test_case d s e a st
  | CallLinks links link_checks => generate_link_test_cases links link_checks
  | CallForms forms => generate_form_test_cases forms
  | CallStructure structure => generate_structure_test_cases structure
  | CallAccessibility structure => generate_accessibility_test_cases structure
  | CallLanguage la => generate_language_test_cases la
  end.

(** The generator after a sequence of method calls, whether or not some of
    them raised. *)
Definition after (calls : list Call) (g : TestCaseGenerator)
    : TestCaseGenerator :=
  fold_left (fun g c => snd (perform c g)) calls g.

(** The number a test-case id stands for: the decimal digits after
    [TC_]. *)
Definition tc_number (id : string) : option nat :=
  match id with
  | String "T" (String "C" (String "_" digits)) =>
      option_map Nat.of_uint (NilEmpty.uint_of_string digits)
  | _ => None
  end.

(** The ids [TC_001], [TC_002], ... are used up in this order, without a
    gap, and the counter is one ahead. *)
Definition sequential (g : TestCaseGenerator) : Prop :=
  let n := length (test_cases g) in
  map TC_ID (test_cases g) = map format_tc_id (seq 1 n)
  /\ map tc_number (map TC_ID (test_cases g)) = map Some (seq 1 n)
  /\ tc_counter g = S n.

(** What a computation appended to the generator's list. *)
Definition appended {A} (m : Gen A) (g : TestCaseGenerator) : list TestCase :=
  skipn (length (test_cases g)) (test_cases (snd (m g))).

(** The arguments a test case was added with. *)
Definition row_of (tc : TestCase) : Row :=
  (Description tc, Test_Step tc, Expected_Result tc, Actual_Result tc,
   Status tc).

Definition row_description (r : Row) : string :=
  let '(description, _, _, _, _) := r in description.

Definition row_status (r : Row) : string :=
  let '(_, _, _, _, status) := r in status.

(** A computation that never raises and makes exactly the calls [rows]. *)
Definition emits (m : Gen unit) (rows : list Row) : Prop :=
  forall g, m g = (Ok tt, add_rows rows g).

(** A computation that never raises and only adds rows that satisfy
    [P]. *)
Definition emits_only (P : Row -> Prop) (m : Gen unit) : Prop :=
  exists rows, Forall P rows /\ emits m rows.

(** The responsiveness test case. *)
Definition responsive (tc : TestCase) : Prop :=
  Description tc = "Verify responsive design meta tag".

(** A row of another test case than the responsiveness one. *)
Definition other_row (r : Row) : Prop :=
  row_description r <> "Verify responsive design meta tag".

(** The verdict on a viewport value, [None] counting as the empty
    string. *)
Definition viewport_verdict (viewport : option string) : string :=
  if contains "width=device-width"
       (match viewport with Some content => content | None => "" end)
  then "Pass" else "Fail".

(** An image with alternative text: the attribute is there and is not the
    empty string. *)
Definition has_alt_text (img : node) : bool :=
  match get img "alt" with
  | Some a => negb (String.eqb a "")
  | None => false
  end.

(** The GET request of [fetch_website_content] with the crawler's own
    timeouts, certificate verification being as [verify] says. *)
Definition get_request (self : Crawler.WebCrawler) (url : string)
    (verify : bool) : Crawler.Request :=
  Crawler.mkRequest "GET" url (fst (Crawler.timeouts self))
    (snd (Crawler.timeouts self)) verify true.

(** The same request with the read timeout doubled. *)
Definition extended_request (self : Crawler.WebCrawler) (url : string)
    : Crawler.Request :=
  Crawler.mkRequest "GET" url (fst (Crawler.timeouts self))
    (snd (Crawler.timeouts self) * 2)%Q true true.

(** The HEAD request of [check_link_accessibility]. *)
Definition head_request (url : string) : Crawler.Request :=
  Crawler.mkRequest "HEAD" url 5 5 true true.

(** What an attempt makes of the answer of the network: the body, or the
    exception of the network or of [raise_for_status]. *)
Definition outcome (answer : result Crawler.Response) : result string :=
  response <-r answer ;;
  _ <-r Crawler.raise_for_status response ;;
  Ok (Crawler.text response).

(** The anchors that have an [href] attribute, in document order. *)
Definition anchors (soup : node) : list node :=
  find_all soup (fun n => named "a" n && has_attr "href" n).

(** The language the root element declares: its [lang] attribute, the
    empty string when there is none. *)
Definition declared_attribute (soup : node) : string :=
  match find soup (named "html") with
  | Some html_tag => get_default (get html_tag "lang") ""
  | None => ""
  end.

(** The analysable text of a parsed page and the tree the extraction
    leaves behind. *)
Definition analysable_text (soup : node) : string :=
  fst (LanguageAnalyzer._extract_text_content soup).

Definition stripped_tree (soup : node) : node :=
  snd (LanguageAnalyzer._extract_text_content soup).

(** The partial result for a page with too little text. *)
Definition is_short_circuit (la : LanguageAnalysis) (declared : string)
    : Prop :=
  la_error la = Some "Insufficient text content for language analysis"
  /\ declared_language la
     = Some (if String.eqb declared "" then None
             else Some (mkDeclared declared None None))
  /\ detected_language la = Some None
  /\ other_languages la = Some []
  /\ direction la = Some "ltr".

End Runs.

(* ===================================================================== *)
(** * Concrete pages and libraries for the closed examples *)
(* ===================================================================== *)

Module Examples.

(** [<html lang="en"><body><h1>Hi</h1></body></html>]. *)
Definition hi_page : node :=
  document
    [ Tag "html" [("lang", "en")]
        [ Tag "body" [] [ Tag "h1" [] [ Str "Hi" ] ] ] ].

Definition hi_parser : Parser.WebParser :=
  {| Parser.soup := hi_page; Parser.base_url := "http://x.com" |}.

(** A page with [<meta name="viewport"
    content="width=device-width, initial-scale=1">]. *)
Definition viewport_page : node :=
  document
    [ Tag "html" []
        [ Tag "head" []
            [ Tag "meta"
                [ ("name", "viewport");
                  ("content", "width=device-width, initial-scale=1") ] [] ];
          Tag "body" [] [ Tag "p" [] [ Str "Hello" ] ] ] ].

Definition viewport_parser : Parser.WebParser :=
  {| Parser.soup := viewport_page; Parser.base_url := "http://x.com" |}.

(** The page of [smoke_parser_test.py]: a relative link, an external
    one, an anchor without [href] and a [javascript:] link. *)
Definition smoke_page : node :=
  document
    [ Tag "html" []
        [ Tag "head" [] [ Tag "title" [] [ Str "Test" ] ];
          Tag "body" []
            [ Tag "a" [("href", "/about")] [ Str "About" ];
              Tag "a" [("href", "http://external.example.com/page")]
                [ Str "External" ];
              Tag "a" [] [ Str "EmptyAnchor" ];
              Tag "a" [("href", "javascript:void(0)")] [ Str "JS" ] ] ] ].

Definition smoke_parser : Parser.WebParser :=
  {| Parser.soup := smoke_page; Parser.base_url := "http://example.com" |}.



(** A server with a certificate the client does not trust: a request
    that verifies certificates meets an [SSLError], one that does not is
    answered. *)
Definition untrusted_server (log : Crawler.Log) (r : Crawler.Request)
    : result Crawler.Response :=
  if Crawler.verify r
  then Raise (RequestException SSLError "certificate verify failed")
  else Ok (Crawler.mkResponse 200 "OK" (Crawler.req_url r)
             "<html><body>Hello</body></html>" []).

(** A server that answers every request with a page whose root element
    has an attribute. *)
Definition lang_server (log : Crawler.Log) (r : Crawler.Request)
    : result Crawler.Response :=
  Ok (Crawler.mkResponse 200 "OK" (Crawler.req_url r)
        "<html lang='en'><body>Hello</body></html>" []).

Definition example_crawler : Crawler.WebCrawler :=
  Crawler.new_crawler "http://example.com" Crawler.DEFAULT_CONNECT_TIMEOUT
    Crawler.DEFAULT_READ_TIMEOUT.

(** A parser that answers every document with [hi_page], a classifier
    that always fails and a charset detector that always says ASCII. *)
Definition parse_hi (html_content : string) : node := hi_page.

Definition classify_fails (text : string) : result (string * Q) :=
  Raise (OtherException "no classifier").

Definition detect_ascii (content : string) : result (option string) :=
  Ok (Some "ascii").

Definition hi_html : string :=
  "<html lang='en'><body><h1>Hi</h1></body></html>".

(** The structure [extract_page_structure] gives for [hi_page]. *)
Definition hi_structure : PageStructure :=
  match Parser.extract_page_structure Urllib.urlparse_netloc hi_parser with
  | Ok structure => structure
  | Raise _ => empty_structure
  end.

(** A generator that was used before and whose counter was reset. *)
Definition used_generator : TestGenerator.TestCaseGenerator :=
  TestGenerator.mkGenerator
    [ TestGenerator.mkTestCase "TC_001" "old" "old" "old" "old" "Pass" ] 1.

End Examples.

(* ===================================================================== *)
(** * Further notions: the generator *)
(* ===================================================================== *)

Module Properties.

Import TestGenerator Runs.

(** The rows a computation adds when it runs on a fresh generator. *)
Definition rows_from (m : Gen unit) : list Row :=
  map row_of (test_cases (snd (m init))).

(** The four verdicts of the report. *)
Definition status_ok (s : string) : Prop :=
  s = "Pass" \/ s = "Fail" \/ s = "Warning" \/ s = "Info".

(** A computation, raising or not, whose whole effect is a sequence of
    [add_test_case] calls with rows that satisfy [P]. *)
Definition adds_where (P : Row -> Prop) {A} (m : Gen A) : Prop :=
  exists (rows : list Row) (r : result A),
    Forall P rows /\ forall g, m g = (r, add_rows rows g).

(** A call of one of the five [generate_..._test_cases] methods. *)
Definition is_generate (c : Call) : bool :=
  match c with
  | CallAdd _ _ _ _ _ => false
  | _ => true
  end.

(** A form with a field that carries the [required] attribute. *)
Definition has_required (form : Form) : bool :=
  existsb required (fields form).

(** The rows of the two test cases of one link and its check. *)
Definition link_rows (pair : Link * LinkCheck) : list Row :=
  rows_from (generate_link_test_cases [fst pair] [snd pair]).

(** The key whose absence makes [generate_accessibility_test_cases]
    raise: ['images'] is read first, ['headings'] second. *)
Definition missing_key (structure : PageStructure) : option exn :=
  match images structure, headings structure with
  | None, _ => Some (KeyError "images")
  | Some _, None => Some (KeyError "headings")
  | Some _, Some _ => None
  end.

(** A language analysis with the keys and values of the full result of
    [analyze_language], whatever its charset. *)
Definition is_full (la : LanguageAnalysis) : Prop :=
  exists code name native detected others dir,
    declared_language la
    = Some (Some (mkDeclared code (Some name) (Some native)))
    /\ detected_language la = Some (Some detected)
    /\ other_languages la = Some others
    /\ direction la = Some dir.

(** A computation that ends with [r] after exactly the calls [rows], from
    any generator. *)
Definition runs {A} (m : Gen A) (r : result A) (rows : list Row) : Prop :=
  forall g, m g = (r, add_rows rows g).

(** The description and the status of a row. *)
Definition verdict (r : Row) : string * string :=
  (row_description r, row_status r).

Definition verdict_of (tc : TestCase) : string * string :=
  (Description tc, Status tc).

(** A test case that is there under a condition only. *)
Definition optional {A} (c : bool) (a : A) : list A := if c then [a] else [].

(** [p] is the part of the language tag [code] before its first hyphen. *)
Definition primary_subtag (code p : string) : Prop :=
  contains "-" p = false /\ (code = p \/ exists rest, code = p ++ "-" ++ rest).

(** A full analysis of an English page declared as [en-US], with the
    charset [cs]. *)
Definition english_analysis (cs : option (option string)) : LanguageAnalysis :=
  mkAnalysis None
    (Some (Some (mkDeclared "en-US" (Some "English") (Some "English"))))
    (Some (Some (mkDetected "en" "English" "English" (99 # 100))))
    (Some []) (Some "ltr") (Some LanguageAnalyzer.empty_elements) cs None.

(** ** Language analysis *)

(** [a] may stand before [b] in a list sorted in descending order of the
    key [(count, confidence)]. *)
Definition not_below (a b : OtherLanguage) : Prop :=
  LanguageAnalyzer.key_below a b = false.

(** The samples all the entries stand for. *)
Definition total_count (results : list OtherLanguage) : nat :=
  fold_right (fun o n => other_count o + n) 0 results.

(** The positions [_detect_other_languages] takes its samples at. *)
Definition sample_positions (text : string) (chunks : nat) : list nat :=
  LanguageAnalyzer.range_step (String.length text)
    (Nat.max 1 (String.length text / chunks)).


(** Whitespace is single spaces: a whitespace character is a space and
    does not follow another one; [after_space] tells whether the
    character before the string is whitespace. *)
Fixpoint single_spaced (after_space : bool) (s : string) : Prop :=
  match s with
  | EmptyString => True
  | String c rest =>
      if is_space c
      then c = " "%char /\ after_space = false /\ single_spaced true rest
      else single_spaced false rest
  end.

(** A string that does not begin with whitespace. *)
Definition starts_clean (s : string) : Prop :=
  match s with
  | EmptyString => True
  | String c _ => is_space c = false
  end.

(** The [link rel="alternate" hreflang=...] elements and the
    [meta http-equiv="content-language"] element of a page. *)
Definition alternates (soup : node) : list node :=
  find_all soup (fun n => named "link" n && attr_is "rel" "alternate" n
                          && has_attr "hreflang" n).

Definition content_language_meta (soup : node) : option node :=
  find soup (fun n => named "meta" n
                      && attr_is "http-equiv" "content-language" n).





(** ** Parsing *)

(** [a.get('href')] of an anchor that has the attribute. *)
Definition href_of (a : node) : string := get_default (get a "href") "".

(** [href.startswith(('http', 'https'))]. *)
Definition is_http (a : node) : bool := String.prefix "http" (href_of a).

(** An anchor [_extract_security_elements] counts as external: the href
    starts with [http] and its netloc is not the one of the base URL. *)
Definition is_external (netloc : string -> result string)
    (self : Parser.WebParser) (a : node) : bool :=
  is_http a
  && match netloc (href_of a), netloc (Parser.base_url self) with
     | Ok link_netloc, Ok base_netloc =>
         negb (String.eqb link_netloc base_netloc)
     | _, _ => false
     end.

(** What [extract_forms] makes of a form element, the action apart. *)
Definition form_method (form : node) : string :=
  upper (get_default (get form "method") "get").

Definition form_fields (form : node) : list Field :=
  map Parser.field_of
    (find_all form (named_any ["input"; "textarea"; "select"])).

(** The verdicts of the four accessibility cases of a parsed page, from
    the page itself. *)
Definition accessibility_verdicts (soup : node) : list (string * string) :=
  let imgs := find_all soup (named "img") in
  let h1s := find_all soup (named "h1") in
  [ ("Verify image alt texts",
     if forallb has_alt_text imgs then "Pass" else "Fail");
    ("Verify heading hierarchy",
     if (1 <=? length h1s)%nat then "Pass" else "Fail");
    ("Check for multiple H1 headings",
     if (length h1s <=? 1)%nat then "Pass" else "Fail") ].

(** ** Crawling *)

(** A status for which [raise_for_status] raises. *)
Definition is_error_status (code : Z) : Prop := (400 <= code < 600)%Z.

(** The requests a computation sent. *)
Definition sent_by {A} (m : Crawler.IO A) (log : Crawler.Log)
    : list Crawler.Request :=
  skipn (length log) (snd (m log)).

(** The request of [check_form_submission]. *)
Definition submit_request (method form_url : string) : Crawler.Request :=
  Crawler.mkRequest (if String.eqb (upper method) "GET" then "GET" else "POST")
    form_url 5 5 true true.


(** A server that answers every request with the status 404. *)
Definition missing_server (log : Crawler.Log) (r : Crawler.Request)
    : result Crawler.Response :=
  Ok (Crawler.mkResponse 404 "Not Found" (Crawler.req_url r) "gone" []).

(** ** From the page to the test cases *)

(** What [parse_html] returns for the page [hi_page]. *)
Definition hi_parsed : ParsedData :=
  match Parser.parse_html Examples.parse_hi Urllib.urljoin
          Urllib.urlparse_netloc (Some Examples.hi_html)
          (Some "http://x.com") with
  | Ok parsed_data => parsed_data
  | Raise _ => mkParsed None None None None
  end.


End Properties.

(* ===================================================================== *)
(** * Python primitives: facts *)
(* ===================================================================== *)

Example format_percent_ex :
  format_percent 0 (3#4) = "75%" /\ format_percent 1 (1#3) = "33.3%" /\
  format_percent 0 (1#8) = "12%" /\ format_percent 1 (-(1#1000)) = "-0.1%" /\
  format_percent 0 1 = "100%" /\ zero_padded 3 7 = "007" /\
  zero_padded 3 1234 = "1234" /\ split "-" "en-US" = ["en"; "US"] /\
  strip "  a b  " = "a b" /\ join ", " ["a"; "b"; "c"] = "a, b, c" /\
  contains "width=device-width" "width=device-width, initial-scale=1" = true /\
  upper "ltr" = "LTR" /\ str_opt_int (Some 404%Z) = "404".
Proof. vm_compute. repeat split. Qed.

Lemma length_zeros k : String.length (zeros k) = k.
Proof. induction k; simpl; congruence. Qed.

Lemma length_append (s t : string) :
  String.length (s ++ t) = String.length s + String.length t.
Proof. induction s; simpl; congruence. Qed.

(** Zero padding reaches the width and never cuts digits off. *)
Lemma length_zero_padded w n :
  String.length (zero_padded w n) = Nat.max w (String.length (str_nat n)).
Proof.
  unfold zero_padded. rewrite length_append, length_zeros. lia.
Qed.

Lemma uint_of_string_zeros k s :
  NilEmpty.uint_of_string (zeros k ++ s)
  = option_map (Nat.iter k Decimal.D0) (NilEmpty.uint_of_string s).
Proof.
  induction k as [|k IH]; simpl.
  - destruct (NilEmpty.uint_of_string s); reflexivity.
  - rewrite IH. destruct (NilEmpty.uint_of_string s); reflexivity.
Qed.

Lemma of_uint_leading_zeros k d :
  Nat.of_uint (Nat.iter k Decimal.D0 d) = Nat.of_uint d.
Proof.
  induction k as [|k IH]; simpl; [reflexivity|].
  rewrite <- IH. reflexivity.
Qed.

(** Reading a padded number back gives the number. *)
Lemma read_zero_padded w n :
  option_map Nat.of_uint (NilEmpty.uint_of_string (zero_padded w n)) = Some n.
Proof.
  unfold zero_padded, str_nat.
  rewrite uint_of_string_zeros, NilEmpty.usu. simpl.
  rewrite of_uint_leading_zeros, DecimalNat.Unsigned.of_to. reflexivity.
Qed.

Lemma length_lstrip s : String.length (lstrip s) <= String.length s.
Proof.
  induction s as [|c s IH]; simpl; [lia|].
  destruct (is_space c); simpl; lia.
Qed.

Lemma length_rstrip s : String.length (rstrip s) <= String.length s.
Proof.
  induction s as [|c s IH]; simpl; [lia|].
  destruct (rstrip s); [destruct (is_space c)|]; simpl in *; lia.
Qed.

(** [strip] never makes a string longer. *)
Lemma length_strip s : String.length (strip s) <= String.length s.
Proof.
  unfold strip. etransitivity; [apply length_rstrip | apply length_lstrip].
Qed.

(** Prepending a non-empty string changes a string. *)
Lemma append_neq (p s : string) : p <> "" -> p ++ s <> s.
Proof.
  intros Hp E. apply (f_equal String.length) in E.
  rewrite length_append in E. destruct p; [congruence | simpl in E; lia].
Qed.

(* ===================================================================== *)
(** * The test-case generator: ids and ownership of the state *)
(* ===================================================================== *)

Module GeneratorFacts.

Import TestGenerator Runs.

Lemma add_rows_app rows1 rows2 g :
  add_rows (rows1 ++ rows2) g = add_rows rows2 (add_rows rows1 g).
Proof. apply fold_left_app. Qed.

(** ** Closure of [adds_only] under the constructs the methods use *)

Lemma adds_ret {A} (a : A) : adds_only (ret a).
Proof. exists [], (Ok a). reflexivity. Qed.

Lemma adds_eval {A} (r : result A) : adds_only (eval r).
Proof. exists [], r. reflexivity. Qed.

Lemma adds_add d s e a st : adds_only (add_test_case d s e a st).
Proof. exists [(d, s, e, a, st)], (Ok tt). reflexivity. Qed.

Lemma adds_bind {A B} (m : Gen A) (f : A -> Gen B) :
  adds_only m -> (forall a, adds_only (f a)) -> adds_only (bind m f).
Proof.
  intros (rows & r & Hm) Hf. destruct r as [a|e].
  - destruct (Hf a) as (rows' & r' & Hfa).
    exists (rows ++ rows')%list, r'. intros g.
    unfold bind. rewrite Hm, Hfa, add_rows_app. reflexivity.
  - exists rows, (Raise e). intros g. unfold bind. rewrite Hm. reflexivity.
Qed.

Lemma adds_try_except {A} (m : Gen A) handled handler :
  adds_only m -> (forall e, adds_only (handler e)) ->
  adds_only (try_except m handled handler).
Proof.
  intros (rows & r & Hm) Hh. destruct r as [a|e].
  - exists rows, (Ok a). intros g. unfold try_except. rewrite Hm. reflexivity.
  - destruct (handled e) eqn:He.
    + destruct (Hh e) as (rows' & r' & Hhe).
      exists (rows ++ rows')%list, r'. intros g.
      unfold try_except. rewrite Hm, He, Hhe, add_rows_app. reflexivity.
    + exists rows, (Raise e). intros g.
      unfold try_except. rewrite Hm, He. reflexivity.
Qed.

Lemma adds_try_pass (m : Gen unit) : adds_only m -> adds_only (try_pass m).
Proof. intros H. apply adds_try_except; [exact H | intros; apply adds_ret]. Qed.

Lemma adds_when c (m : Gen unit) : adds_only m -> adds_only (when c m).
Proof. intros H. destruct c; [exact H | apply adds_ret]. Qed.

Lemma adds_for_each {A} (xs : list A) (body : A -> Gen unit) :
  (forall x, adds_only (body x)) -> adds_only (for_each xs body).
Proof.
  intros Hb. induction xs as [|x xs IH]; simpl.
  - apply adds_ret.
  - apply adds_bind; [apply Hb | intros; exact IH].
Qed.

(** One step of the search for a proof of [adds_only]. *)
Ltac adds_step :=
  match goal with
  | |- adds_only (bind _ _) => apply adds_bind; [|intros]
  | |- adds_only (add_test_case _ _ _ _ _) => apply adds_add
  | |- adds_only (ret _) => apply adds_ret
  | |- adds_only (eval _) => apply adds_eval
  | |- adds_only (when _ _) => apply adds_when
  | |- adds_only (try_pass _) => apply adds_try_pass
  | |- adds_only (for_each _ _) => apply adds_for_each; intros
  | |- adds_only (let '(_, _) := ?p in _) => destruct p
  | |- adds_only (match ?x with _ => _ end) => destruct x
  end.

Ltac adds := repeat adds_step.

Lemma adds_links links checks :
  adds_only (generate_link_test_cases links checks).
Proof. unfold generate_link_test_cases. adds. Qed.

Lemma adds_forms forms : adds_only (generate_form_test_cases forms).
Proof. unfold generate_form_test_cases. adds. Qed.

Lemma adds_structure structure :
  adds_only (generate_structure_test_cases structure).
Proof.
  unfold generate_structure_test_cases, _generate_resource_test_cases,
    _generate_table_test_cases, _generate_interactive_element_test_cases,
    _generate_seo_test_cases, _generate_security_test_cases,
    _generate_social_media_test_cases.
  adds.
Qed.

Lemma adds_accessibility structure :
  adds_only (generate_accessibility_test_cases structure).
Proof. unfold generate_accessibility_test_cases. adds. Qed.

Lemma adds_language la : adds_only (generate_language_test_cases la).
Proof. unfold generate_language_test_cases. adds. Qed.

Lemma adds_perform c : adds_only (perform c).
Proof.
  destruct c; simpl;
    auto using adds_add, adds_links, adds_forms, adds_structure,
      adds_accessibility, adds_language.
Qed.

Lemma adds_generate_all pd : adds_only (generate_all pd).
Proof.
  unfold generate_all.
  repeat first
    [ apply adds_links | apply adds_forms | apply adds_structure
    | apply adds_accessibility | apply adds_language | adds_step ].
Qed.

Lemma adds_synthesize links checks forms structure la :
  adds_only (App.synthesize links checks forms structure la).
Proof.
  unfold App.synthesize.
  repeat first
    [ apply adds_links | apply adds_forms | apply adds_structure
    | apply adds_accessibility | apply adds_language | adds_step ].
Qed.

(** ** The ids *)

Lemma tc_number_format n : tc_number (format_tc_id n) = Some n.
Proof. unfold format_tc_id. simpl. apply read_zero_padded. Qed.

Lemma format_tc_id_injective n m : format_tc_id n = format_tc_id m -> n = m.
Proof.
  intros E. apply (f_equal tc_number) in E.
  rewrite !tc_number_format in E. congruence.
Qed.

Lemma sequential_init : sequential init.
Proof. repeat split. Qed.

Lemma sequential_add_row g r : sequential g -> sequential (add_row g r).
Proof.
  destruct r as [[[[d s] e] a] st]. intros (Hid & Hnum & Hc).
  unfold sequential, add_row. simpl.
  rewrite length_app, Nat.add_1_r. simpl length.
  rewrite seq_S, !map_app, Hnum, Hid, Hc.
  cbn [map TC_ID]. rewrite tc_number_format.
  repeat split. lia.
Qed.

Lemma sequential_add_rows rows g : sequential g -> sequential (add_rows rows g).
Proof.
  revert g. induction rows as [|r rows IH]; intros g Hg; simpl.
  - exact Hg.
  - apply IH, sequential_add_row, Hg.
Qed.

(** Whatever an [adds_only] computation does to a generator is a sequence
    of [add_test_case] calls. *)
Lemma adds_only_state {A} (m : Gen A) :
  adds_only m -> exists rows, forall g, snd (m g) = add_rows rows g.
Proof.
  intros (rows & r & Hm). exists rows. intros g. rewrite Hm. reflexivity.
Qed.

Lemma after_add_rows calls :
  exists rows, forall g, after calls g = add_rows rows g.
Proof.
  induction calls as [|c calls (rows & IH)].
  - exists []. reflexivity.
  - destruct (adds_only_state (adds_perform c)) as (rows0 & Hc).
    exists (rows0 ++ rows)%list. intros g.
    unfold after in *. simpl. rewrite IH, Hc, add_rows_app. reflexivity.
Qed.

(** The new test cases of an [adds_only] computation depend on the
    generator it runs on through the counter only. *)
Lemma test_cases_add_rows rows g :
  test_cases (add_rows rows g)
  = (test_cases g ++ test_cases (add_rows rows (mkGenerator [] (tc_counter g))))%list
  /\ tc_counter (add_rows rows g)
     = tc_counter (add_rows rows (mkGenerator [] (tc_counter g))).
Proof.
  revert g. induction rows as [|r rows IH]; intros g; simpl.
  - rewrite app_nil_r. split; reflexivity.
  - destruct (IH (add_row g r)) as (E1 & E2).
    destruct (IH (add_row (mkGenerator [] (tc_counter g)) r)) as (E3 & E4).
    destruct r as [[[[d s] e] a] st]. unfold add_row in *. simpl in *.
    rewrite E1, E3, E2, E4. rewrite <- !app_assoc. split; reflexivity.
Qed.

(** C1.  In every run of the synthesizer (any sequence of calls of the
    generator's public methods on a fresh [TestCaseGenerator], raising or
    not; the compatibility wrapper [generate_test_cases]; the five calls
    of the [/analyze] route) the TC_ID fields are [TC_] followed by the
    numbers 1, 2, 3, ... in this order and without a gap, each written in
    decimal and padded with zeros to three digits, the counter is one
    ahead of the last id, and the state of the generator is the result of
    a sequence of [add_test_case] calls on the fresh generator: nothing
    else touches the counter or the list. *)
Theorem tc_ids_sequential_from_fresh :
  forall (calls : list Call) (pd : ParsedData) links checks forms structure la,
    let owned g := sequential g /\ exists rows, g = add_rows rows init in
    owned (after calls init)
    /\ owned (snd (generate_all pd init))
    /\ owned (snd (App.synthesize links checks forms structure la init))
    /\ (forall n, format_tc_id n = "TC_" ++ zero_padded 3 n
                  /\ tc_number (format_tc_id n) = Some n
                  /\ String.length (zero_padded 3 n)
                     = Nat.max 3 (String.length (str_nat n)))
    /\ map format_tc_id [1; 2; 10; 123] = ["TC_001"; "TC_002"; "TC_010"; "TC_123"].
Proof.
  intros calls pd links checks forms structure la owned.
  assert (Hown : forall g, (exists rows, g = add_rows rows init) -> owned g).
  { intros g (rows & ->). split; [|eauto].
    apply sequential_add_rows, sequential_init. }
  split; [|split; [|split; [|split]]].
  - apply Hown. destruct (after_add_rows calls) as (rows & H). eauto.
  - apply Hown.
    destruct (adds_only_state (adds_generate_all pd)) as (rows & H). eauto.
  - apply Hown.
    destruct (adds_only_state
                (adds_synthesize links checks forms structure la))
      as (rows & H). eauto.
  - intros n. split; [reflexivity|]. split.
    + apply tc_number_format.
    + apply length_zero_padded.
  - reflexivity.
Qed.

End GeneratorFacts.

(* ===================================================================== *)
(** * The structure test cases: the viewport verdict *)
(* ===================================================================== *)

Module StructureFacts.

Import TestGenerator Runs GeneratorFacts.

(** ** Computations that never raise *)

Lemma emits_ret : emits (ret tt) [].
Proof. intros g. reflexivity. Qed.

Lemma emits_add d s e a st : emits (add_test_case d s e a st) [(d, s, e, a, st)].
Proof. intros g. reflexivity. Qed.

Lemma emits_bind (m1 : Gen unit) (m2 : Gen unit) rows1 rows2 :
  emits m1 rows1 -> emits m2 rows2 ->
  emits (bind m1 (fun _ => m2)) (rows1 ++ rows2).
Proof.
  intros H1 H2 g. unfold bind. rewrite H1, H2, add_rows_app. reflexivity.
Qed.

Lemma emits_for_each {A} (xs : list A) body (rows_of : A -> list Row) :
  (forall x, emits (body x) (rows_of x)) ->
  emits (for_each xs body) (flat_map rows_of xs).
Proof.
  intros Hb. induction xs as [|x xs IH]; simpl.
  - apply emits_ret.
  - apply emits_bind; [apply Hb | exact IH].
Qed.

Section Only.
Variable P : Row -> Prop.

Lemma only_ret : emits_only P (ret tt).
Proof. exists []. split; [constructor | apply emits_ret]. Qed.

Lemma only_add d s e a st :
  P (d, s, e, a, st) -> emits_only P (add_test_case d s e a st).
Proof.
  intros H. exists [(d, s, e, a, st)].
  split; [repeat constructor; exact H | apply emits_add].
Qed.

Lemma only_bind (m1 m2 : Gen unit) :
  emits_only P m1 -> emits_only P m2 -> emits_only P (bind m1 (fun _ => m2)).
Proof.
  intros (r1 & F1 & E1) (r2 & F2 & E2). exists (r1 ++ r2)%list.
  split; [apply Forall_app; split; assumption | apply emits_bind; assumption].
Qed.

Lemma only_for_each {A} (xs : list A) body :
  (forall x, emits_only P (body x)) -> emits_only P (for_each xs body).
Proof.
  intros Hb. induction xs as [|x xs IH]; simpl.
  - apply only_ret.
  - apply only_bind; [apply Hb | exact IH].
Qed.

End Only.

(** What a computation that never raises appended: its rows, in order. *)
Lemma rows_of_fresh rows c :
  map row_of (test_cases (add_rows rows (mkGenerator [] c))) = rows.
Proof.
  revert c. induction rows as [|r rows IH]; intros c; [reflexivity|].
  simpl. destruct (test_cases_add_rows rows (add_row (mkGenerator [] c) r))
    as (E & _).
  rewrite E. destruct r as [[[[d s] e] a] st]. simpl.
  rewrite IH. reflexivity.
Qed.

Lemma appended_add_rows {A} (m : Gen A) rows r g :
  m g = (r, add_rows rows g) -> map row_of (appended m g) = rows.
Proof.
  intros E. unfold appended. rewrite E. simpl.
  destruct (test_cases_add_rows rows g) as (E' & _). rewrite E'.
  rewrite skipn_app, skipn_all, Nat.sub_diag. simpl.
  apply rows_of_fresh.
Qed.

Lemma appended_emits m rows g :
  emits m rows -> fst (m g) = Ok tt /\ map row_of (appended m g) = rows.
Proof.
  intros E. split.
  - rewrite E. reflexivity.
  - eapply appended_add_rows. apply E.
Qed.

Lemma in_appended m rows g tc :
  emits m rows -> In tc (appended m g) -> In (row_of tc) rows.
Proof.
  intros E Hin. destruct (appended_emits g E) as (_ & <-).
  apply in_map, Hin.
Qed.

Lemma appended_in m rows g r :
  emits m rows -> In r rows -> exists tc, In tc (appended m g) /\ row_of tc = r.
Proof.
  intros E Hin. destruct (appended_emits g E) as (_ & E').
  rewrite <- E' in Hin. apply in_map_iff in Hin.
  destruct Hin as (tc & Htc & Hin). eauto.
Qed.

(** ** The blocks of [generate_structure_test_cases] *)

Ltac other :=
  unfold other_row; cbn; let E := fresh in intros E; discriminate E.

Ltac only_step :=
  match goal with
  | |- emits_only _ (bind _ _) => apply only_bind
  | |- emits_only _ (add_test_case _ _ _ _ _) => apply only_add; other
  | |- emits_only _ (ret tt) => apply only_ret
  | |- emits_only _ (for_each _ _) => apply only_for_each; intros
  | |- emits_only _ (let '(_, _) := ?p in _) => destruct p
  | |- emits_only _ (match ?x with _ => _ end) => destruct x
  end.

Lemma title_block st :
  emits_only other_row
    (match title st with
     | Some title =>
         add_test_case "Verify page title" "Check if page has a title"
           "Page should have a title"
           ("Page title is '" ++ str_opt title ++ "'")
           (if truthy_opt title then "Pass" else "Fail")
     | None => ret tt
     end).
Proof. repeat only_step. Qed.

Lemma meta_block (m : dict (option string)) :
  emits_only other_row
    (for_each m (fun '(meta_type, content) =>
       add_test_case
         ("Verify meta " ++ meta_type)
         ("Check if page has meta " ++ meta_type)
         ("Page should have meta " ++ meta_type)
         ("Meta " ++ meta_type ++ " is "
          ++ (if truthy_opt content then "present" else "missing"))
         (if truthy_opt content then "Pass" else "Fail"))).
Proof. repeat only_step. Qed.

Lemma or_empty_verdict v :
  (if contains "width=device-width" (or_empty v) then "Pass" else "Fail")
  = viewport_verdict v.
Proof. destruct v as [[|c s]|]; reflexivity. Qed.

Lemma viewport_block (m : dict (option string)) :
  exists view,
    emits
      (match lookup "viewport" m with
       | Some viewport =>
           add_test_case
             "Verify responsive design meta tag"
             "Check if page has viewport meta tag"
             "Page should have viewport meta tag for responsiveness"
             ("Viewport meta tag is present: " ++ str_opt viewport)
             (if contains "width=device-width" (or_empty viewport)
              then "Pass" else "Fail")
       | None => ret tt
       end) view
    /\ (forall r, In r view ->
          exists v, lookup "viewport" m = Some v
                    /\ row_status r = viewport_verdict v)
    /\ (forall v, lookup "viewport" m = Some v ->
          exists r, In r view
                    /\ row_description r = "Verify responsive design meta tag").
Proof.
  destruct (lookup "viewport" m) as [v|].
  - eexists. split; [apply emits_add|]. split.
    + intros r [<-|[]]. exists v. split; [reflexivity|].
      apply or_empty_verdict.
    + intros v' _. eexists. split; [left; reflexivity | reflexivity].
  - exists []. split; [apply emits_ret|]. split.
    + intros r [].
    + intros v' E. discriminate E.
Qed.

Lemma resource_block st :
  exists res,
    emits (_generate_resource_test_cases st) res
    /\ Forall other_row res
    /\ (forall sc, scripts st = Some sc ->
          exists r, In r res /\ row_description r = "Verify script loading")
    /\ (forall sc, stylesheets st = Some sc ->
          exists r, In r res
                    /\ row_description r = "Verify stylesheet loading").
Proof.
  unfold _generate_resource_test_cases.
  destruct (scripts st) as [sc|], (stylesheets st) as [ss|];
    (eexists; split;
     [ apply emits_bind; first [apply emits_add | apply emits_ret]
     | split; [repeat constructor; other | split; intros x E] ]);
    try discriminate E; cbn; eauto.
Qed.

Lemma rest_block st :
  emits_only other_row
    (match tables st with
     | Some tables => _generate_table_test_cases tables
     | None => ret tt
     end ;;
     match interactive_elements st with
     | Some elements => _generate_interactive_element_test_cases elements
     | None => ret tt
     end ;;
     match seo_elements st with
     | Some seo => _generate_seo_test_cases seo
     | None => ret tt
     end ;;
     match security_headers st with
     | Some security => _generate_security_test_cases security
     | None => ret tt
     end ;;
     match social_meta st with
     | Some social => _generate_social_media_test_cases social
     | None => ret tt
     end).
Proof.
  unfold _generate_table_test_cases, _generate_interactive_element_test_cases,
    _generate_seo_test_cases, _generate_security_test_cases,
    _generate_social_media_test_cases.
  repeat only_step.
Qed.

(** ** The method as a whole *)

Lemma structure_cases st g :
  let m := get_default (meta st) [] in
  let new := appended (generate_structure_test_cases st) g in
  fst (generate_structure_test_cases st g) = Ok tt
  /\ (forall tc, In tc new -> responsive tc ->
        exists v, lookup "viewport" m = Some v
                  /\ Status tc = viewport_verdict v)
  /\ (forall v, lookup "viewport" m = Some v ->
        exists tc, In tc new /\ responsive tc)
  /\ (forall sc, scripts st = Some sc ->
        exists tc, In tc new /\ Description tc = "Verify script loading")
  /\ (forall sc, stylesheets st = Some sc ->
        exists tc, In tc new /\ Description tc = "Verify stylesheet loading").
Proof.
  intros m new.
  destruct (title_block st) as (r1 & F1 & E1).
  destruct (meta_block m) as (r2 & F2 & E2).
  destruct (viewport_block m) as (view & E3 & V1 & V2).
  destruct (resource_block st) as (res & E4 & F4 & S1 & S2).
  destruct (rest_block st) as (r5 & F5 & E5).
  assert (E : emits (generate_structure_test_cases st)
                (r1 ++ r2 ++ view ++ res ++ r5)).
  { unfold generate_structure_test_cases.
    apply emits_bind; [exact E1|]. cbv zeta.
    apply emits_bind; [exact E2|].
    apply emits_bind; [exact E3|].
    apply emits_bind; [exact E4|]. exact E5. }
  assert (Hother : forall rows tc,
            Forall other_row rows -> In (row_of tc) rows -> ~ responsive tc).
  { intros rows tc F Hin R. rewrite Forall_forall in F.
    apply (F _ Hin). exact R. }
  split; [apply (appended_emits g E)|].
  split; [|split; [|split]].
  - intros tc Hin R. eapply in_appended in Hin; [|exact E].
    repeat (apply in_app_or in Hin; destruct Hin as [Hin|Hin]);
      try (exfalso; refine (Hother _ tc _ Hin R); assumption).
    destruct (V1 _ Hin) as (v & Hv & Hs). eauto.
  - intros v Hv. destruct (V2 v Hv) as (r & Hr & Hd).
    destruct (appended_in g r E) as (tc & Htc & <-).
    { do 2 (apply in_or_app; right). apply in_or_app. left. exact Hr. }
    exists tc. split; [exact Htc | exact Hd].
  - intros sc Hsc. destruct (S1 sc Hsc) as (r & Hr & Hd).
    destruct (appended_in g r E) as (tc & Htc & <-).
    { do 3 (apply in_or_app; right). apply in_or_app. left. exact Hr. }
    exists tc. split; [exact Htc | exact Hd].
  - intros sc Hsc. destruct (S2 sc Hsc) as (r & Hr & Hd).
    destruct (appended_in g r E) as (tc & Htc & <-).
    { do 3 (apply in_or_app; right). apply in_or_app. left. exact Hr. }
    exists tc. split; [exact Htc | exact Hd].
Qed.

Lemma viewport_verdict_pass v :
  viewport_verdict v = "Pass"
  <-> exists content,
        v = Some content /\ contains "width=device-width" content = true.
Proof.
  unfold viewport_verdict. destruct v as [content|].
  - destruct (contains "width=device-width" content) eqn:E; split.
    + intros _. eauto.
    + reflexivity.
    + intros H. discriminate H.
    + intros (c & Hc & Hin). injection Hc as <-. congruence.
  - cbn. split; [intros H; discriminate H | intros (c & Hc & _); discriminate Hc].
Qed.

Lemma viewport_verdict_cases v :
  viewport_verdict v = "Pass" \/ viewport_verdict v = "Fail".
Proof.
  unfold viewport_verdict.
  destruct (contains _ _); [left | right]; reflexivity.
Qed.

(** What [extract_page_structure] always puts into the structure. *)
Lemma parsed_structure_keys netloc self st :
  Parser.extract_page_structure netloc self = Ok st ->
  lookup "viewport" (get_default (meta st) [])
  = Some (Parser.meta_content self "viewport")
  /\ (exists sc, scripts st = Some sc)
  /\ (exists ss, stylesheets st = Some ss).
Proof.
  unfold Parser.extract_page_structure.
  destruct (Parser._extract_security_elements netloc self) as [sec|e];
    simpl; intros E; [|discriminate E].
  injection E as <-. simpl. eauto.
Qed.

(** C2, as the code has it.  [extract_page_structure] always puts the key
    ['viewport'] into the meta mapping, with the value [None] when the
    page has no viewport meta element.  So for every parsed page the
    generator appends a responsiveness test case; its status is Pass if
    and only if a viewport meta element exists and its content contains
    [width=device-width], and Fail otherwise, also when the page has no
    viewport meta element at all; a [None] value counts as the empty
    string and nothing is raised.  The scripts and stylesheets test cases
    are appended as well.  The generator by itself leaves the
    responsiveness test case out exactly when the meta mapping lacks the
    key, and still appends the scripts and stylesheets test cases
    then. *)
Theorem viewport_case_of_parsed_page :
  forall netloc (self : Parser.WebParser) (st : PageStructure)
         (g : TestCaseGenerator),
    Parser.extract_page_structure netloc self = Ok st ->
    let viewport := Parser.meta_content self "viewport" in
    let new := appended (generate_structure_test_cases st) g in
    lookup "viewport" (get_default (meta st) []) = Some viewport
    /\ fst (generate_structure_test_cases st g) = Ok tt
    /\ (exists tc, In tc new /\ responsive tc)
    /\ (forall tc, In tc new -> responsive tc ->
          (Status tc = "Pass"
           <-> exists content,
                 viewport = Some content
                 /\ contains "width=device-width" content = true)
          /\ (Status tc = "Pass" \/ Status tc = "Fail")
          /\ (find (Parser.soup self)
                (fun n => named "meta" n && attr_is "name" "viewport" n)
              = None -> Status tc = "Fail"))
    /\ (exists tc, In tc new /\ Description tc = "Verify script loading")
    /\ (exists tc, In tc new /\ Description tc = "Verify stylesheet loading")
    /\ (forall (st' : PageStructure) (g' : TestCaseGenerator),
          let new' := appended (generate_structure_test_cases st') g' in
          fst (generate_structure_test_cases st' g') = Ok tt
          /\ ((exists tc, In tc new' /\ responsive tc)
              <-> exists v,
                    lookup "viewport" (get_default (meta st') []) = Some v)
          /\ (forall sc, scripts st' = Some sc ->
                exists tc,
                  In tc new' /\ Description tc = "Verify script loading")
          /\ (forall ss, stylesheets st' = Some ss ->
                exists tc,
                  In tc new' /\ Description tc = "Verify stylesheet loading")).
Proof.
  intros netloc self st g Hst viewport new.
  destruct (parsed_structure_keys _ _ Hst) as (Hkey & (sc & Hsc) & (ss & Hss)).
  destruct (structure_cases st g) as (Hok & Hall & Hex & Hscr & Hsty).
  split; [exact Hkey|]. split; [exact Hok|].
  split; [apply (Hex _ Hkey)|].
  split; [|split; [apply (Hscr _ Hsc)|split; [apply (Hsty _ Hss)|]]].
  - intros tc Hin R. destruct (Hall tc Hin R) as (v & Hv & Hs).
    rewrite Hkey in Hv. injection Hv as <-. rewrite Hs.
    split; [apply viewport_verdict_pass|].
    split; [apply viewport_verdict_cases|].
    intros Hnone. subst viewport. unfold Parser.meta_content.
    rewrite Hnone. reflexivity.
  - intros st' g' new'.
    destruct (structure_cases st' g') as (Hok' & Hall' & Hex' & Hscr' & Hsty').
    split; [exact Hok'|]. split; [|split; assumption].
    split.
    + intros (tc & Hin & R). destruct (Hall' tc Hin R) as (v & Hv & _). eauto.
    + intros (v & Hv). eauto.
Qed.

(** C2 as stated fails: the page [<html lang="en"><body><h1>Hi</h1>
    </body></html>] has no viewport meta element, and the responsiveness
    test case is generated for it, with status Fail. *)
Lemma viewport_case_generated_without_meta :
  find Examples.hi_page
    (fun n => named "meta" n && attr_is "name" "viewport" n) = None
  /\ exists st tc,
       Parser.extract_page_structure Urllib.urlparse_netloc Examples.hi_parser
       = Ok st
       /\ In tc (test_cases (snd (generate_structure_test_cases st init)))
       /\ responsive tc
       /\ Status tc = "Fail".
Proof.
  split; [reflexivity|].
  eexists. eexists. split; [vm_compute; reflexivity|].
  split; [|split].
  - cbv. do 6 right. left. reflexivity.
  - reflexivity.
  - reflexivity.
Qed.

(** The theorem at a page that has the viewport meta element. *)
Lemma viewport_case_witness :
  exists st,
    Parser.extract_page_structure Urllib.urlparse_netloc
      Examples.viewport_parser = Ok st
    /\ exists tc,
         In tc (appended (generate_structure_test_cases st) init)
         /\ responsive tc.
Proof.
  eexists. split.
  - vm_compute. reflexivity.
  - exact (proj1 (proj2 (proj2
             (viewport_case_of_parsed_page Urllib.urlparse_netloc
                Examples.viewport_parser init eq_refl)))).
Defined.

End StructureFacts.

(* ===================================================================== *)
(** * The language analyzer: too little text *)
(* ===================================================================== *)

Module LanguageFacts.

Import LanguageAnalyzer Runs.

Lemma declared_only_spec declared :
  declared_only declared
  = if String.eqb declared "" then None
    else Some (mkDeclared declared None None).
Proof. destruct declared; reflexivity. Qed.

(** The short-circuit of [analyze_language], as an equation. *)
Lemma analyze_short_text BeautifulSoup classify detect html_content url :
  String.length (analysable_text (BeautifulSoup html_content)) < 10 ->
  analyze_language BeautifulSoup classify detect (Some html_content) url
  = Ok {| la_error :=
            Some "Insufficient text content for language analysis";
          declared_language :=
            Some (declared_only
                    (declared_attribute (BeautifulSoup html_content)));
          detected_language := Some None;
          other_languages := Some [];
          direction := Some "ltr";
          language_elements :=
            Some (_analyze_language_elements
                    (stripped_tree (BeautifulSoup html_content)));
          charset := Some (_detect_charset detect html_content);
          locale_info := None |}.
Proof.
  intros Hlen.
  unfold analyze_language, analysable_text, stripped_tree,
    declared_attribute in *.
  destruct (_extract_text_content (BeautifulSoup html_content))
    as [text soup'] eqn:Et.
  simpl in Hlen.
  assert (Hshort : (String.length (strip text) <? 10)%nat = true).
  { apply Nat.ltb_lt. pose proof (length_strip text). lia. }
  rewrite Hshort, orb_true_r. reflexivity.
Qed.

Lemma short_circuit_shape declared elements charset :
  is_short_circuit
    {| la_error := Some "Insufficient text content for language analysis";
       declared_language := Some (declared_only declared);
       detected_language := Some None;
       other_languages := Some [];
       direction := Some "ltr";
       language_elements := elements;
       charset := charset;
       locale_info := None |}
    declared.
Proof.
  unfold is_short_circuit. simpl. rewrite declared_only_spec. repeat split.
Qed.



End LanguageFacts.

(* ===================================================================== *)
(** * The synthesis step: partial language results, determinism *)
(* ===================================================================== *)

Module SynthesisFacts.

Import TestGenerator Runs GeneratorFacts.

(** Two continuations that agree give the same computation. *)
Lemma bind_ext {A B} (m : Gen A) (f f' : A -> Gen B) g :
  (forall a g', f a g' = f' a g') -> bind m f g = bind m f' g.
Proof.
  intros H. unfold bind. destruct (m g) as [[a|e] g']; [apply H | reflexivity].
Qed.

(** On the partial result for a page with too little text, the language
    method raises before it adds anything: [declared['name']] is a
    [KeyError], and [declared['code']] a [TypeError] when the page
    declares no language. *)
Lemma language_cases_raise la declared g :
  is_short_circuit la declared ->
  exists e, generate_language_test_cases la g = (Raise e, g).
Proof.
  intros (_ & Hd & Hdet & _).
  unfold generate_language_test_cases, bind, eval.
  rewrite Hd, Hdet. simpl.
  destruct declared as [|c s]; simpl; eauto.
Qed.

Lemma short_circuit_truthy la declared :
  is_short_circuit la declared -> analysis_truthy la = true.
Proof. intros (He & _). destruct la. simpl in He. subst. reflexivity. Qed.

(** C3, on the route: the code does not do what the claim says.  For
    every page whose analysable text has fewer than 10 characters, the
    language analysis is the partial result, and the [/analyze] route,
    which calls [generate_language_test_cases] without guarding it,
    answers with the JSON error of status 500 and no test case at all,
    whatever the links, forms and structure are.  The compatibility
    wrapper [generate_test_cases], which guards the call, returns on the
    same input what it returns without any language analysis. *)
Theorem analyze_route_fails_on_short_text :
  forall (BeautifulSoup : string -> node)
         (classify : string -> result (string * Q))
         (detect : string -> result (option string))
         (secure_filename : string -> string)
         (html_content url timestamp : string)
         (links : list Link) (link_checks : list LinkCheck)
         (forms : list Form) (structure : PageStructure),
    String.length (analysable_text (BeautifulSoup html_content)) < 10 ->
    exists la,
      LanguageAnalyzer.analyze_language BeautifulSoup classify detect
        (Some html_content) url = Ok la
      /\ (exists msg,
            App.report secure_filename timestamp url links link_checks forms
              structure la = App.JsonError 500 msg)
      /\ App.cases_of
           (App.report secure_filename timestamp url links link_checks forms
              structure la) = []
      /\ generate_test_cases
           (mkParsed (Some links) (Some forms) (Some structure)
              (Some (Some la)))
         = generate_test_cases
             (mkParsed (Some links) (Some forms) (Some structure) None).
Proof.
  intros BS classify detect sf html url ts links checks forms structure Hlen.
  pose proof (LanguageFacts.analyze_short_text BS classify detect html url
                Hlen) as Ela.
  eexists. split; [exact Ela|].
  match goal with
  | |- context [App.report _ _ _ _ _ _ _ ?r] => set (la := r)
  end.
  assert (Hsc : is_short_circuit la (declared_attribute (BS html)))
    by apply LanguageFacts.short_circuit_shape.
  clearbody la. clear Ela.
  assert (Hraise : exists e g,
            App.synthesize links checks forms structure la init
            = (Raise e, g)).
  { unfold App.synthesize, bind.
    destruct (generate_link_test_cases links checks init) as [[[]|e1] g1];
      [|eauto].
    destruct (generate_form_test_cases forms g1) as [[[]|e2] g2]; [|eauto].
    destruct (generate_structure_test_cases structure g2) as [[[]|e3] g3];
      [|eauto].
    destruct (generate_accessibility_test_cases structure g3)
      as [[[]|e4] g4]; [|eauto].
    destruct (language_cases_raise g4 Hsc) as (e & ->). eauto. }
  destruct Hraise as (e & g & Hraise).
  unfold App.report. rewrite Hraise.
  split; [eauto|]. split; [reflexivity|].
  assert (Hall : generate_all
                   (mkParsed (Some links) (Some forms) (Some structure)
                      (Some (Some la))) init
                 = generate_all
                     (mkParsed (Some links) (Some forms) (Some structure)
                        None) init).
  { unfold generate_all. cbn [pd_links pd_forms pd_structure pd_language].
    cbv zeta.
    apply bind_ext; intros _ g1. apply bind_ext; intros _ g2.
    apply bind_ext; intros _ g3.
    rewrite (short_circuit_truthy Hsc). unfold when, try_pass, try_except.
    destruct (language_cases_raise g3 Hsc) as (e' & ->). reflexivity. }
  unfold generate_test_cases. rewrite Hall. reflexivity.
Qed.

(** The theorem at the page [<html lang='en'><body><h1>Hi</h1></body>
    </html>]. *)
Lemma analyze_route_witness :
  exists la msg,
    LanguageAnalyzer.analyze_language Examples.parse_hi
      Examples.classify_fails Examples.detect_ascii (Some Examples.hi_html)
      "http://x.com" = Ok la
    /\ App.report (fun name => name) "20260101_120000" "http://x.com" [] [] []
         Examples.hi_structure la = App.JsonError 500 msg.
Proof.
  destruct (analyze_route_fails_on_short_text Examples.parse_hi
              Examples.classify_fails Examples.detect_ascii
              (fun name => name) Examples.hi_html "http://x.com"
              "20260101_120000" [] [] [] Examples.hi_structure)
    as (la & E & (msg & R) & _).
  - vm_compute. lia.
  - exists la, msg. split; [exact E | exact R].
Defined.

(** What the route answers for that page, and what the wrapper returns
    for it: the test cases of the structure and of accessibility, the
    check for multiple H1 headings among them, with status Pass. *)
Example hi_page_answers :
  (forall la,
     LanguageAnalyzer.analyze_language Examples.parse_hi
       Examples.classify_fails Examples.detect_ascii (Some Examples.hi_html)
       "http://x.com" = Ok la ->
     App.report (fun name => name) "20260101_120000" "http://x.com" [] [] []
       Examples.hi_structure la
     = App.JsonError 500
         "An error occurred while analyzing the website: 'name'"
     /\ exists cases,
          generate_test_cases
            (mkParsed (Some []) (Some []) (Some Examples.hi_structure)
               (Some (Some la))) = Ok cases
          /\ length cases = 17
          /\ In (mkTestCase "TC_016" "Check for multiple H1 headings"
                   "Verify page has only one main H1 heading"
                   "Page should have only one H1 heading"
                   "Found 1 H1 heading(s)" "Pass") cases).
Proof.
  intros la E. vm_compute in E. injection E as <-.
  split; [vm_compute; reflexivity|].
  eexists. split; [vm_compute; reflexivity|].
  split; [reflexivity|]. cbv. do 15 right. left. reflexivity.
Qed.

(** ** Determinism *)

(** The outcome of an [adds_only] computation and the test cases it
    appends depend on the generator through the counter only. *)
Lemma appended_counter {A} (m : Gen A) g1 g2 :
  adds_only m -> tc_counter g1 = tc_counter g2 ->
  fst (m g1) = fst (m g2) /\ appended m g1 = appended m g2.
Proof.
  intros (rows & r & Hm) Hc. unfold appended. rewrite !Hm. simpl.
  split; [reflexivity|].
  destruct (test_cases_add_rows rows g1) as (E1 & _).
  destruct (test_cases_add_rows rows g2) as (E2 & _).
  rewrite E1, E2, !skipn_app, !skipn_all, !Nat.sub_diag, Hc. reflexivity.
Qed.

(** C9.  The synthesizer is deterministic.  The test cases the route
    renders do not depend on the time stamp, which goes into the file
    name only; and the outcome and the test cases appended, by the five
    calls of the route as by the body of the compatibility wrapper,
    depend on the generator they run on through its counter only: on two
    generators with the same counter, so on two fresh ones, the same
    inputs give the same sequence of test cases, field by field. *)
Theorem synthesizer_deterministic :
  forall (secure_filename : string -> string)
         (timestamp1 timestamp2 url : string)
         (links : list Link) (link_checks : list LinkCheck)
         (forms : list Form) (structure : PageStructure)
         (language_analysis : LanguageAnalysis) (parsed_data : ParsedData)
         (g1 g2 : TestCaseGenerator),
    tc_counter g1 = tc_counter g2 ->
    let run := App.synthesize links link_checks forms structure
                 language_analysis in
    App.cases_of
      (App.report secure_filename timestamp1 url links link_checks forms
         structure language_analysis)
    = App.cases_of
        (App.report secure_filename timestamp2 url links link_checks forms
           structure language_analysis)
    /\ fst (run g1) = fst (run g2)
    /\ appended run g1 = appended run g2
    /\ fst (generate_all parsed_data g1) = fst (generate_all parsed_data g2)
    /\ appended (generate_all parsed_data) g1
       = appended (generate_all parsed_data) g2.
Proof.
  intros sf ts1 ts2 url links checks forms structure la pd g1 g2 Hc run.
  split.
  - unfold App.report.
    destruct (App.synthesize links checks forms structure la init)
      as [[[]|e] g]; reflexivity.
  - destruct (appended_counter g1 g2
                (adds_synthesize links checks forms structure la) Hc)
      as (R1 & A1).
    destruct (appended_counter g1 g2 (adds_generate_all pd) Hc) as (R2 & A2).
    repeat split; assumption.
Qed.

(** The theorem at a fresh generator and a used one whose counter was
    reset, for the page [hi_page]. *)
Lemma synthesizer_deterministic_witness :
  appended (generate_all
              (mkParsed (Some []) (Some []) (Some Examples.hi_structure) None))
    init
  = appended (generate_all
                (mkParsed (Some []) (Some []) (Some Examples.hi_structure)
                   None))
      Examples.used_generator.
Proof.
  refine (proj2 (proj2 (proj2 (proj2
            (synthesizer_deterministic (fun name => name) "20260101_120000"
               "20260101_120001" "http://x.com" [] [] []
               Examples.hi_structure
               (mkAnalysis None None None None None None None None)
               (mkParsed (Some []) (Some []) (Some Examples.hi_structure)
                  None)
               init Examples.used_generator _))))).
  reflexivity.
Defined.

End SynthesisFacts.

(* ===================================================================== *)
(** * The parser: links and the alt-text ratio *)
(* ===================================================================== *)

Module ParserFacts.

Import Parser Runs.

(** ** [extract_links] *)

Section Links.

Variable urljoin : string -> string -> result string.
Variable netloc : string -> result string.



End Links.



Example smoke_page_links :
  extract_links Urllib.urljoin Urllib.urlparse_netloc Examples.smoke_parser
  = Ok [ mkLink "http://example.com/about" "About" "internal";
         mkLink "http://external.example.com/page" "External" "external";
         mkLink "javascript:void(0)" "JS" "external" ].
Proof. vm_compute. reflexivity. Qed.

(** ** The alt-text ratio *)

Lemma has_alt_text_truthy img :
  truthy_opt (get img "alt") = has_alt_text img.
Proof.
  unfold has_alt_text. destruct (get img "alt") as [[|c a]|]; reflexivity.
Qed.

Lemma length_filter_le {A} (p : A -> bool) l :
  length (filter p l) <= length l.
Proof.
  induction l as [|x l IH]; simpl; [lia|]. destruct (p x); simpl; lia.
Qed.

(** C5.  [img_alt_ratio] is the number of images that have a non-empty
    [alt] attribute divided by the number of images, it lies between 0
    and 1, and it is exactly 1 when the page has no image. *)
Theorem img_alt_ratio_fraction :
  forall (self : WebParser),
    let imgs := find_all (soup self) (named "img") in
    let with_alt := length (filter has_alt_text imgs) in
    let r := img_alt_ratio (_extract_seo_elements self) in
    match imgs with
    | [] => r = 1%Q
    | _ :: _ =>
        (r == inject_Z (Z.of_nat with_alt)
              / inject_Z (Z.of_nat (length imgs)))%Q
    end
    /\ (0 <= r)%Q /\ (r <= 1)%Q.
Proof.
  intros self imgs with_alt r.
  assert (Hr : r = if truthy_list imgs
                   then ratio with_alt (length imgs) else 1%Q).
  { subst r with_alt. unfold _extract_seo_elements. simpl. fold imgs.
    rewrite (filter_ext _ _ has_alt_text_truthy). reflexivity. }
  pose proof (length_filter_le has_alt_text imgs) as Hle. fold with_alt in Hle.
  clearbody r with_alt. subst r.
  destruct imgs as [|img imgs]; simpl truthy_list; cbv iota.
  - split; [reflexivity|]. split; discriminate.
  - set (n := length (img :: imgs)) in *.
    assert (Hn : 0 < n) by (subst n; simpl; lia).
    clearbody n. unfold ratio.
    assert (Hp : Zpos (Pos.of_nat n) = Z.of_nat n).
    { destruct n; [lia|]. rewrite <- Pos.of_nat_succ. lia. }
    split; [|split].
    + rewrite Qmake_Qdiv, Hp. reflexivity.
    + unfold Qle. simpl. lia.
    + unfold Qle. simpl. rewrite Hp. lia.
Qed.

Example img_alt_ratio_examples :
  img_alt_ratio (_extract_seo_elements Examples.hi_parser) = 1%Q
  /\ (img_alt_ratio
        (_extract_seo_elements
           (mkParser
              (document
                 [ Tag "img" [("src", "a.png"); ("alt", "A")] [];
                   Tag "img" [("src", "b.png"); ("alt", "")] [];
                   Tag "img" [("src", "c.png")] [];
                   Tag "img" [("alt", "D")] [] ])
              "http://x.com"))
      == 1 # 2)%Q.
Proof. split; reflexivity. Qed.

End ParserFacts.

(* ===================================================================== *)
(** * The crawler: the failure policy, the link probe, the wrapper *)
(* ===================================================================== *)

Module CrawlerFacts.

Import Crawler Runs.

Section Network.

Variable network : Log -> Request -> result Response.

(** One attempt sends one request and makes [outcome] of the answer. *)
Lemma attempt_spec url timeout verify log :
  attempt network url timeout verify log
  = (outcome (network log (mkRequest "GET" url (fst timeout) (snd timeout)
                             verify true)),
     (log ++ [mkRequest "GET" url (fst timeout) (snd timeout) verify true])%list).
Proof.
  unfold attempt, session_get, send, bind, eval, ret, outcome.
  destruct (network log _) as [response|e]; simpl; [|reflexivity].
  destruct (raise_for_status response) as [[]|e]; reflexivity.
Qed.


(** C7, evaluated on the code.  When the first attempt fails with the
    exception [e]:
    - if [e] is a [Timeout], one more request is sent, with the same
      connect timeout and twice the read timeout, and its outcome, body or
      exception, is the outcome of the fetch;
    - otherwise, if [e] is a [ConnectionError], no other request is sent
      and [e] is raised;
    - an [SSLError] is a [ConnectionError]: it is raised at once as well,
      and the request without certificate verification that the [except
      SSLError] clause holds is never sent. *)
Theorem fetch_failure_policy :
  forall (self : WebCrawler) (url : string) (log : Log) (e : exn),
    outcome (network log (get_request self url true)) = Raise e ->
    let sent := (log ++ [get_request self url true])%list in
    (is_Timeout e = true ->
       fetch_website_content network self url log
       = (outcome (network sent (extended_request self url)),
          (sent ++ [extended_request self url])%list))
    /\ (is_Timeout e = false -> is_ConnectionError e = true ->
          fetch_website_content network self url log = (Raise e, sent))
    /\ (is_SSLError e = true ->
          fetch_website_content network self url log = (Raise e, sent)
          /\ ~ In (get_request self url false)
                 (skipn (length log)
                    (snd (fetch_website_content network self url log)))).
Proof.
  intros self url log e He sent.
  assert (Hfirst : attempt network url (timeouts self) true log
                   = (Raise e, sent)).
  { rewrite attempt_spec. fold (get_request self url true). rewrite He.
    reflexivity. }
  assert (Hconn : is_Timeout e = false -> is_ConnectionError e = true ->
                  fetch_website_content network self url log
                  = (Raise e, sent)).
  { intros Ht Hc. unfold fetch_website_content, try_except at 1.
    rewrite Hfirst, Ht, Hc. reflexivity. }
  split; [|split].
  - intros Ht. unfold fetch_website_content, try_except at 1.
    rewrite Hfirst, Ht. unfold try_except. rewrite attempt_spec. simpl fst.
    simpl snd. fold (extended_request self url).
    destruct (outcome (network sent (extended_request self url)));
      reflexivity.
  - exact Hconn.
  - intros Hs. destruct e as [| | | |cls msg|]; try discriminate Hs.
    destruct cls; try discriminate Hs.
    split; [apply Hconn; reflexivity|].
    rewrite (Hconn eq_refl eq_refl). simpl. subst sent.
    rewrite skipn_app, skipn_all, Nat.sub_diag. simpl.
    intros [H|[]]. discriminate H.
Qed.

End Network.

(** The theorem at a server whose certificate is not trusted and that
    would answer a request without verification: the fetch fails with
    the [SSLError] of its only request. *)
Lemma fetch_failure_policy_witness :
  fetch_website_content Examples.untrusted_server Examples.example_crawler
    "https://example.com" []
  = (Raise (RequestException SSLError "certificate verify failed"),
     [get_request Examples.example_crawler "https://example.com" true])
  /\ outcome (Examples.untrusted_server []
                (get_request Examples.example_crawler "https://example.com"
                   false))
     = Ok "<html><body>Hello</body></html>".
Proof.
  split.
  - apply (fetch_failure_policy Examples.untrusted_server
             Examples.example_crawler "https://example.com" []
             (e := RequestException SSLError "certificate verify failed")).
    + reflexivity.
    + reflexivity.
  - reflexivity.
Defined.

Section Probe.

Variable network : Log -> Request -> result Response.
Variable urljoin : string -> string -> result string.

(** C8, as the code has it.  When [urljoin] resolves the URL, the probe
    sends one HEAD request and does not raise on any response nor on any
    [RequestException]: a response gives a record with its status code,
    accessible if and only if the code is at least 200 and below 400; a
    [RequestException] gives a record that is not accessible, has no
    status code and carries the text of the exception as its error, a
    non-empty one when that text is non-empty.  An exception of another
    class is raised to the caller. *)
Theorem check_link_contains_request_failures :
  forall (self : WebCrawler) (url absolute_url : string) (log : Log),
    urljoin (base_url self) url = Ok absolute_url ->
    let probe := head_request absolute_url in
    let run := check_link_accessibility network urljoin self url log in
    snd run = (log ++ [probe])%list
    /\ match network log probe with
       | Ok response =>
           exists check,
             fst run = Ok check
             /\ check_url check = absolute_url
             /\ status_code check = Some (resp_status_code response)
             /\ (is_accessible check = true
                 <-> (200 <= resp_status_code response < 400)%Z)
             /\ error check = None
       | Raise e =>
           if is_RequestException e
           then exists check,
                  fst run = Ok check
                  /\ check_url check = absolute_url
                  /\ status_code check = None
                  /\ is_accessible check = false
                  /\ error check = Some (str_exn e)
                  /\ (str_exn e <> "" -> error check <> Some "")
           else fst run = Raise e
       end.
Proof.
  intros self url absolute_url log Hjoin probe run.
  assert (Hrun :
    run
    = match network log probe with
      | Ok response =>
          (Ok {| check_url := absolute_url;
                 status_code := Some (resp_status_code response);
                 is_accessible :=
                   ((200 <=? resp_status_code response)
                    && (resp_status_code response <? 400))%Z;
                 redirect_url :=
                   Some (if truthy_list (history response)
                         then Some (resp_url response) else None);
                 error := None |},
           (log ++ [probe])%list)
      | Raise e =>
          if is_RequestException e
          then (Ok {| check_url := absolute_url;
                      status_code := None;
                      is_accessible := false;
                      redirect_url := None;
                      error := Some (str_exn e) |},
                (log ++ [probe])%list)
          else (Raise e, (log ++ [probe])%list)
      end).
  { subst run probe.
    unfold check_link_accessibility, try_except, bind, eval, session_head,
      send, ret, head_request.
    rewrite Hjoin.
    destruct (network log _) as [response|e]; [reflexivity|].
    destruct (is_RequestException e) eqn:He; [reflexivity|].
    rewrite He. reflexivity. }
  rewrite Hrun. clear Hrun.
  destruct (network log probe) as [response|e].
  - split; [reflexivity|]. eexists. split; [reflexivity|]. simpl.
    split; [reflexivity|]. split; [reflexivity|]. split; [|reflexivity].
    rewrite andb_true_iff, Z.leb_le, Z.ltb_lt. reflexivity.
  - destruct (is_RequestException e) eqn:He.
    + split; [reflexivity|]. eexists. split; [reflexivity|]. simpl.
      repeat split. intros Hne Hsome. injection Hsome as Hempty. contradiction.
    + split; reflexivity.
Qed.

End Probe.

(** C8 as stated fails: [check_link_accessibility] raises on the URL
    [http://[::1].  [urljoin] raises a [ValueError] there, which the
    [except RequestException] clause does not catch; no request is
    sent. *)
Lemma check_link_raises_on_malformed_url :
  check_link_accessibility Examples.lang_server Urllib.urljoin
    Examples.example_crawler "http://[::1" []
  = (Raise (ValueError "Invalid IPv6 URL"), []).
Proof. vm_compute. reflexivity. Qed.

(** The theorem at a link that the server refuses over TLS. *)
Lemma check_link_witness :
  exists check,
    fst (check_link_accessibility Examples.untrusted_server Urllib.urljoin
           Examples.example_crawler "/about" []) = Ok check
    /\ is_accessible check = false
    /\ status_code check = None
    /\ error check = Some "certificate verify failed".
Proof.
  pose proof (check_link_contains_request_failures Examples.untrusted_server
                Urllib.urljoin Examples.example_crawler "/about"
                (absolute_url := "http://example.com/about") []) as H.
  destruct H as (_ & check & E & _ & Hs & Ha & He & _).
  - vm_compute. reflexivity.
  - exists check. repeat split; assumption.
Defined.

Section Wrapper.

Variable network : Log -> Request -> result Response.

(** C10.  The compatibility wrapper does not always return the body the
    server sent.  When the crawler fetched [text], the wrapper returns
    [text] itself if the literal [<html>] occurs in it, and [<html>]
    followed by [text], which is another string, if it does not.  The
    requests sent are those of the crawler. *)
Theorem compat_wrapper_prepends_marker :
  forall (url : string) (connect_timeout read_timeout : option Q)
         (log log' : Log) (text : string),
    fetch_website_content network
      (new_crawler url
         (get_default connect_timeout DEFAULT_CONNECT_TIMEOUT)
         (get_default read_timeout DEFAULT_READ_TIMEOUT)) url log
    = (Ok text, log') ->
    let returned :=
      fetch_website_content_compat network url connect_timeout read_timeout
        log in
    (contains "<html>" text = true -> returned = (Ok text, log'))
    /\ (contains "<html>" text = false ->
          returned = (Ok ("<html>" ++ text), log')
          /\ "<html>" ++ text <> text).
Proof.
  intros url ct rt log log' text Hfetch returned. subst returned.
  unfold fetch_website_content_compat, bind. rewrite Hfetch.
  split; intros Hc; rewrite Hc; simpl.
  - reflexivity.
  - split; [reflexivity|].
    apply (@append_neq "<html>" text). discriminate.
Qed.

End Wrapper.

(** The theorem at a server whose page starts with [<html lang='en'>]:
    the wrapper returns the page with [<html>] in front. *)
Lemma compat_wrapper_witness :
  fetch_website_content_compat Examples.lang_server "http://example.com"
    None None []
  = (Ok "<html><html lang='en'><body>Hello</body></html>",
     [get_request Examples.example_crawler "http://example.com" true])
  /\ "<html>" ++ "<html lang='en'><body>Hello</body></html>"
     <> "<html lang='en'><body>Hello</body></html>".
Proof.
  apply (compat_wrapper_prepends_marker Examples.lang_server
           "http://example.com" None None []).
  - vm_compute. reflexivity.
  - vm_compute. reflexivity.
Defined.

End CrawlerFacts.

(* ===================================================================== *)
(** * The generator: counts, verdicts and failures of the methods *)
(* ===================================================================== *)

Module GeneratorMore.

Import TestGenerator Runs Properties GeneratorFacts StructureFacts.

(** A loop whose turns never raise adds the rows of its turns, in
    order. *)
Lemma emits_loop {A} (xs : list A) (body : A -> Gen unit) :
  (forall x, emits (body x) (rows_from (body x))) ->
  emits (for_each xs body) (flat_map (fun x => rows_from (body x)) xs).
Proof. intros H. apply emits_for_each. exact H. Qed.

Lemma length_appended m rows g :
  emits m rows -> length (appended m g) = length rows.
Proof.
  intros E. destruct (appended_emits g E) as (_ & <-).
  rewrite length_map. reflexivity.
Qed.

Lemma length_flat_map_const {A B} (f : A -> list B) k xs :
  (forall x, length (f x) = k) -> length (flat_map f xs) = k * length xs.
Proof.
  intros H. induction xs as [|x xs IH]; simpl; [lia|].
  rewrite length_app, H, IH. lia.
Qed.

(** ** Links *)

(** The link method handles the pairs one by one. *)
Lemma link_cases_emits links checks :
  emits (generate_link_test_cases links checks)
    (flat_map link_rows (combine links checks)).
Proof.
  unfold generate_link_test_cases. apply emits_for_each.
  intros [link check] g. reflexivity.
Qed.

(** X1.  [generate_link_test_cases] never raises and appends two test
    cases for every pair of a link and a check; [zip] pairs them by
    position and drops what one list has more than the other, so a link
    without a check gets no test case at all. *)
Theorem link_cases_count :
  forall (links : list Link) (link_checks : list LinkCheck)
         (g : TestCaseGenerator),
    fst (generate_link_test_cases links link_checks g) = Ok tt
    /\ length (appended (generate_link_test_cases links link_checks) g)
       = 2 * Nat.min (length links) (length link_checks).
Proof.
  intros links checks g. pose proof (link_cases_emits links checks) as E.
  split; [apply (appended_emits g E)|].
  rewrite (length_appended g E).
  rewrite (@length_flat_map_const _ _ link_rows 2), length_combine;
    [reflexivity|].
  intros [link check]. reflexivity.
Qed.

(** X2.  For every link paired with a check, the report has the
    accessibility test case of that link: it names the link's text and
    URL, its status is Pass if and only if the check says accessible,
    and otherwise its actual result carries the error text of the check
    or, when the check has none, its status code. *)
Theorem link_accessibility_case :
  forall (links : list Link) (link_checks : list LinkCheck)
         (g : TestCaseGenerator) (link : Link) (check : LinkCheck),
    In (link, check) (combine links link_checks) ->
    exists tc,
      In tc (appended (generate_link_test_cases links link_checks) g)
      /\ Description tc = "Verify accessibility of link: " ++ link_text link
      /\ Test_Step tc = "Try to access URL: " ++ link_url link
      /\ (Status tc = "Pass" <-> is_accessible check = true)
      /\ (Status tc = "Fail" <-> is_accessible check = false)
      /\ (is_accessible check = false ->
            Actual_Result tc
            = "Link is not accessible: "
              ++ match error check with
                 | Some message => message
                 | None => "Status code: " ++ str_opt_int (status_code check)
                 end).
Proof.
  intros links checks g link check Hin.
  pose proof (link_cases_emits links checks) as E.
  set (actual := if is_accessible check
                 then "Link is accessible with status code "
                      ++ str_opt_int (status_code check)
                 else "Link is not accessible: "
                      ++ get_default (error check)
                           ("Status code: "
                            ++ str_opt_int (status_code check))).
  destruct (appended_in g
              ("Verify accessibility of link: " ++ link_text link,
               "Try to access URL: " ++ link_url link,
               "Link should be accessible with 2xx/3xx status code",
               actual,
               if is_accessible check then "Pass" else "Fail")
              E) as (tc & Htc & Hrow).
  { apply in_flat_map. exists (link, check). split; [exact Hin|].
    right. left. reflexivity. }
  exists tc. split; [exact Htc|].
  unfold row_of in Hrow. injection Hrow as Hd Hs _ Ha Hst.
  split; [exact Hd|]. split; [exact Hs|].
  rewrite Hst, Ha. subst actual.
  destruct (is_accessible check); simpl.
  - repeat split; try reflexivity; intros H; discriminate H.
  - repeat split; try reflexivity; intros H; discriminate H.
Qed.

(** ** Forms *)

Lemma truthy_filter_existsb {A} (p : A -> bool) l :
  truthy_list (filter p l) = existsb p l.
Proof.
  induction l as [|x l IH]; simpl; [reflexivity|].
  destruct (p x); simpl; [reflexivity | exact IH].
Qed.

Lemma in_enumerate_from {A} (xs : list A) start i x :
  nth_error xs i = Some x ->
  In (start + i, x) (combine (seq start (length xs)) xs).
Proof.
  revert start i. induction xs as [|y xs IH]; intros start [|i] H;
    simpl in *; try discriminate H.
  - injection H as <-. left. f_equal. lia.
  - right. replace (start + S i) with (S start + i) by lia. apply IH, H.
Qed.

(** The form method handles the forms one by one: two rows for a form,
    three when it has a required field, the last one being that of the
    submission endpoint. *)
Lemma form_cases_emits forms :
  exists rows_of : nat * Form -> list Row,
    emits (generate_form_test_cases forms)
      (flat_map rows_of (enumerate1 forms))
    /\ (forall i form,
          length (rows_of (i, form))
          = 2 + (if has_required form then 1 else 0))
    /\ (forall i form,
          In ("Verify form #" ++ str_nat i ++ " submission endpoint",
              "Check if form action URL '" ++ action form ++ "' is valid",
              "Form action URL should be valid",
              "Form action URL is "
              ++ (if truthy (action form) then "valid" else "missing"),
              if truthy (action form) then "Pass" else "Fail")
             (rows_of (i, form))).
Proof.
  unfold generate_form_test_cases.
  match goal with
  | |- context [for_each _ ?b] => set (body := b)
  end.
  exists (fun x => rows_from (body x)). split; [|split].
  - apply emits_for_each. intros [i form] g. subst body.
    unfold rows_from, when. cbv beta iota. rewrite !truthy_filter_existsb.
    destruct (existsb required (fields form)); reflexivity.
  - intros i form. subst body. unfold rows_from, when, has_required.
    cbv beta iota. rewrite truthy_filter_existsb.
    destruct (existsb required (fields form)); reflexivity.
  - intros i form. subst body. unfold rows_from, when. cbv beta iota.
    rewrite truthy_filter_existsb.
    destruct (existsb required (fields form)).
    + right. right. left. reflexivity.
    + right. left. reflexivity.
Qed.

Lemma length_enumerated {A B} (f : nat * A -> list B) (extra : A -> bool)
    xs start :
  (forall i x, length (f (i, x)) = 2 + (if extra x then 1 else 0)) ->
  length (flat_map f (combine (seq start (length xs)) xs))
  = 2 * length xs + length (filter extra xs).
Proof.
  intros H. revert start. induction xs as [|x xs IH]; intros start; simpl.
  - reflexivity.
  - rewrite length_app, H, IH. destruct (extra x); simpl; lia.
Qed.

(** X3.  [generate_form_test_cases] never raises; it appends two test
    cases for every form and a third one for every form that has a
    required field.  The forms are numbered from 1 in the order given,
    and the submission test case of a form has status Pass if and only
    if the form's action is not the empty string, Fail otherwise. *)
Theorem form_cases_count :
  forall (forms : list Form) (g : TestCaseGenerator),
    let new := appended (generate_form_test_cases forms) g in
    fst (generate_form_test_cases forms g) = Ok tt
    /\ length new = 2 * length forms + length (filter has_required forms)
    /\ (forall i form,
          nth_error forms i = Some form ->
          exists tc,
            In tc new
            /\ Description tc
               = "Verify form #" ++ str_nat (S i) ++ " submission endpoint"
            /\ (Status tc = "Pass" <-> action form <> "")
            /\ (Status tc = "Fail" <-> action form = "")).
Proof.
  intros forms g new. subst new.
  destruct (form_cases_emits forms) as (rows_of & E & Hlen & Hsub).
  split; [apply (appended_emits g E)|]. split.
  - rewrite (length_appended g E). unfold enumerate1.
    apply length_enumerated. exact Hlen.
  - intros i form Hnth.
    assert (Hin : In ("Verify form #" ++ str_nat (S i)
                      ++ " submission endpoint",
                      "Check if form action URL '" ++ action form
                      ++ "' is valid",
                      "Form action URL should be valid",
                      "Form action URL is "
                      ++ (if truthy (action form) then "valid" else "missing"),
                      if truthy (action form) then "Pass" else "Fail")
                     (flat_map rows_of (enumerate1 forms))).
    { apply in_flat_map. exists (S i, form). split; [|apply Hsub].
      apply (in_enumerate_from forms 1 i Hnth). }
    destruct (appended_in g _ E Hin) as (tc & Htc & Hrow).
    exists tc. split; [exact Htc|].
    unfold row_of in Hrow. injection Hrow as Hd _ _ _ Hst.
    split; [exact Hd|]. rewrite Hst.
    destruct (action form); simpl; split; split;
      congruence || (intros; discriminate) || reflexivity.
Qed.

(** ** Accessibility: missing keys *)

(** X4.  [generate_accessibility_test_cases] reads ['images'] and
    ['headings'] without a guard.  Without ['images'] it raises
    [KeyError] and leaves the generator as it was.  With ['images'] but
    without ['headings'] it raises [KeyError] after it has appended the
    alt-text test case, which stays in the list.  With both keys it never
    raises and appends three test cases, and a fourth one when the
    structure has the key ['landmarks']. *)
Theorem accessibility_missing_keys :
  forall (structure : PageStructure) (g : TestCaseGenerator),
    let run := generate_accessibility_test_cases structure g in
    let new := appended (generate_accessibility_test_cases structure) g in
    match images structure, headings structure with
    | None, _ => run = (Raise (KeyError "images"), g)
    | Some _, None =>
        fst run = Raise (KeyError "headings")
        /\ map Description new = ["Verify image alt texts"]
        /\ tc_counter (snd run) = tc_counter g + 1
    | Some _, Some _ =>
        fst run = Ok tt
        /\ map Description new
           = (["Verify image alt texts"; "Verify heading hierarchy";
               "Check for multiple H1 headings"]
              ++ match landmarks structure with
                 | Some _ => ["Verify ARIA landmarks"]
                 | None => []
                 end)%list
    end.
Proof.
  intros structure g run new. subst run new.
  unfold appended, generate_accessibility_test_cases, bind, eval.
  destruct (images structure) as [imgs|]; [|reflexivity].
  destruct (headings structure) as [hs|]; simpl.
  - destruct (landmarks structure); simpl;
      (split; [reflexivity|]);
      rewrite <- !app_assoc, skipn_app, skipn_all, Nat.sub_diag; reflexivity.
  - split; [reflexivity|]. split; [|reflexivity].
    rewrite skipn_app, skipn_all, Nat.sub_diag. reflexivity.
Qed.

(** The outcome of the accessibility method, on any generator. *)
Lemma accessibility_outcome structure g :
  fst (generate_accessibility_test_cases structure g)
  = match missing_key structure with
    | Some e => Raise e
    | None => Ok tt
    end.
Proof.
  unfold missing_key, generate_accessibility_test_cases, bind, eval.
  destruct (images structure); [|reflexivity].
  destruct (headings structure); simpl; [|reflexivity].
  destruct (landmarks structure); reflexivity.
Qed.

(** ** The wrapper: when it fails *)

Lemma when_total c (m : Gen unit) rows g :
  emits m rows -> fst (when c m g) = Ok tt.
Proof. intros E. destruct c; simpl; [rewrite E|]; reflexivity. Qed.

Lemma try_pass_total (m : Gen unit) g : fst (try_pass m g) = Ok tt.
Proof.
  unfold try_pass, try_except. destruct (m g) as [[[]|e] g']; reflexivity.
Qed.

Lemma structure_emits structure :
  exists rows, emits (generate_structure_test_cases structure) rows.
Proof.
  destruct (title_block structure) as (r1 & _ & E1).
  destruct (meta_block (get_default (meta structure) [])) as (r2 & _ & E2).
  destruct (viewport_block (get_default (meta structure) []))
    as (r3 & E3 & _).
  destruct (resource_block structure) as (r4 & E4 & _).
  destruct (rest_block structure) as (r5 & _ & E5).
  exists (r1 ++ r2 ++ r3 ++ r4 ++ r5)%list.
  unfold generate_structure_test_cases.
  apply emits_bind; [exact E1|]. cbv zeta.
  apply emits_bind; [exact E2|].
  apply emits_bind; [exact E3|].
  apply emits_bind; [exact E4|]. exact E5.
Qed.

(** X5.  The compatibility wrapper [generate_test_cases] fails in one
    situation only: the structure dictionary is not empty and lacks the
    key ['images'] or the key ['headings'], which the accessibility
    method reads unguarded; the [KeyError] names the first missing key.
    In every other case it returns the list of test cases: links, forms,
    the structure and the language analysis never make it fail. *)
Theorem wrapper_fails_on_missing_keys_only :
  forall (parsed_data : ParsedData),
    let structure :=
      get_default (pd_structure parsed_data) empty_structure in
    generate_test_cases parsed_data
    = match (if structure_truthy structure
             then missing_key structure else None) with
      | Some e => Raise e
      | None => Ok (test_cases (snd (generate_all parsed_data init)))
      end.
Proof.
  intros pd structure.
  unfold generate_test_cases.
  assert (Hfst : fst (generate_all pd init)
                 = match (if structure_truthy structure
                          then missing_key structure else None) with
                   | Some e => Raise e
                   | None => Ok tt
                   end).
  { unfold generate_all. fold structure. cbv zeta. unfold bind at 1.
    pose proof (when_total
                  (truthy_list (get_default (pd_links pd) []))
                  init
                  (link_cases_emits (get_default (pd_links pd) [])
                     (map default_link_check (get_default (pd_links pd) []))))
      as H1.
    destruct (when _ _ init) as [r1 g1]. simpl in H1. subst r1.
    unfold bind at 1.
    destruct (form_cases_emits (get_default (pd_forms pd) []))
      as (rows_of & E2 & _).
    pose proof (when_total (truthy_list (get_default (pd_forms pd) [])) g1 E2)
      as H2.
    destruct (when _ _ g1) as [r2 g2]. simpl in H2. subst r2.
    unfold bind at 1.
    destruct (structure_truthy structure); simpl.
    - destruct (structure_emits structure) as (rows & E3).
      unfold bind at 1. rewrite E3.
      pose proof (accessibility_outcome structure (add_rows rows g2)) as H4.
      destruct (generate_accessibility_test_cases structure _) as [r4 g4].
      simpl in H4. subst r4.
      destruct (missing_key structure) as [e|]; [reflexivity|].
      destruct (pd_language pd) as [[la|]|]; try reflexivity.
      destruct (analysis_truthy la); simpl; [|reflexivity].
      apply try_pass_total.
    - unfold bind. simpl.
      destruct (pd_language pd) as [[la|]|]; try reflexivity.
      destruct (analysis_truthy la); simpl; [|reflexivity].
      apply try_pass_total. }
  destruct (generate_all pd init) as [r gen]. simpl in Hfst. subst r.
  destruct (if structure_truthy structure then missing_key structure
            else None); reflexivity.
Qed.

(** ** The verdicts *)

Section Where.
Variable P : Row -> Prop.

Lemma where_ret {A} (a : A) : adds_where P (ret a).
Proof. exists [], (Ok a). split; [constructor | reflexivity]. Qed.

Lemma where_eval {A} (r : result A) : adds_where P (eval r).
Proof. exists [], r. split; [constructor | reflexivity]. Qed.

Lemma where_add d s e a st :
  P (d, s, e, a, st) -> adds_where P (add_test_case d s e a st).
Proof.
  intros H. exists [(d, s, e, a, st)], (Ok tt).
  split; [repeat constructor; exact H | reflexivity].
Qed.

Lemma where_bind {A B} (m : Gen A) (f : A -> Gen B) :
  adds_where P m -> (forall a, adds_where P (f a)) -> adds_where P (bind m f).
Proof.
  intros (rows & r & F & Hm) Hf. destruct r as [a|e].
  - destruct (Hf a) as (rows' & r' & F' & Hfa).
    exists (rows ++ rows')%list, r'. split; [apply Forall_app; auto|].
    intros g. unfold bind. rewrite Hm, Hfa, add_rows_app. reflexivity.
  - exists rows, (Raise e). split; [exact F|].
    intros g. unfold bind. rewrite Hm. reflexivity.
Qed.

(** After an expression was evaluated, its value is known. *)
Lemma where_bind_eval {A B} (r : result A) (f : A -> Gen B) :
  (forall a, r = Ok a -> adds_where P (f a)) ->
  adds_where P (bind (eval r) f).
Proof.
  intros Hf. destruct r as [a|e].
  - destruct (Hf a eq_refl) as (rows & r' & F & Hfa).
    exists rows, r'. split; [exact F|]. intros g. apply Hfa.
  - exists [], (Raise e). split; [constructor | reflexivity].
Qed.

Lemma where_try_pass (m : Gen unit) : adds_where P m -> adds_where P (try_pass m).
Proof.
  intros (rows & r & F & Hm). exists rows, (Ok tt). split; [exact F|].
  intros g. unfold try_pass, try_except. rewrite Hm.
  destruct r as [[]|e]; reflexivity.
Qed.

Lemma where_when c (m : Gen unit) : adds_where P m -> adds_where P (when c m).
Proof. intros H. destruct c; [exact H | apply where_ret]. Qed.

Lemma where_for_each {A} (xs : list A) (body : A -> Gen unit) :
  (forall x, adds_where P (body x)) -> adds_where P (for_each xs body).
Proof.
  intros Hb. induction xs as [|x xs IH]; simpl.
  - apply where_ret.
  - apply where_bind; [apply Hb | intros; exact IH].
Qed.

(** The rows of such a computation are what it appends. *)
Lemma where_appended {A} (m : Gen A) g :
  adds_where P m -> Forall (fun tc => P (row_of tc)) (appended m g).
Proof.
  intros (rows & r & F & Hm).
  pose proof (@appended_add_rows _ m rows r g (Hm g)) as E.
  rewrite <- E in F. rewrite Forall_forall in *.
  intros tc Hin. apply F, in_map, Hin.
Qed.

End Where.

(** The status of a row is one of the four verdicts. *)
Ltac verdict :=
  unfold status_ok, rbind, subscript, lower_opt in *; cbn in *;
  repeat match goal with
         | H : Ok _ = Ok _ |- _ => injection H as H
         | H : match ?x with _ => _ end = Ok _ |- _ =>
             destruct x; try discriminate H
         end;
  subst;
  repeat match goal with
         | |- context [if ?c then _ else _] => destruct c
         end;
  auto.

Ltac where_step :=
  match goal with
  | |- adds_where _ (bind (eval _) _) =>
      apply where_bind_eval; let a := fresh "a" in
                             let H := fresh "H" in intros a H
  | |- adds_where _ (bind _ _) => apply where_bind; [|intros]
  | |- adds_where _ (add_test_case _ _ _ _ _) => apply where_add; verdict
  | |- adds_where _ (ret _) => apply where_ret
  | |- adds_where _ (eval _) => apply where_eval
  | |- adds_where _ (when _ _) => apply where_when
  | |- adds_where _ (try_pass _) => apply where_try_pass
  | |- adds_where _ (for_each _ _) => apply where_for_each; intros
  | |- adds_where _ (let '(_, _) := ?p in _) => destruct p
  | |- adds_where _ (match ?x with _ => _ end) => destruct x
  end.

Lemma verdicts_links links checks :
  adds_where (fun r => status_ok (row_status r))
    (generate_link_test_cases links checks).
Proof. unfold generate_link_test_cases. repeat where_step. Qed.

Lemma verdicts_forms forms :
  adds_where (fun r => status_ok (row_status r))
    (generate_form_test_cases forms).
Proof. unfold generate_form_test_cases. repeat where_step. Qed.

Lemma verdicts_structure structure :
  adds_where (fun r => status_ok (row_status r))
    (generate_structure_test_cases structure).
Proof.
  unfold generate_structure_test_cases, _generate_resource_test_cases,
    _generate_table_test_cases, _generate_interactive_element_test_cases,
    _generate_seo_test_cases, _generate_security_test_cases,
    _generate_social_media_test_cases.
  repeat where_step.
Qed.

Lemma verdicts_accessibility structure :
  adds_where (fun r => status_ok (row_status r))
    (generate_accessibility_test_cases structure).
Proof. unfold generate_accessibility_test_cases. repeat where_step. Qed.

Lemma verdicts_language la :
  adds_where (fun r => status_ok (row_status r))
    (generate_language_test_cases la).
Proof. unfold generate_language_test_cases. repeat where_step. Qed.

Lemma verdicts_synthesize links checks forms structure la :
  adds_where (fun r => status_ok (row_status r))
    (App.synthesize links checks forms structure la).
Proof.
  unfold App.synthesize.
  apply where_bind; [apply verdicts_links | intros _].
  apply where_bind; [apply verdicts_forms | intros _].
  apply where_bind; [apply verdicts_structure | intros _].
  apply where_bind; [apply verdicts_accessibility | intros _].
  apply verdicts_language.
Qed.

(** X6.  Whatever one of the five [generate_*] methods appends, to any
    generator and whether or not the method then raises, has one of the
    four statuses [Pass], [Fail], [Warning], [Info]. *)
Theorem generated_status_vocabulary (c : Call) (g : TestCaseGenerator) :
  is_generate c = true ->
  Forall (fun tc => status_ok (Status tc)) (appended (perform c) g).
Proof.
  intros Hc.
  apply (@where_appended (fun r => status_ok (row_status r)) _ (perform c) g).
  destruct c; simpl in Hc; try discriminate Hc; simpl.
  - apply verdicts_links.
  - apply verdicts_forms.
  - apply verdicts_structure.
  - apply verdicts_accessibility.
  - apply verdicts_language.
Qed.

Lemma generated_status_vocabulary_witness :
  Forall (fun tc => status_ok (Status tc))
    (appended (perform (CallForms [Model.mkForm "" "GET" []])) init).
Proof. apply generated_status_vocabulary. reflexivity. Defined.

Lemma count_partition (cases : list TestCase) :
  Forall (fun tc => status_ok (Status tc)) cases ->
  length cases =
    App.count_status "Pass" cases + App.count_status "Fail" cases
    + App.count_status "Warning" cases + App.count_status "Info" cases.
Proof.
  unfold App.count_status. induction 1 as [|tc cases Htc _ IH]; [reflexivity|].
  cbn [filter length]. rewrite IH.
  destruct Htc as [E|[E|[E|E]]]; rewrite E; cbn; lia.
Qed.

(** X7.  The summary of the results page: the cases it does not count as
    passed or failed are exactly the warnings and the informational ones;
    any other answer of the synthesis is the error 500. *)
Theorem summary_partition (secure_filename : string -> string)
    timestamp url links link_checks forms structure language_analysis :
  match App.report secure_filename timestamp url links link_checks forms
          structure language_analysis with
  | App.Rendered cases _ _ total passed failed =>
      total = passed + failed + App.count_status "Warning" cases
              + App.count_status "Info" cases
  | App.JsonError status _ => status = 500
  end.
Proof.
  unfold App.report.
  pose proof (@where_appended (fun r => status_ok (row_status r)) _
                (App.synthesize links link_checks forms structure
                   language_analysis) init
                (verdicts_synthesize _ _ _ _ _)) as F.
  unfold appended in F. cbn [test_cases init length skipn] in F.
  destruct (App.synthesize links link_checks forms structure
              language_analysis init) as [[[]|e] gen]; [|reflexivity].
  cbn [snd] in F. apply count_partition, F.
Qed.

(** ** The language method on a full analysis *)

Lemma runs_add d s e a st :
  runs (add_test_case d s e a st) (Ok tt) [(d, s, e, a, st)].
Proof. intros g. reflexivity. Qed.

Lemma runs_ret {A} (a : A) : runs (ret a : Gen A) (Ok a) [].
Proof. intros g. reflexivity. Qed.

Lemma runs_bind_eval {A B} (a : A) (f : A -> Gen B) r rows :
  runs (f a) r rows -> runs (bind (eval (Ok a)) f) r rows.
Proof. intros H g. apply H. Qed.

Lemma runs_bind_raise {A B} e (f : A -> Gen B) :
  runs (bind (eval (Raise e)) f) (Raise e) [].
Proof. intros g. reflexivity. Qed.

Lemma runs_bind {A B} (m : Gen A) (f : A -> Gen B) a rows1 r rows2 :
  runs m (Ok a) rows1 -> runs (f a) r rows2 ->
  runs (bind m f) r (rows1 ++ rows2).
Proof.
  intros H1 H2 g. unfold bind. rewrite H1, H2, add_rows_app. reflexivity.
Qed.

Lemma runs_when c (m : Gen unit) rows :
  runs m (Ok tt) rows -> runs (when c m) (Ok tt) (if c then rows else []).
Proof. intros H. destruct c; [exact H | apply runs_ret]. Qed.

Lemma runs_appended {A} (m : Gen A) r rows g :
  runs m r rows ->
  fst (m g) = r /\ map verdict_of (appended m g) = map verdict rows.
Proof.
  intros H. split; [rewrite H; reflexivity|].
  rewrite <- (@appended_add_rows _ m rows r g (H g)), map_map.
  apply map_ext. intros tc. reflexivity.
Qed.

Ltac runs_step :=
  cbn [rbind subscript getitem get_default lower_opt truthy declared_code
       declared_name];
  match goal with
  | |- runs (bind (eval (Ok _)) _) _ _ => apply runs_bind_eval
  | |- runs (bind (eval (Raise _)) _) _ _ => apply runs_bind_raise
  | |- runs (bind _ _) _ _ => eapply runs_bind
  | |- runs (add_test_case _ _ _ _ _) _ _ => apply runs_add
  | |- runs (when _ _) _ _ => apply runs_when
  | |- runs (ret _) _ _ => apply runs_ret
  end.

Section FullAnalysis.

Variables (err : option string) (code name native : string)
  (detected : DetectedLanguage) (others : list OtherLanguage) (dir : string)
  (elements : option LanguageElements) (cs : option (option string))
  (locale : option (dict string)).

Let la : LanguageAnalysis :=
  mkAnalysis err (Some (Some (mkDeclared code (Some name) (Some native))))
    (Some (Some detected)) (Some others) (Some dir) elements cs locale.

Let links_of : list TranslationLink :=
  get_default (translation_links (get_default elements no_elements)) [].

Let attrs_of : list LangAttribute :=
  get_default (lang_attributes (get_default elements no_elements)) [].

(** The cases up to the one on the text direction. *)
Let first_verdicts : list (string * string) :=
  [("Verify HTML language declaration",
    if truthy code then "Pass" else "Fail");
   ("Verify content language",
    if above_0_8 (detected_confidence detected) then "Pass" else "Warning")]
  ++ optional (truthy code && truthy (detected_code detected))
       ("Verify language consistency",
        if String.eqb (hd "" (split "-" code)) (detected_code detected)
        then "Pass" else "Fail")
  ++ optional (truthy_list others) ("Check multi-language content", "Info")
  ++ [("Verify text direction", "Pass")].

(** The cases after the one on the character encoding. *)
Let last_verdicts : list (string * string) :=
  [("Check language annotations",
    if (0 <? length attrs_of)%nat || negb (truthy_list others)
    then "Pass" else "Warning")]
  ++ optional (truthy_list links_of) ("Check translation support", "Pass")
  ++ optional (truthy_list (get_default locale []))
       ("Verify locale information", "Info").

Lemma language_verdicts :
  exists r rows,
    runs (generate_language_test_cases la) r rows /\
    match cs with
    | Some None =>
        r = Raise (AttributeError "'NoneType' object has no attribute 'lower'")
        /\ map verdict rows = first_verdicts
    | Some (Some s) =>
        r = Ok tt
        /\ map verdict rows
           = (first_verdicts
              ++ ("Verify character encoding",
                  if is_utf8 (lower s) then "Pass" else "Warning")
              :: last_verdicts)%list
    | None =>
        r = Ok tt
        /\ map verdict rows
           = (first_verdicts
              ++ ("Verify character encoding", "Pass") :: last_verdicts)%list
    end.
Proof.
  unfold first_verdicts, last_verdicts, links_of, attrs_of, optional, la,
    generate_language_test_cases.
  cbn [declared_language detected_language other_languages direction
       charset language_elements locale_info getitem subscript rbind
       declared_code declared_name get_default lower_opt].
  destruct code as [|c code'], cs as [[s|]|];
    cbn [truthy getitem rbind get_default lower_opt andb];
    (do 2 eexists; split; [repeat runs_step|]);
    destruct (truthy (detected_code detected)), (truthy_list others),
      (get_default (translation_links (get_default elements no_elements)) []),
      (truthy_list (get_default locale []));
    split; reflexivity.
Qed.

End FullAnalysis.

(** The first field of [s.split(sep)] is the part of [s] before the first
    separator. *)
Lemma contains_char sep c p :
  contains (String sep "") (String c p)
  = Ascii.eqb c sep || contains (String sep "") p.
Proof.
  cbn [contains String.prefix]. destruct (ascii_dec sep c) as [->|Hne].
  - rewrite Ascii.eqb_refl. destruct p; reflexivity.
  - destruct (Ascii.eqb_spec c sep) as [->|_]; [contradiction|reflexivity].
Qed.

Lemma hd_split sep s p :
  hd "" (split sep s) = p <->
  contains (String sep "") p = false
  /\ (s = p \/ exists rest, s = p ++ String sep rest).
Proof.
  split.
  - revert p. induction s as [|c s IH]; intros p; cbn [split].
    + intros <-. split; [reflexivity | left; reflexivity].
    + destruct (Ascii.eqb_spec c sep) as [->|Hne].
      * intros <-. split; [reflexivity | right; exists s; reflexivity].
      * destruct (IH _ eq_refl) as (Hc & Hs).
        assert (E : hd "" (match split sep s with
                           | [] => [String c ""]
                           | q :: rest => String c q :: rest
                           end) = String c (hd "" (split sep s)))
          by (destruct (split sep s); reflexivity).
        rewrite E. intros <-. split.
        -- rewrite contains_char, Hc.
           destruct (Ascii.eqb_spec c sep); [contradiction|reflexivity].
        -- destruct Hs as [Hs|(rest & Hs)].
           ++ left. f_equal. exact Hs.
           ++ right. exists rest. cbn. f_equal. exact Hs.
  - intros (Hc & Hs). revert s Hs. induction p as [|c p IH]; intros s Hs.
    + destruct Hs as [->|(rest & ->)]; cbn; [reflexivity|].
      rewrite Ascii.eqb_refl. reflexivity.
    + rewrite contains_char in Hc. apply orb_false_iff in Hc.
      destruct Hc as (Hne & Hc).
      assert (E : exists s', s = String c s' /\
                             (s' = p \/ exists rest, s' = p ++ String sep rest)).
      { destruct Hs as [->|(rest & ->)];
          [exists p; split; [reflexivity | left; reflexivity]|].
        exists (p ++ String sep rest). split; [reflexivity|].
        right. exists rest. reflexivity. }
      destruct E as (s' & -> & Hs'). cbn [split]. rewrite Hne.
      specialize (IH Hc s' Hs').
      destruct (split sep s'); cbn in *; rewrite <- IH; reflexivity.
Qed.

(** X8.  On an analysis with the keys and values of a full result the
    language method raises exactly when the charset is [None]: an
    [AttributeError], after the text-direction case was appended and
    before the one on the character encoding. *)
Theorem language_method_raises_iff_charset_none la g :
  is_full la ->
  let run := generate_language_test_cases la g in
  let new := map Description (appended (generate_language_test_cases la) g) in
  (fst run = Ok tt <-> charset la <> Some None)
  /\ (charset la = Some None ->
      fst run
      = Raise (AttributeError "'NoneType' object has no attribute 'lower'")
      /\ last new "" = "Verify text direction")
  /\ hd "" new = "Verify HTML language declaration".
Proof.
  intros (code & name & native & detected & others & dir & E1 & E2 & E3 & E4).
  destruct la as [err dl de ot di elements cs locale].
  cbn [declared_language detected_language other_languages direction charset]
    in *. subst dl de ot di.
  destruct (language_verdicts err code name native detected others dir
              elements cs locale) as (r & rows & Hruns & H).
  destruct (runs_appended g Hruns) as (Hr & Hrows).
  assert (Hnew : forall tcs : list TestCase,
            map Description tcs = map fst (map verdict_of tcs)).
  { intros tcs. rewrite map_map. reflexivity. }
  cbv zeta. rewrite Hnew, Hrows, Hr. clear Hnew Hrows Hr Hruns.
  destruct cs as [[s|]|]; destruct H as (-> & ->).
  - split; [split; [discriminate | reflexivity]|].
    split; [discriminate | reflexivity].
  - split; [split; [discriminate | intros H; contradiction]|].
    split; [|reflexivity].
    intros _. split; [reflexivity|]. unfold optional.
    destruct (truthy code && truthy (detected_code detected)),
      (truthy_list others); reflexivity.
  - split; [split; [discriminate | reflexivity]|].
    split; [discriminate | reflexivity].
Qed.

Lemma language_method_raises_witness :
  fst (generate_language_test_cases (english_analysis (Some None)) init)
  = Raise (AttributeError "'NoneType' object has no attribute 'lower'").
Proof.
  destruct (@language_method_raises_iff_charset_none
              (english_analysis (Some None)) init) as (_ & H & _).
  - unfold is_full, english_analysis. simpl. repeat eexists.
  - apply H. reflexivity.
Defined.

(** X9.  On a full analysis whose charset is a string the language method
    does not raise, and these are the descriptions and statuses of the
    cases it appends, in this order: the consistency case only when both
    codes are non-empty, the multi-language case only when other languages
    were found, the translation case only when there are switcher links,
    the locale case only with locale information. *)
Theorem language_cases_of_full_result err code name native detected others
    dir elements s locale g :
  let la :=
    mkAnalysis err (Some (Some (mkDeclared code (Some name) (Some native))))
      (Some (Some detected)) (Some others) (Some dir) elements
      (Some (Some s)) locale in
  let elements' := get_default elements no_elements in
  fst (generate_language_test_cases la g) = Ok tt
  /\ map verdict_of (appended (generate_language_test_cases la) g)
     = ([("Verify HTML language declaration",
          if truthy code then "Pass" else "Fail");
         ("Verify content language",
          if above_0_8 (detected_confidence detected)
          then "Pass" else "Warning")]
        ++ optional (truthy code && truthy (detected_code detected))
             ("Verify language consistency",
              if String.eqb (hd "" (split "-" code)) (detected_code detected)
              then "Pass" else "Fail")
        ++ optional (truthy_list others)
             ("Check multi-language content", "Info")
        ++ [("Verify text direction", "Pass");
            ("Verify character encoding",
             if is_utf8 (lower s) then "Pass" else "Warning");
            ("Check language annotations",
             if (0 <? length (get_default (lang_attributes elements') []))%nat
                || negb (truthy_list others)
             then "Pass" else "Warning")]
        ++ optional
             (truthy_list (get_default (translation_links elements') []))
             ("Check translation support", "Pass")
        ++ optional (truthy_list (get_default locale []))
             ("Verify locale information", "Info"))%list.
Proof.
  cbv zeta.
  destruct (language_verdicts err code name native detected others dir
              elements (Some (Some s)) locale)
    as (r & rows & Hruns & -> & Hrows).
  destruct (runs_appended g Hruns) as (Hr & E).
  split; [exact Hr|]. rewrite E, Hrows.
  rewrite <- !app_assoc. reflexivity.
Qed.

(** X10.  When the declared and the detected code are both non-empty, the
    consistency case passes exactly when the detected code is the part of
    the declared one before its first hyphen, and fails otherwise. *)
Theorem consistency_verdict err code name native detected others dir elements
    cs locale g :
  truthy code = true ->
  truthy (detected_code detected) = true ->
  let la :=
    mkAnalysis err (Some (Some (mkDeclared code (Some name) (Some native))))
      (Some (Some detected)) (Some others) (Some dir) elements cs locale in
  exists tc,
    In tc (appended (generate_language_test_cases la) g)
    /\ Description tc = "Verify language consistency"
    /\ (Status tc = "Pass" <-> primary_subtag code (detected_code detected))
    /\ (Status tc = "Fail" <->
        ~ primary_subtag code (detected_code detected)).
Proof.
  intros Hcode Hdet. cbv zeta.
  destruct (language_verdicts err code name native detected others dir
              elements cs locale) as (r & rows & Hruns & H).
  destruct (runs_appended g Hruns) as (_ & E).
  set (st := if String.eqb (hd "" (split "-" code)) (detected_code detected)
             then "Pass" else "Fail") in *.
  assert (Hin : In ("Verify language consistency", st) (map verdict rows)).
  { rewrite Hcode, Hdet in H. cbn [andb optional app] in H.
    destruct cs as [[s|]|]; destruct H as (_ & ->);
      cbn [app In]; right; right; left; reflexivity. }
  rewrite <- E in Hin. apply in_map_iff in Hin.
  destruct Hin as (tc & Htc & Hin). exists tc.
  injection Htc as Hd Hs. split; [exact Hin|]. split; [exact Hd|].
  rewrite Hs. unfold st, primary_subtag.
  pose proof (hd_split "-"%char code (detected_code detected)) as Hsplit.
  destruct (String.eqb_spec (hd "" (split "-" code)) (detected_code detected))
    as [Heq|Hne].
  - split; split; try reflexivity; try discriminate.
    + intros _. apply Hsplit, Heq.
    + intros Hn. exfalso. apply Hn, Hsplit, Heq.
  - split; split; try reflexivity; try discriminate.
    + intros Hp. exfalso. apply Hne, Hsplit, Hp.
    + intros _ Hp. apply Hne, Hsplit, Hp.
Qed.

Lemma consistency_verdict_witness :
  exists tc,
    In tc (appended (generate_language_test_cases
                       (english_analysis (Some (Some "utf-8")))) init)
    /\ Description tc = "Verify language consistency"
    /\ (Status tc = "Pass" <-> primary_subtag "en-US" "en").
Proof.
  destruct (@consistency_verdict None "en-US" "English" "English"
              (mkDetected "en" "English" "English" (99 # 100)) [] "ltr"
              (Some LanguageAnalyzer.empty_elements) (Some (Some "utf-8"))
              None init)
    as (tc & Hin & Hd & Hp & _).
  - reflexivity.
  - reflexivity.
  - exists tc. split; [exact Hin|]. split; [exact Hd | exact Hp].
Defined.

Lemma link_accessibility_witness :
  exists tc,
    In tc (appended (generate_link_test_cases
                       [Model.mkLink "http://x.com/a" "A" "internal"]
                       [Model.mkLinkCheck "http://x.com/a" None false None
                          (Some "timed out")]) init)
    /\ Status tc = "Fail"
    /\ Actual_Result tc = "Link is not accessible: timed out".
Proof.
  destruct (@link_accessibility_case
              [Model.mkLink "http://x.com/a" "A" "internal"]
              [Model.mkLinkCheck "http://x.com/a" None false None
                 (Some "timed out")]
              init
              (Model.mkLink "http://x.com/a" "A" "internal")
              (Model.mkLinkCheck "http://x.com/a" None false None
                 (Some "timed out")))
    as (tc & Hin & _ & _ & _ & Hfail & Hactual).
  - simpl. left. reflexivity.
  - exists tc. split; [exact Hin|]. split.
    + apply Hfail. reflexivity.
    + apply Hactual. reflexivity.
Defined.

Lemma form_cases_witness :
  exists tc,
    In tc (appended (generate_form_test_cases
                       [Model.mkForm "http://x.com/s" "POST" []]) init)
    /\ Description tc = "Verify form #1 submission endpoint"
    /\ Status tc = "Pass".
Proof.
  destruct (@form_cases_count [Model.mkForm "http://x.com/s" "POST" []] init)
    as (_ & _ & H).
  destruct (H 0 (Model.mkForm "http://x.com/s" "POST" []) eq_refl)
    as (tc & Hin & Hd & Hpass & _).
  exists tc. split; [exact Hin|]. split; [exact Hd|].
  apply Hpass. discriminate.
Defined.

End GeneratorMore.

(* ===================================================================== *)
(** * The language analyzer: further facts *)
(* ===================================================================== *)

Module LanguageMore.

Import LanguageAnalyzer Runs Properties.

(** ** The analysable text is in normal form *)

Lemma rstrip_idempotent s : rstrip (rstrip s) = rstrip s.
Proof.
  induction s as [|c s IH]; [reflexivity|]. cbn [rstrip].
  destruct (rstrip s) as [|d r] eqn:E.
  - destruct (is_space c) eqn:Ec; [reflexivity|].
    cbn [rstrip]. rewrite Ec. reflexivity.
  - cbn [rstrip]. cbn [rstrip] in IH. rewrite IH. reflexivity.
Qed.

Lemma lstrip_starts_clean s : starts_clean (lstrip s).
Proof.
  induction s as [|c s IH]; [exact I|]. cbn [lstrip].
  destruct (is_space c) eqn:Ec; [exact IH | exact Ec].
Qed.

Lemma rstrip_starts_clean s : starts_clean s -> starts_clean (rstrip s).
Proof.
  destruct s as [|c s]; [trivial|]. cbn [starts_clean rstrip]. intros Hc.
  destruct (rstrip s); [rewrite Hc|]; exact Hc.
Qed.

Lemma lstrip_clean s : starts_clean s -> lstrip s = s.
Proof.
  destruct s as [|c s]; [reflexivity|]. cbn [starts_clean lstrip].
  intros ->. reflexivity.
Qed.

Lemma strip_idempotent s : strip (strip s) = strip s.
Proof.
  unfold strip.
  rewrite (@lstrip_clean (rstrip (lstrip s))
             (@rstrip_starts_clean _ (lstrip_starts_clean s))).
  apply rstrip_idempotent.
Qed.

Lemma single_spaced_weaken s : single_spaced true s -> single_spaced false s.
Proof.
  destruct s as [|c s]; [trivial|]. cbn [single_spaced].
  destruct (is_space c); [|trivial]. intros (_ & H & _). discriminate H.
Qed.

Lemma single_spaced_collapse b text : single_spaced b (collapse_from b text).
Proof.
  revert b. induction text as [|c text IH]; intros b; [exact I|].
  cbn [collapse_from]. destruct (is_space c) eqn:Ec.
  - destruct b; [apply IH|]. cbn [single_spaced].
    change (is_space " ") with true. cbn iota. auto.
  - cbn [single_spaced]. rewrite Ec. apply IH.
Qed.

Lemma single_spaced_lstrip b s :
  single_spaced b s -> single_spaced true (lstrip s).
Proof.
  revert b. induction s as [|c s IH]; intros b; [trivial|].
  cbn [single_spaced lstrip]. destruct (is_space c) eqn:Ec.
  - intros (_ & _ & H). apply (IH true H).
  - intros H. cbn [single_spaced]. rewrite Ec. exact H.
Qed.

Lemma single_spaced_rstrip b s :
  single_spaced b s -> single_spaced b (rstrip s).
Proof.
  revert b. induction s as [|c s IH]; intros b; [trivial|].
  cbn [single_spaced rstrip]. destruct (is_space c) eqn:Ec.
  - intros (Hc & Hb & H). specialize (IH true H).
    destruct (rstrip s) as [|d r]; [exact I|].
    cbn [single_spaced]. rewrite Ec. auto.
  - intros H. specialize (IH false H).
    destruct (rstrip s) as [|d r]; cbn [single_spaced]; rewrite Ec;
      [exact I | exact IH].
Qed.

Lemma collapse_single_spaced b s :
  single_spaced b s -> collapse_from b s = s.
Proof.
  revert b. induction s as [|c s IH]; intros b; [reflexivity|].
  cbn [single_spaced collapse_from]. destruct (is_space c) eqn:Ec.
  - intros (-> & -> & H). rewrite (IH true H). reflexivity.
  - intros H. rewrite (IH false H). reflexivity.
Qed.

(** X11.  The text [_extract_text_content] returns is in normal form:
    stripping it or collapsing its whitespace again changes nothing, so
    the [strip()] in the length test of [analyze_language] has no
    effect. *)
Theorem extracted_text_normal_form (soup : node) :
  let text := analysable_text soup in
  strip text = text
  /\ collapse_whitespace text = text
  /\ single_spaced true text
  /\ String.length (strip text) = String.length text.
Proof.
  cbv zeta. unfold analysable_text, _extract_text_content. cbn [fst].
  set (t := collapse_whitespace _).
  assert (Hs : strip (strip t) = strip t) by apply strip_idempotent.
  assert (Hn : single_spaced true (strip t)).
  { unfold strip. apply single_spaced_rstrip.
    eapply single_spaced_lstrip. apply single_spaced_collapse. }
  split; [exact Hs|]. split.
  - apply collapse_single_spaced, single_spaced_weaken, Hn.
  - split; [exact Hn|]. rewrite Hs. reflexivity.
Qed.

(** ** Dictionaries *)

Lemma in_keys_store {V} k (v : V) d k' :
  In k' (map fst (store k v d)) -> k' = k \/ In k' (map fst d).
Proof.
  induction d as [|[k0 v0] d IH]; cbn [store map fst In].
  - intros [<-|[]]. left. reflexivity.
  - destruct (String.eqb_spec k k0) as [->|Hne]; cbn [map fst In].
    + intros [<-|H]; auto.
    + intros [<-|H]; [auto|]. destruct (IH H); auto.
Qed.

Lemma NoDup_store {V} k (v : V) d :
  NoDup (map fst d) -> NoDup (map fst (store k v d)).
Proof.
  induction d as [|[k0 v0] d IH]; cbn [store map fst]; intros H.
  - repeat constructor. intros [].
  - destruct (String.eqb_spec k k0) as [->|Hne]; [exact H|].
    cbn [map fst]. inversion H as [|? ? Hnot Hd]; subst.
    constructor; [|apply IH, Hd].
    intros Hin. destruct (in_keys_store _ _ _ _ Hin) as [E|Hin'];
      [apply Hne; symmetry; exact E | exact (Hnot Hin')].
Qed.

Lemma Forall_store {V} (P : string * V -> Prop) k (v : V) d :
  (forall k0, k0 = k -> P (k0, v)) -> Forall P d -> Forall P (store k v d).
Proof.
  intros Hk. induction 1 as [|[k0 v0] d H0 Hd IH]; cbn [store].
  - repeat constructor. apply Hk. reflexivity.
  - destruct (String.eqb_spec k k0) as [->|Hne].
    + constructor; [apply Hk; reflexivity | exact Hd].
    + constructor; [exact H0 | exact IH].
Qed.

Lemma length_store_append {V} k (c : V) d :
  length (concat (map snd
            (store k (get_default (lookup k d) [] ++ [c])%list d)))
  = S (length (concat (map snd d))).
Proof.
  induction d as [|[k0 v0] d IH]; [reflexivity|].
  cbn [store lookup]. destruct (String.eqb k k0).
  - cbn [get_default map snd concat]. rewrite !length_app. simpl. lia.
  - cbn [map snd concat]. rewrite !length_app, IH. lia.
Qed.

(** ** The descending sort *)

Lemma key_below_trans x y z :
  key_below y x = true -> key_below y z = false -> key_below x z = false.
Proof.
  unfold key_below. intros Hyx Hyz.
  apply orb_true_iff in Hyx. apply orb_false_iff in Hyz.
  destruct Hyz as (Hlt & Heq). apply Nat.ltb_ge in Hlt.
  apply orb_false_iff. destruct Hyx as [Hyx|Hyx].
  - apply Nat.ltb_lt in Hyx. split; [apply Nat.ltb_ge; lia|].
    apply andb_false_iff. left. apply Nat.eqb_neq. lia.
  - apply andb_true_iff in Hyx. destruct Hyx as (Hc & Hq).
    apply Nat.eqb_eq in Hc. split; [apply Nat.ltb_ge; lia|].
    destruct (Nat.eqb_spec (other_count x) (other_count z)) as [Hxz|Hxz];
      [|reflexivity].
    cbn [andb]. rewrite Hc, Hxz, Nat.eqb_refl in Heq. cbn [andb] in Heq.
    destruct (Qlt_le_dec (other_confidence y) (other_confidence x))
      as [Q1|_]; [|discriminate Hq].
    destruct (Qlt_le_dec (other_confidence y) (other_confidence z))
      as [_|Q2]; [discriminate Heq|].
    destruct (Qlt_le_dec (other_confidence x) (other_confidence z))
      as [Q3|_]; [|reflexivity].
    exfalso. apply (Qlt_irrefl (other_confidence y)).
    eapply Qlt_le_trans; [|exact Q2]. eapply Qlt_trans; eassumption.
Qed.

Lemma in_insert_desc x sorted w :
  In w (insert_desc x sorted) -> w = x \/ In w sorted.
Proof.
  induction sorted as [|y rest IH]; cbn [insert_desc].
  - intros [<-|[]]. left. reflexivity.
  - destruct (key_below y x).
    + intros [<-|H]; auto.
    + intros [<-|H]; [right; left; reflexivity|].
      destruct (IH H); [auto | right; right; assumption].
Qed.

Lemma insert_desc_sorted x sorted :
  StronglySorted not_below sorted ->
  StronglySorted not_below (insert_desc x sorted).
Proof.
  induction 1 as [|y rest Hrest IH Hy]; cbn [insert_desc].
  - repeat constructor.
  - destruct (key_below y x) eqn:E.
    + constructor; [constructor; assumption|].
      constructor; [unfold not_below|].
      * apply (@key_below_trans x y y E).
        unfold key_below. rewrite Nat.ltb_irrefl, Nat.eqb_refl. cbn.
        destruct (Qlt_le_dec (other_confidence y) (other_confidence y))
          as [Q|_]; [|reflexivity].
        exfalso. exact (Qlt_irrefl _ Q).
      * rewrite Forall_forall in *. intros z Hz.
        apply (@key_below_trans x y z E), Hy, Hz.
    + constructor; [exact IH|].
      rewrite Forall_forall in *. intros w Hw.
      destruct (in_insert_desc _ _ _ Hw) as [->|Hin];
        [exact E | apply Hy, Hin].
Qed.

Lemma insert_desc_permutation x sorted :
  Permutation (insert_desc x sorted) (x :: sorted).
Proof.
  induction sorted as [|y rest IH]; cbn [insert_desc]; [reflexivity|].
  destruct (key_below y x); [reflexivity|].
  rewrite IH. apply perm_swap.
Qed.

Lemma sort_desc_from results acc :
  StronglySorted not_below acc ->
  let sorted := fold_left (fun sorted x => insert_desc x sorted) results acc in
  StronglySorted not_below sorted /\ Permutation sorted (acc ++ results).
Proof.
  revert acc. induction results as [|x results IH]; intros acc Hacc;
    cbn [fold_left].
  - split; [exact Hacc | rewrite app_nil_r; reflexivity].
  - destruct (IH (insert_desc x acc) (insert_desc_sorted x Hacc)) as (S & P).
    split; [exact S|]. rewrite P, insert_desc_permutation.
    change (x :: acc)%list with ([x] ++ acc)%list.
    rewrite <- app_assoc.
    change (acc ++ x :: results)%list with (acc ++ [x] ++ results)%list.
    rewrite !app_assoc. apply Permutation_app_tail, Permutation_app_comm.
Qed.

Lemma sort_desc_spec results :
  StronglySorted not_below (sort_desc results)
  /\ Permutation (sort_desc results) results.
Proof. apply (sort_desc_from results (acc := [])). constructor. Qed.

Lemma total_count_permutation l l' :
  Permutation l l' -> total_count l = total_count l'.
Proof.
  induction 1; cbn [total_count fold_right] in *; try lia.
  fold (total_count l) in *. fold (total_count l') in *. lia.
Qed.

(** ** The other languages of a page *)

Section OtherLanguages.

Variable classify : string -> result (string * Q).
Variables text primary_lang : string.

(** What the sampling loop keeps true of [counts]: the codes are
    distinct, none is the primary language, every code has a sample, and
    there are at most [n] samples. *)
Lemma sample_chunk_invariant step counts i n :
  NoDup (map fst counts) ->
  Forall (fun kv : string * list Q =>
            fst kv <> primary_lang /\ snd kv <> []) counts ->
  length (concat (map snd counts)) <= n ->
  let counts' := sample_chunk classify text primary_lang step counts i in
  NoDup (map fst counts')
  /\ Forall (fun kv : string * list Q =>
               fst kv <> primary_lang /\ snd kv <> []) counts'
  /\ length (concat (map snd counts')) <= S n.
Proof.
  intros Hd Hf Hn. cbv zeta. unfold sample_chunk.
  destruct (negb (truthy (strip (slice text i step)))); [repeat split; auto|].
  destruct (classify (strip (slice text i step))) as [[lang conf]|e];
    [|repeat split; auto].
  destruct (String.eqb_spec lang primary_lang) as [E|Hne];
    [repeat split; auto|].
  split; [apply NoDup_store, Hd|]. split.
  - apply Forall_store; [|exact Hf].
    intros k0 ->. cbn [fst snd]. split; [exact Hne|].
    destruct (get_default (lookup lang counts) []); discriminate.
  - rewrite length_store_append. lia.
Qed.

Lemma sampling_invariant step positions counts n :
  NoDup (map fst counts) ->
  Forall (fun kv : string * list Q =>
            fst kv <> primary_lang /\ snd kv <> []) counts ->
  length (concat (map snd counts)) <= n ->
  let counts' :=
    fold_left (sample_chunk classify text primary_lang step) positions
      counts in
  NoDup (map fst counts')
  /\ Forall (fun kv : string * list Q =>
               fst kv <> primary_lang /\ snd kv <> []) counts'
  /\ length (concat (map snd counts')) <= n + length positions.
Proof.
  revert counts n. induction positions as [|i positions IH];
    intros counts n Hd Hf Hn; cbn [fold_left length].
  - repeat split; auto. lia.
  - destruct (sample_chunk_invariant step i Hd Hf Hn) as (Hd' & Hf' & Hn').
    destruct (IH _ _ Hd' Hf' Hn') as (Hd2 & Hf2 & Hn2).
    repeat split; auto. lia.
Qed.

Lemma detected_entries (chunks : nat) :
  let results :=
    _detect_other_languages classify text primary_lang chunks in
  NoDup (map other_code results)
  /\ Forall (fun o => other_code o <> primary_lang
                      /\ 1 <= other_count o
                      /\ (other_name o, other_native o)
                         = language_info (other_code o)) results
  /\ total_count results <= length (sample_positions text chunks).
Proof.
  cbv zeta. unfold _detect_other_languages, sample_positions.
  destruct (negb (truthy text) || (String.length text <? 50)%nat).
  { split; [constructor|]. split; [constructor | cbn; lia]. }
  set (step := Nat.max 1 (String.length text / chunks)).
  set (positions := range_step (String.length text) step).
  destruct (@sampling_invariant step positions [] 0)
    as (Hd & Hf & Hn); [constructor | constructor | cbn; lia |].
  set (counts := fold_left (sample_chunk classify text primary_lang step)
                   positions []) in *.
  set (entry := fun '(lang, confs) => _).
  destruct (sort_desc_spec (map entry counts)) as (_ & P).
  assert (Hcodes : map other_code (map entry counts) = map fst counts).
  { rewrite map_map. apply map_ext. intros [lang confs]. reflexivity. }
  split; [|split].
  - apply (Permutation_NoDup (l := map other_code (map entry counts))).
    + apply Permutation_map. symmetry. exact P.
    + rewrite Hcodes. exact Hd.
  - apply (Permutation_Forall (x := map entry counts));
      [symmetry; exact P|].
    rewrite Forall_forall in *. intros o Ho. apply in_map_iff in Ho.
    destruct Ho as ([lang confs] & <- & Hin).
    destruct (Hf _ Hin) as (Hne & Hconfs). cbn [fst snd] in *.
    unfold entry. cbn [other_code other_count other_name other_native].
    split; [exact Hne|]. split.
    + destruct confs; [contradiction | cbn; lia].
    + destruct (language_info lang). reflexivity.
  - rewrite (total_count_permutation P).
    assert (Ht : total_count (map entry counts)
                 = length (concat (map snd counts))).
    { clear. induction counts as [|[lang confs] counts IH]; [reflexivity|].
      cbn [map snd concat total_count fold_right].
      fold (total_count (map entry counts)).
      rewrite length_app, IH. reflexivity. }
    rewrite Ht. cbn in Hn. exact Hn.
Qed.

(** X12.  The entries of [_detect_other_languages]: no language twice,
    never the primary language, each with at least one sample and with
    the names of [LANGUAGE_NAMES] (or [Unknown]); together they stand for
    no more samples than were taken, whatever the classifier answers or
    raises. *)
Theorem other_languages_entries (chunks : nat) :
  let results :=
    _detect_other_languages classify text primary_lang chunks in
  NoDup (map other_code results)
  /\ Forall (fun o => other_code o <> primary_lang
                      /\ 1 <= other_count o
                      /\ (other_name o, other_native o)
                         = language_info (other_code o)) results
  /\ total_count results <= length (sample_positions text chunks).
Proof. exact (detected_entries chunks). Qed.

(** X13.  The entries are in descending order of [(count, confidence)]:
    no entry has a smaller key than a later one. *)
Theorem other_languages_sorted (chunks : nat) :
  StronglySorted not_below
    (_detect_other_languages classify text primary_lang chunks).
Proof.
  unfold _detect_other_languages.
  destruct (negb (truthy text) || (String.length text <? 50)%nat);
    [constructor|].
  apply sort_desc_spec.
Qed.




End OtherLanguages.

(** ** The outcomes of [analyze_language] *)

Section Analysis.

Variable BeautifulSoup : string -> node.
Variable classify : string -> result (string * Q).
Variable detect : string -> result (option string).




End Analysis.


(** ** The language elements *)

Lemma alternate_links_ok links :
  Forall (fun link => get link "href" <> None
                      /\ get link "hreflang" <> None) links ->
  exists found, alternate_links_of links = Ok found.
Proof.
  induction 1 as [|link links (Hh & Hl) _ (found & IH)]; cbn [alternate_links_of].
  - eexists. reflexivity.
  - unfold tag_item.
    destruct (get link "href"); [|contradiction].
    destruct (get link "hreflang"); [|contradiction].
    cbn [getitem rbind]. rewrite IH. eexists. reflexivity.
Qed.

Lemma alternate_links_raise links :
  Exists (fun link => get link "href" = None) links ->
  Forall (fun link => get link "hreflang" <> None) links ->
  exists e, alternate_links_of links = Raise e.
Proof.
  induction 1 as [link links Hh|link links _ IH]; intros Hl;
    inversion Hl as [|? ? Hl1 Hl2]; subst; cbn [alternate_links_of];
    unfold tag_item.
  - rewrite Hh. eexists. reflexivity.
  - destruct (get link "href"); [|eexists; reflexivity].
    destruct (get link "hreflang"); [|contradiction].
    cbn [getitem rbind]. destruct (IH Hl2) as (e & ->).
    eexists. reflexivity.
Qed.

Lemma alternates_have_hreflang soup :
  Forall (fun link => get link "hreflang" <> None) (alternates soup).
Proof.
  unfold alternates, find_all. apply Forall_forall. intros link Hin.
  apply filter_In in Hin. destruct Hin as (_ & Hp).
  apply andb_true_iff in Hp. destruct Hp as (_ & Hp).
  unfold has_attr in Hp. destruct link; try discriminate Hp.
  destruct (get (Tag name attrs children) "hreflang");
    [discriminate | discriminate Hp].
Qed.

(** X17.  [_analyze_language_elements] gives up on the whole page, and
    returns the empty lists, exactly when one alternate link has no
    [href] or the content-language meta element has no [content]: the
    [lang] and [dir] attributes and the translation links of the page are
    then dropped too. *)
Theorem language_elements_fallback (soup : node) :
  _analyze_language_elements soup = empty_elements
  <-> (exists link, In link (alternates soup) /\ get link "href" = None)
      \/ (exists m, content_language_meta soup = Some m
                    /\ get m "content" = None).
Proof.
  unfold _analyze_language_elements, _find_multilingual_meta.
  fold (alternates soup). fold (content_language_meta soup).
  pose proof (alternates_have_hreflang soup) as Hl.
  destruct (Exists_dec (fun link => get link "href" = None) (alternates soup))
    as [Hex|Hall].
  { intros link. destruct (get link "href"); [right; discriminate | left; reflexivity]. }
  - destruct (alternate_links_raise Hex Hl) as (e & ->). cbn [rbind].
    split; [intros _ | reflexivity].
    left. apply Exists_exists in Hex. exact Hex.
  - destruct (@alternate_links_ok (alternates soup)) as (found & ->).
    { apply Forall_forall. intros link Hin. split.
      - intros Hn. apply Hall, Exists_exists. eauto.
      - rewrite Forall_forall in Hl. apply Hl, Hin. }
    cbn [rbind]. destruct (content_language_meta soup) as [m|].
    + unfold tag_item. destruct (get m "content") as [c|] eqn:Ec;
        cbn [getitem rbind].
      * split; [discriminate|].
        intros [(link & Hin & Hn)|(m' & Hm & Hn)].
        -- exfalso. apply Hall, Exists_exists. eauto.
        -- injection Hm as <-. rewrite Ec in Hn. discriminate Hn.
      * split; [intros _ | reflexivity]. right. eauto.
    + cbn [rbind]. split; [discriminate|].
      intros [(link & Hin & Hn)|(m' & Hm & _)]; [|discriminate Hm].
      exfalso. apply Hall, Exists_exists. eauto.
Qed.

End LanguageMore.

(* ===================================================================== *)
(** * The parser: further facts *)
(* ===================================================================== *)

Module ParserMore.

Import Parser Runs Properties.

Lemma upper_char_idempotent c : upper_char (upper_char c) = upper_char c.
Proof. destruct c as [[] [] [] [] [] [] [] []]; reflexivity. Qed.

Lemma upper_idempotent s : upper (upper s) = upper s.
Proof.
  unfold upper. induction s as [|c s IH]; [reflexivity|].
  cbn [map_chars]. rewrite upper_char_idempotent, IH. reflexivity.
Qed.

(** ** [extract_forms] *)

Section Forms.

Variable urljoin : string -> string -> result string.

Lemma forms_of_spec self tags :
  match forms_of urljoin self tags with
  | Ok forms =>
      Forall2 (fun tag form =>
                 urljoin (base_url self) (get_default (get tag "action") "")
                 = Ok (action form)
                 /\ method form = form_method tag
                 /\ fields form = form_fields tag) tags forms
  | Raise e =>
      exists tag,
        In tag tags
        /\ urljoin (base_url self) (get_default (get tag "action") "")
           = Raise e
  end.
Proof.
  induction tags as [|tag tags IH]; cbn [forms_of]; [constructor|].
  destruct (urljoin (base_url self) (get_default (get tag "action") ""))
    as [u|e] eqn:Eu; cbn [rbind].
  - destruct (forms_of urljoin self tags) as [forms|e]; cbn [rbind].
    + constructor; [|exact IH]. cbn. auto.
    + destruct IH as (t & Hin & Ht). exists t. split; [right|]; assumption.
  - exists tag. split; [left; reflexivity | exact Eu].
Qed.

(** X18.  [extract_forms] returns one form for every [form] element, in
    document order: its action is what [urljoin] makes of the [action]
    attribute (the empty string when there is none), its method is the
    [method] attribute in upper case, [GET] when there is none, and its
    fields are the [input], [textarea] and [select] elements below it.
    Unlike [extract_links] it does not skip an element at which
    [urljoin] raises: the exception of the first such element ends the
    extraction. *)
Theorem extract_forms_entries (self : WebParser) :
  let tags := find_all (soup self) (named "form") in
  match extract_forms urljoin self with
  | Ok forms =>
      Forall2 (fun tag form =>
                 urljoin (base_url self) (get_default (get tag "action") "")
                 = Ok (action form)
                 /\ method form = form_method tag
                 /\ fields form = form_fields tag
                 /\ upper (method form) = method form
                 /\ (get tag "method" = None -> method form = "GET")) tags forms
      /\ length forms = length tags
  | Raise e =>
      exists tag,
        In tag tags
        /\ urljoin (base_url self) (get_default (get tag "action") "")
           = Raise e
  end.
Proof.
  cbv zeta. unfold extract_forms.
  pose proof (forms_of_spec self (find_all (soup self) (named "form"))) as H.
  destruct (forms_of urljoin self (find_all (soup self) (named "form")))
    as [forms|e]; [|exact H].
  split; [|symmetry; eapply Forall2_length; exact H].
  eapply Forall2_impl; [|exact H].
  intros tag form (Ha & Hm & Hf). repeat split; try assumption.
  - rewrite Hm. apply upper_idempotent.
  - intros Hn. rewrite Hm. unfold form_method. rewrite Hn. reflexivity.
Qed.

End Forms.

(** ** The security elements and the page structure *)

Lemma prefix_https s :
  String.prefix "http" s || String.prefix "https" s = String.prefix "http" s.
Proof.
  destruct (String.prefix "http" s) eqn:E; [reflexivity|].
  cbn [orb].
  destruct s as [|c1 [|c2 [|c3 [|c4 s]]]]; cbn [String.prefix] in *;
    try reflexivity;
    repeat match goal with
           | H : context [ascii_dec ?a ?b] |- _ => destruct (ascii_dec a b)
           end; try reflexivity; try discriminate E.
  destruct s; discriminate E.
Qed.

Section Structure.

Variable netloc : string -> result string.

Lemma external_anchors_spec self anchors :
  match external_anchors netloc self anchors with
  | Ok kept =>
      kept = filter (is_external netloc self) anchors
      /\ Forall (fun a => is_http a = true ->
                          (exists n, netloc (href_of a) = Ok n)
                          /\ exists b, netloc (base_url self) = Ok b) anchors
  | Raise e =>
      exists a,
        In a anchors /\ is_http a = true
        /\ (netloc (href_of a) = Raise e
            \/ netloc (base_url self) = Raise e)
  end.
Proof.
  induction anchors as [|a anchors IH]; cbn [external_anchors].
  { split; [reflexivity | constructor]. }
  rewrite prefix_https. fold (href_of a). fold (is_http a).
  assert (Hfilter : filter (is_external netloc self) (a :: anchors)
                    = if is_external netloc self a
                      then a :: filter (is_external netloc self) anchors
                      else filter (is_external netloc self) anchors)
    by reflexivity.
  rewrite Hfilter. clear Hfilter. unfold is_external at 1.
  destruct (is_http a) eqn:Eh; cbn [andb].
  - destruct (netloc (href_of a)) as [n|e] eqn:En; cbn [rbind].
    + destruct (netloc (base_url self)) as [b|e] eqn:Eb; cbn [rbind].
      * destruct (external_anchors netloc self anchors) as [kept|e];
          cbn [rbind].
        -- destruct IH as (-> & Hf). split.
           ++ destruct (negb (String.eqb n b)); reflexivity.
           ++ constructor; [|exact Hf]. intros _. eauto.
        -- destruct IH as (a' & Hin & Hh & H). exists a'.
           split; [right; exact Hin|]. split; assumption.
      * exists a. split; [left; reflexivity|]. split; [exact Eh|].
        right. reflexivity.
    + exists a. split; [left; reflexivity|]. split; [exact Eh|].
      left. exact En.
  - cbn [rbind].
    destruct (external_anchors netloc self anchors) as [kept|e]; cbn [rbind].
    + destruct IH as (-> & Hf). split; [reflexivity|].
      constructor; [|exact Hf]. intros H. congruence.
    + destruct IH as (a' & Hin & Hh & H). exists a'.
      split; [right; exact Hin|]. split; assumption.
Qed.

(** X19.  [extract_page_structure] raises only through the count of
    external links: when [urlparse] rejects the [href] of an anchor that
    starts with [http], or rejects the base URL while the page has such
    an anchor.  Otherwise it returns a structure whose external-link
    count is the number of anchors whose [href] starts with [http] and
    whose netloc differs from the one of the base URL; an anchor with
    another kind of [href] (relative, protocol-relative, [mailto:], ...)
    is never counted and its [href] is never parsed. *)
Theorem page_structure_outcome (self : WebParser) :
  match extract_page_structure netloc self with
  | Ok structure =>
      exists security,
        security_headers structure = Some security
        /\ external_links security
           = length (filter (is_external netloc self) (anchors (soup self)))
        /\ external_links security
           <= length (filter is_http (anchors (soup self)))
  | Raise e =>
      exists a,
        In a (anchors (soup self)) /\ is_http a = true
        /\ (netloc (href_of a) = Raise e
            \/ netloc (base_url self) = Raise e)
  end.
Proof.
  unfold extract_page_structure, _extract_security_elements.
  fold (anchors (soup self)).
  pose proof (external_anchors_spec self (anchors (soup self))) as H.
  destruct (external_anchors netloc self (anchors (soup self)))
    as [kept|e]; cbn [rbind]; [|exact H].
  destruct H as (-> & _). eexists. split; [reflexivity|].
  cbn [external_links]. split; [reflexivity|].
  induction (anchors (soup self)) as [|a l IH]; [reflexivity|].
  cbn [filter]. unfold is_external at 1.
  destruct (is_http a); cbn [andb]; [|exact IH].
  match goal with |- context [if ?c then _ else _] => destruct c end;
    cbn [length]; lia.
Qed.

End Structure.

(** ** Counting elements *)

Lemma length_filter_split {A} (p q r : A -> bool) l :
  (forall x, p x = true -> q x = negb (r x)) ->
  length (filter p l)
  = length (filter (fun x => p x && q x) l)
    + length (filter (fun x => p x && r x) l).
Proof.
  intros H. induction l as [|x l IH]; [reflexivity|]. cbn [filter].
  destruct (p x) eqn:Ep; cbn [andb]; [|exact IH].
  rewrite (H x Ep). destruct (r x); cbn [negb length]; lia.
Qed.

Lemma length_filter_and {A} (p q : A -> bool) l :
  length (filter (fun x => p x && q x) l) <= length (filter p l).
Proof.
  induction l as [|x l IH]; [reflexivity|]. cbn [filter].
  destruct (p x); cbn [andb]; [|exact IH].
  destruct (q x); cbn [length]; lia.
Qed.

Lemma length_filter_or {A} (p q : A -> bool) l :
  (forall x, p x = true -> q x = false) ->
  length (filter (fun x => p x || q x) l)
  = length (filter p l) + length (filter q l).
Proof.
  intros H. induction l as [|x l IH]; [reflexivity|]. cbn [filter].
  destruct (p x) eqn:Ep; cbn [orb].
  - rewrite (H x Ep). cbn [length]. lia.
  - destruct (q x); cbn [length]; lia.
Qed.

Lemma length_filter_all {A} (p : A -> bool) l :
  length (filter p l) = length l <-> forallb p l = true.
Proof.
  induction l as [|x l IH]; [split; reflexivity|]. cbn [filter forallb].
  pose proof (ParserFacts.length_filter_le p l) as Hle.
  destruct (p x); cbn [andb length].
  - rewrite <- IH. lia.
  - split; [lia | discriminate].
Qed.

Lemma named_distinct a b n : a <> b -> named a n = true -> named b n = false.
Proof.
  intros Hne. destruct n as [name attrs children| |]; try discriminate.
  cbn [named]. intros Ha. apply String.eqb_eq in Ha. subst name.
  apply String.eqb_neq. congruence.
Qed.

Lemma src_or_not n :
  named "script" n = true -> has_attr "src" n = negb (lacks_attr "src" n).
Proof.
  destruct n as [name attrs children| |]; try discriminate. intros _.
  unfold has_attr, lacks_attr.
  destruct (get (Tag name attrs children) "src"); reflexivity.
Qed.

Section Counts.

Variable netloc : string -> result string.

(** X20.  The counts of a parsed page agree with each other: the scripts
    are the external and the inline ones, no stylesheet link is counted
    twice as external, the clickable elements are the anchors, the
    buttons and the inputs, the SEO count of H1 headings is the length of
    the [h1] list, the password count of the security elements is the
    one of the interactive elements, and there is one image entry for
    every [img] element. *)
Theorem parsed_counts_agree (self : WebParser) (structure : PageStructure) :
  extract_page_structure netloc self = Ok structure ->
  exists sc ss ie seo sec hs imgs,
    scripts structure = Some sc /\ stylesheets structure = Some ss
    /\ interactive_elements structure = Some ie
    /\ seo_elements structure = Some seo
    /\ security_headers structure = Some sec
    /\ headings structure = Some hs /\ images structure = Some imgs
    /\ total sc = external sc + inline sc
    /\ external ss <= total ss
    /\ clickable ie
       = length (find_all (soup self) (named "a")) + buttons ie
         + length (find_all (soup self) (named "input"))
    /\ h1_count seo = length (get_default (lookup "h1" hs) [])
    /\ lookup "password" (inputs ie) = Some (password_inputs sec)
    /\ length imgs = length (find_all (soup self) (named "img")).
Proof.
  unfold extract_page_structure.
  destruct (_extract_security_elements netloc self) as [sec|e] eqn:Es;
    cbn [rbind]; intros E; [|discriminate E].
  injection E as <-. do 7 eexists.
  do 7 (split; [reflexivity|]).
  cbn [total external inline clickable buttons h1_count inputs
       _extract_interactive_elements _extract_seo_elements].
  unfold find_all. split; [|split; [|split; [|split; [|split]]]].
  - apply length_filter_split. exact src_or_not.
  - apply (length_filter_and
             (fun n => named "link" n && attr_is "rel" "stylesheet" n)
             (has_attr "href")).
  - unfold named_any. cbn [existsb].
    rewrite length_filter_or.
    + rewrite length_filter_or.
      * rewrite (filter_ext (fun n => named "input" n || false)
                   (named "input")) by (intros n; apply orb_false_r).
        lia.
      * intros n Hn. rewrite orb_false_r.
        apply (@named_distinct "button" "input" n); [discriminate | exact Hn].
    + intros n Hn. rewrite orb_false_r.
      rewrite (@named_distinct "a" "button" n), (@named_distinct "a" "input" n);
        [reflexivity | discriminate | exact Hn | discriminate | exact Hn].
  - cbn. rewrite length_map. reflexivity.
  - unfold _extract_security_elements in Es.
    destruct (external_anchors netloc self _); cbn [rbind] in Es;
      [|discriminate Es].
    injection Es as <-. reflexivity.
  - rewrite length_map. reflexivity.
Qed.

End Counts.

Lemma parsed_counts_witness :
  exists sc,
    scripts Examples.hi_structure = Some sc
    /\ total sc = external sc + inline sc.
Proof.
  destruct (@parsed_counts_agree Urllib.urlparse_netloc Examples.hi_parser
              Examples.hi_structure)
    as (sc & ss & ie & seo & sec & hs & imgs & E & _ & _ & _ & _ & _ & _
        & H & _).
  - vm_compute. reflexivity.
  - exists sc. split; [exact E | exact H].
Defined.

(** ** Tables *)

Lemma truthy_filter_and {A} (p q : A -> bool) l :
  truthy_list (filter (fun x => p x && q x) l) = true ->
  truthy_list (filter p l) = true.
Proof.
  induction l as [|x l IH]; [discriminate|]. cbn [filter].
  destruct (p x); cbn [andb]; [intros _; reflexivity | exact IH].
Qed.

(** X21.  There is one table entry for every [table] element, in document
    order.  Its column count is the number of cells divided by the
    number of rows, rounded down, and 0 for a table without rows, so that
    rows times columns never exceeds the number of cells; a table with a
    scoped header cell has headers. *)
Theorem table_entries (self : WebParser) :
  Forall2 (fun table t =>
             let tds := length (find_all table (named "td")) in
             rows t = length (find_all table (named "tr"))
             /\ rows t * cols t <= tds
             /\ (rows t = 0 -> cols t = 0)
             /\ (0 < rows t -> tds < rows t * (cols t + 1))
             /\ (has_scope t = true -> has_headers t = true))
    (find_all (soup self) (named "table")) (_analyze_tables self).
Proof.
  unfold _analyze_tables.
  induction (find_all (soup self) (named "table")) as [|table l IH];
    cbn [map]; constructor; [|exact IH].
  cbn [rows cols has_scope has_headers].
  set (trs := find_all table (named "tr")).
  set (tds := length (find_all table (named "td"))).
  split; [reflexivity|]. clearbody trs tds.
  destruct trs as [|tr trs']; cbn [truthy_list].
  - cbn [length]. split; [lia|]. split; [reflexivity|]. split; [lia|].
    apply truthy_filter_and.
  - set (r := length (tr :: trs')).
    assert (Hr : 0 < r) by (subst r; cbn; lia).
    clearbody r.
    pose proof (Nat.div_mod_eq tds r) as E.
    pose proof (Nat.mod_upper_bound tds r) as Hm.
    split; [nia|]. split; [lia|]. split; [nia|].
    apply truthy_filter_and.
Qed.

(** ** Accessibility of a parsed page *)

Lemma without_alt_of_images imgs :
  truthy_list
    (filter (fun img => negb (truthy (alt img)))
       (map (fun img =>
               {| src := get img "src";
                  alt := get_default (get img "alt") "";
                  img_title := get_default (get img "title") "";
                  width := get_default (get img "width") "";
                  height := get_default (get img "height") "" |}) imgs))
  = negb (forallb has_alt_text imgs).
Proof.
  induction imgs as [|img imgs IH]; [reflexivity|].
  cbn [map filter forallb alt]. unfold has_alt_text at 1.
  destruct (get img "alt") as [[|c a]|]; cbn [get_default truthy negb andb];
    try reflexivity.
  exact IH.
Qed.

Section Accessibility.

Variable netloc : string -> result string.

(** X22.  On the structure of a parsed page the accessibility method
    never raises and appends four cases: the alt-text case passes exactly
    when every [img] element has a non-empty [alt], the heading case when
    there is an [h1], the multiple-H1 case when there is at most one, and
    the landmark case when a landmark was found. *)
Theorem accessibility_of_parsed_page (self : WebParser)
    (structure : PageStructure) (g : TestGenerator.TestCaseGenerator) :
  extract_page_structure netloc self = Ok structure ->
  fst (TestGenerator.generate_accessibility_test_cases structure g) = Ok tt
  /\ map verdict_of
       (appended (TestGenerator.generate_accessibility_test_cases structure) g)
     = (accessibility_verdicts (soup self)
        ++ [("Verify ARIA landmarks",
             if truthy_list (_extract_landmarks self)
             then "Pass" else "Fail")])%list.
Proof.
  unfold extract_page_structure.
  destruct (_extract_security_elements netloc self) as [sec|e];
    cbn [rbind]; intros E; [|discriminate E].
  injection E as <-.
  match goal with
  | |- context [TestGenerator.generate_accessibility_test_cases ?s] =>
      set (structure := s)
  end.
  assert (Hruns : exists rows,
             runs (TestGenerator.generate_accessibility_test_cases structure)
               (Ok tt) rows
             /\ map verdict rows
                = (accessibility_verdicts (soup self)
                   ++ [("Verify ARIA landmarks",
                        if truthy_list (_extract_landmarks self)
                        then "Pass" else "Fail")])%list).
  { unfold TestGenerator.generate_accessibility_test_cases, structure.
    cbn [images headings landmarks getitem].
    eexists. split.
    - apply GeneratorMore.runs_bind_eval.
      eapply GeneratorMore.runs_bind; [apply GeneratorMore.runs_add|].
      apply GeneratorMore.runs_bind_eval.
      eapply GeneratorMore.runs_bind; [apply GeneratorMore.runs_add|].
      eapply GeneratorMore.runs_bind; [apply GeneratorMore.runs_add|].
      apply GeneratorMore.runs_add.
    - cbn [map app verdict row_description row_status].
      unfold accessibility_verdicts. cbn [app].
      rewrite without_alt_of_images.
      match goal with
      | |- context [lookup "h1" ?d] =>
          change (lookup "h1" d)
            with (Some (map get_text_strip
                          (find_all (soup self) (named "h1"))))
      end.
      cbn [get_default]. rewrite length_map.
      set (n := length (find_all (soup self) (named "h1"))).
      destruct (forallb has_alt_text (find_all (soup self) (named "img")));
        cbn [negb];
        destruct n as [|[|n]]; reflexivity. }
  destruct Hruns as (rows & Hruns & Hrows).
  destruct (GeneratorMore.runs_appended g Hruns) as (Hr & E).
  split; [exact Hr|]. rewrite E. exact Hrows.
Qed.

(** X23.  The SEO ratio and the accessibility verdict agree: the
    alt-text ratio is 1 exactly when every [img] element has a non-empty
    [alt], that is, when the alt-text case passes. *)
Theorem alt_ratio_one_iff_all_alt (self : WebParser) :
  (img_alt_ratio (_extract_seo_elements self) == 1)%Q
  <-> forallb has_alt_text (find_all (soup self) (named "img")) = true.
Proof.
  cbn [_extract_seo_elements img_alt_ratio].
  set (imgs := find_all (soup self) (named "img")).
  rewrite (filter_ext _ _ ParserFacts.has_alt_text_truthy).
  rewrite <- length_filter_all.
  pose proof (ParserFacts.length_filter_le has_alt_text imgs) as Hle.
  clearbody imgs. destruct imgs as [|img imgs']; cbn [truthy_list].
  - split; reflexivity.
  - set (k := length (filter has_alt_text (img :: imgs'))) in *.
    set (n := length (img :: imgs')) in *.
    assert (Hn : 0 < n) by (subst n; cbn; lia).
    unfold ratio, Qeq. cbn [Qnum Qden].
    assert (Hp : Zpos (Pos.of_nat n) = Z.of_nat n).
    { destruct n; [lia|]. rewrite <- Pos.of_nat_succ. lia. }
    rewrite Hp. lia.
Qed.

End Accessibility.

Lemma accessibility_of_parsed_page_witness :
  map verdict_of
    (appended (TestGenerator.generate_accessibility_test_cases
                 Examples.hi_structure) TestGenerator.init)
  = [ ("Verify image alt texts", "Pass");
      ("Verify heading hierarchy", "Pass");
      ("Check for multiple H1 headings", "Pass");
      ("Verify ARIA landmarks", "Fail") ].
Proof.
  destruct (@accessibility_of_parsed_page Urllib.urlparse_netloc
              Examples.hi_parser Examples.hi_structure TestGenerator.init)
    as (_ & H).
  - vm_compute. reflexivity.
  - rewrite H. vm_compute. reflexivity.
Defined.

End ParserMore.

(* ===================================================================== *)
(** * The crawler: further facts *)
(* ===================================================================== *)

Module CrawlerMore.

Import Crawler Runs Properties.

Lemma sent_by_app {A} (m : IO A) log new :
  snd (m log) = (log ++ new)%list -> sent_by m log = new.
Proof.
  intros E. unfold sent_by. rewrite E, skipn_app, skipn_all, Nat.sub_diag.
  reflexivity.
Qed.

Lemma ssl_is_connection e : is_SSLError e = true -> is_ConnectionError e = true.
Proof.
  destruct e as [| | | |cls msg|]; try discriminate.
  destruct cls; try discriminate. reflexivity.
Qed.

Lemma outcome_body answer body :
  outcome answer = Ok body ->
  exists response,
    answer = Ok response /\ text response = body
    /\ ~ is_error_status (resp_status_code response).
Proof.
  unfold outcome, raise_for_status, is_error_status.
  destruct answer as [response|e]; cbn [rbind]; [|discriminate].
  destruct ((400 <=? resp_status_code response)
            && (resp_status_code response <? 500))%Z eqn:E4;
    cbn [rbind]; [discriminate|].
  destruct ((500 <=? resp_status_code response)
            && (resp_status_code response <? 600))%Z eqn:E5;
    cbn [rbind]; [discriminate|].
  intros E. injection E as <-. exists response.
  split; [reflexivity|]. split; [reflexivity|].
  apply andb_false_iff in E4, E5. lia.
Qed.

Section Fetch.

Variable network : Log -> Request -> result Response.

(** The two ways [fetch_website_content] can go. *)
Lemma fetch_runs self url log :
  let first := get_request self url true in
  let second := extended_request self url in
  (fetch_website_content network self url log
   = (outcome (network log first), (log ++ [first])%list)
   /\ forall e, outcome (network log first) = Raise e -> is_Timeout e = false)
  \/ (fetch_website_content network self url log
      = (outcome (network (log ++ [first])%list second),
         (log ++ [first; second])%list)
      /\ exists e, outcome (network log first) = Raise e
                   /\ is_Timeout e = true).
Proof.
  cbv zeta.
  assert (Hfirst : attempt network url (timeouts self) true log
                   = (outcome (network log (get_request self url true)),
                      (log ++ [get_request self url true])%list))
    by apply CrawlerFacts.attempt_spec.
  assert (Hsecond :
            attempt network url
              (fst (timeouts self), (snd (timeouts self) * 2)%Q) true
              (log ++ [get_request self url true])%list
            = (outcome (network (log ++ [get_request self url true])%list
                          (extended_request self url)),
               (log ++ [get_request self url true;
                        extended_request self url])%list)).
  { rewrite CrawlerFacts.attempt_spec, <- app_assoc. reflexivity. }
  assert (Hrun :
            fetch_website_content network self url log
            = match outcome (network log (get_request self url true)) with
              | Ok body => (Ok body, (log ++ [get_request self url true])%list)
              | Raise e =>
                  if is_Timeout e
                  then (outcome
                          (network (log ++ [get_request self url true])%list
                             (extended_request self url)),
                        (log ++ [get_request self url true;
                                 extended_request self url])%list)
                  else (Raise e, (log ++ [get_request self url true])%list)
              end).
  { unfold fetch_website_content, try_except at 1. rewrite Hfirst.
    destruct (outcome (network log (get_request self url true)))
      as [body|e]; [reflexivity|].
    destruct (is_Timeout e).
    - unfold try_except. cbv beta iota. rewrite Hsecond.
      destruct (outcome (network (log ++ [get_request self url true])%list
                           (extended_request self url))); reflexivity.
    - destruct (is_ConnectionError e) eqn:Ec; [reflexivity|].
      destruct (is_SSLError e) eqn:Es; [|reflexivity].
      rewrite (ssl_is_connection e Es) in Ec. discriminate Ec. }
  rewrite Hrun. clear Hrun Hfirst Hsecond.
  destruct (outcome (network log (get_request self url true)))
    as [body|e].
  - left. split; [reflexivity | intros e He; discriminate He].
  - destruct (is_Timeout e) eqn:Et.
    + right. split; [reflexivity|]. exists e. split; [reflexivity | exact Et].
    + left. split; [reflexivity|]. intros e' He. injection He as <-. exact Et.
Qed.

(** X24.  [fetch_website_content] sends one request, or two when the
    first one timed out, and its result is the outcome of the last one.
    Every request it sends is a GET for the URL with certificate
    verification on and the crawler's connect timeout; a body is
    returned only from a response whose status is outside 400-599. *)
Theorem fetch_requests (self : WebCrawler) (url : string) (log : Log) :
  let run := fetch_website_content network self url log in
  let new := sent_by (fetch_website_content network self url) log in
  let first := get_request self url true in
  let second := extended_request self url in
  snd run = (log ++ new)%list
  /\ (new = [first] \/ new = [first; second])
  /\ (new = [first; second]
      <-> exists e, outcome (network log first) = Raise e
                    /\ is_Timeout e = true)
  /\ Forall (fun r => verify r = true /\ verb r = "GET" /\ req_url r = url
                      /\ connect_timeout r = fst (timeouts self)) new
  /\ fst run = outcome (network (removelast (log ++ new)%list) (last new first))
  /\ (forall body, fst run = Ok body ->
        exists response,
          network (removelast (log ++ new)%list) (last new first) = Ok response
          /\ text response = body
          /\ ~ is_error_status (resp_status_code response)).
Proof.
  cbv zeta.
  assert (H : exists new,
            snd (fetch_website_content network self url log)
            = (log ++ new)%list
            /\ (new = [get_request self url true]
                \/ new = [get_request self url true;
                          extended_request self url])
            /\ (new = [get_request self url true; extended_request self url]
                <-> exists e,
                      outcome (network log (get_request self url true))
                      = Raise e /\ is_Timeout e = true)
            /\ fst (fetch_website_content network self url log)
               = outcome (network (removelast (log ++ new)%list)
                            (last new (get_request self url true)))).
  { destruct (fetch_runs self url log) as [(E & Hn)|(E & He)]; rewrite E.
    - exists [get_request self url true]. split; [reflexivity|].
      split; [left; reflexivity|]. split.
      + split; [discriminate|]. intros (e & He & Ht).
        rewrite (Hn e He) in Ht. discriminate Ht.
      + rewrite removelast_last. reflexivity.
    - exists [get_request self url true; extended_request self url].
      split; [reflexivity|]. split; [right; reflexivity|]. split.
      + split; [intros _; exact He | reflexivity].
      + change (log ++ [get_request self url true;
                        extended_request self url])%list
          with (log ++ [get_request self url true]
                    ++ [extended_request self url])%list.
        rewrite app_assoc, removelast_last. reflexivity. }
  destruct H as (new & Esnd & Hnew & Hiff & Hfst).
  rewrite (@sent_by_app _ (fetch_website_content network self url) log new
             Esnd).
  split; [exact Esnd|]. split; [exact Hnew|]. split; [exact Hiff|].
  split; [|split; [exact Hfst|]].
  - destruct Hnew as [->| ->]; repeat constructor.
  - intros body Hb. rewrite Hfst in Hb. apply outcome_body, Hb.
Qed.

(** X25.  What the compatibility wrapper returns always contains the
    literal [<html>]; an exception of the crawler passes through
    unchanged, and the requests sent are the crawler's in both cases. *)
Theorem compat_wrapper_postcondition (url : string)
    (connect_timeout read_timeout : option Q) (log : Log) :
  let crawler :=
    new_crawler url (get_default connect_timeout DEFAULT_CONNECT_TIMEOUT)
      (get_default read_timeout DEFAULT_READ_TIMEOUT) in
  let fetched := fetch_website_content network crawler url log in
  let returned :=
    fetch_website_content_compat network url connect_timeout read_timeout
      log in
  snd returned = snd fetched
  /\ match fst fetched with
     | Ok body =>
         exists text, fst returned = Ok text
                      /\ contains "<html>" text = true
                      /\ (text = body \/ text = "<html>" ++ body)
     | Raise e => fst returned = Raise e
     end.
Proof.
  cbv zeta. unfold fetch_website_content_compat, bind.
  destruct (fetch_website_content network _ url log) as [[body|e] log'];
    cbn [fst snd]; [|split; reflexivity].
  destruct (contains "<html>" body) eqn:Ec; cbn [negb].
  - split; [reflexivity|]. exists body. auto.
  - split; [reflexivity|]. exists ("<html>" ++ body).
    split; [reflexivity|]. split; [|right; reflexivity].
    cbn [append contains String.prefix]. 
    repeat match goal with
           | |- context [ascii_dec ?a ?b] =>
               destruct (ascii_dec a b); [|congruence]
           end.
    destruct body; reflexivity.
Qed.

(** X26.  [check_form_submission] sends exactly one request: a GET when
    the method is [get] in any letter case, a POST for every other
    method.  A failure of the request is not raised but recorded; an
    exception that is not a [RequestException] goes through.  The
    endpoint accepts exactly when the status is from 200 to 399. *)
Theorem form_submission_probe (self : WebCrawler) (form_url method : string)
    (log : Log) :
  let run := check_form_submission network self form_url method log in
  let request := submit_request method form_url in
  snd run = (log ++ [request])%list
  /\ match network log request with
     | Ok response =>
         exists check,
           fst run = Ok check
           /\ form_status_code check = Some (resp_status_code response)
           /\ form_error check = None
           /\ (accepts_submission check = true
               <-> (200 <= resp_status_code response < 400)%Z)
     | Raise e =>
         if is_RequestException e
         then fst run
              = Ok (mkFormCheck form_url None false (Some (str_exn e)))
         else fst run = Raise e
     end.
Proof.
  cbv zeta.
  unfold check_form_submission, try_except, bind, session_submit, send,
    submit_request.
  destruct (String.eqb (upper method) "GET");
    match goal with
    | |- context [network log ?r] => destruct (network log r) as [response|e]
    end; cbn [fst snd ret];
    (split; [try reflexivity|]).
  1, 4: eexists; split; [reflexivity|]; split; [reflexivity|];
        split; [reflexivity|]; cbn [accepts_submission];
        rewrite andb_true_iff, Z.leb_le, Z.ltb_lt; reflexivity.
  all: destruct (is_RequestException e); reflexivity.
Qed.


End Fetch.

End CrawlerMore.

(* ===================================================================== *)
(** * From the page to the test cases *)
(* ===================================================================== *)

Module PipelineMore.

Import TestGenerator Parser Runs Properties GeneratorFacts StructureFacts.

Lemma emits_when (c : bool) (m : Gen unit) rows :
  emits m rows -> (c = false -> rows = []) -> emits (when c m) rows.
Proof.
  intros E H. destruct c; [exact E|]. rewrite (H eq_refl). apply emits_ret.
Qed.

Lemma length_of_fresh rows :
  length (test_cases (add_rows rows init)) = length rows.
Proof.
  rewrite <- (rows_of_fresh rows 1) at 2. rewrite length_map. reflexivity.
Qed.

(** The structure method on a structure that has every key. *)
Lemma structure_rows_of_full t hs m v imgs sc ss lang lm ls tb ie seo sec so :
  lookup "viewport" m = Some v ->
  exists rows,
    emits (generate_structure_test_cases
             (mkStructure (Some t) (Some hs) (Some m) (Some imgs) (Some sc)
                (Some ss) (Some lang) (Some lm) (Some ls) (Some tb) (Some ie)
                (Some seo) (Some sec) (Some so))) rows
    /\ length rows = length m + length tb + 8.
Proof.
  intros Hv.
  unfold generate_structure_test_cases, _generate_resource_test_cases,
    _generate_table_test_cases.
  cbn [title meta scripts stylesheets tables interactive_elements
       seo_elements security_headers social_meta get_default].
  rewrite Hv.
  eexists. split.
  - apply emits_bind; [apply emits_add|].
    apply emits_bind.
    { apply GeneratorMore.emits_loop. intros [meta_type content] g.
      reflexivity. }
    apply emits_bind; [apply emits_add|].
    apply emits_bind.
    { apply emits_bind; apply emits_add. }
    apply emits_bind.
    { apply GeneratorMore.emits_loop. intros [i table] g. reflexivity. }
    apply emits_bind; [apply emits_add|].
    apply emits_bind; [apply emits_add|].
    apply emits_bind; apply emits_add.
  - rewrite !length_app.
    rewrite (@GeneratorMore.length_flat_map_const _ _ _ 1 m)
      by (intros [meta_type content]; reflexivity).
    rewrite (@GeneratorMore.length_flat_map_const _ _ _ 1 (enumerate1 tb))
      by (intros [i table]; reflexivity).
    unfold enumerate1. rewrite length_combine, length_seq, Nat.min_id.
    cbn [length]. lia.
Qed.

(** The accessibility method on a structure that has every key. *)
Lemma accessibility_rows_of_full t hs m imgs sc ss lang lm ls tb ie seo sec so :
  exists rows,
    emits (generate_accessibility_test_cases
             (mkStructure t (Some hs) m (Some imgs) sc ss lang (Some lm) ls
                tb ie seo sec so)) rows
    /\ length rows = 4.
Proof.
  unfold generate_accessibility_test_cases.
  cbn [images headings landmarks getitem].
  change (bind (eval (Ok imgs)) ?f) with (f imgs). cbv beta.
  eexists. split.
  - apply emits_bind; [apply emits_add|].
    apply emits_bind; [apply emits_add|].
    apply emits_bind; apply emits_add.
  - reflexivity.
Qed.

Section Pipeline.

Variable BeautifulSoup : string -> node.
Variable urljoin : string -> string -> result string.
Variable netloc : string -> result string.

(** X28.  Parsing and generation fit together: on whatever [parse_html]
    returns, [generate_test_cases] does not raise, and it returns two
    cases for every link, two or three for every form, the 13 cases of
    the structure and one for every table, and the four accessibility
    cases; there is no language case, since [parse_html] does not analyse
    the language. *)
Theorem wrapper_on_parsed_page (html_content base : option string)
    (parsed_data : ParsedData) :
  parse_html BeautifulSoup urljoin netloc html_content base = Ok parsed_data ->
  exists cases links forms structure tables,
    generate_test_cases parsed_data = Ok cases
    /\ pd_links parsed_data = Some links
    /\ pd_forms parsed_data = Some forms
    /\ pd_structure parsed_data = Some structure
    /\ Model.tables structure = Some tables
    /\ pd_language parsed_data = None
    /\ length cases
       = 2 * length links
         + (2 * length forms + length (filter has_required forms))
         + (13 + length tables) + 4.
Proof.
  unfold parse_html.
  destruct (new_parser BeautifulSoup html_content base) as [parser|e];
    cbn [rbind]; [|discriminate].
  destruct (extract_links urljoin netloc parser) as [links|e];
    cbn [rbind]; [|discriminate].
  destruct (extract_forms urljoin parser) as [forms|e];
    cbn [rbind]; [|discriminate].
  unfold extract_page_structure.
  destruct (_extract_security_elements netloc parser) as [sec|e];
    cbn [rbind]; [|discriminate].
  intros E. injection E as <-.
  match goal with
  | |- context [pd_structure (mkParsed _ _ (Some ?s) _)] => set (st := s)
  end.
  destruct (@structure_rows_of_full
              (match find (soup parser) (named "title") with
               | Some t => string_of t
               | None => None
               end)
              (map (fun i =>
                      ("h" ++ str_nat i,
                       map get_text_strip
                         (find_all (soup parser) (named ("h" ++ str_nat i)))))
                 (seq 1 6))
              [ ("description", meta_content parser "description");
                ("keywords", meta_content parser "keywords");
                ("viewport", meta_content parser "viewport");
                ("charset",
                 match find (soup parser)
                         (fun n => named "meta" n && has_attr "charset" n) with
                 | Some m => Some (get_default (get m "charset") "")
                 | None => None
                 end);
                ("robots", meta_content parser "robots") ]
              (meta_content parser "viewport")
              (get_default (images st) [])
              (get_default (scripts st) (mkResourceCount 0 0 0))
              (get_default (stylesheets st) (mkResourceCount 0 0 0))
              (get_default (language st) None)
              (_extract_landmarks parser)
              (get_default (lists st) (mkListCount 0 0 0))
              (_analyze_tables parser)
              (_extract_interactive_elements parser)
              (_extract_seo_elements parser)
              sec
              (_extract_social_meta parser) eq_refl)
    as (rows3 & E3 & L3).
  destruct (@accessibility_rows_of_full
              (title st) (get_default (headings st) []) (meta st)
              (get_default (images st) []) (scripts st) (stylesheets st)
              (language st) (_extract_landmarks parser) (lists st)
              (Model.tables st) (interactive_elements st) (seo_elements st)
              (security_headers st) (social_meta st))
    as (rows4 & E4 & L4).
  change (emits (generate_structure_test_cases st) rows3) in E3.
  change (emits (generate_accessibility_test_cases st) rows4) in E4.
  destruct (GeneratorMore.form_cases_emits forms) as (rows_of & E2 & L2 & _).
  pose proof (GeneratorMore.link_cases_emits links
                (map default_link_check links)) as E1.
  set (rows1 := flat_map link_rows
                  (combine links (map default_link_check links))) in *.
  set (rows2 := flat_map rows_of (enumerate1 forms)) in *.
  assert (E : emits (generate_all (mkParsed (Some links) (Some forms)
                                     (Some st) None))
                (rows1 ++ rows2 ++ (rows3 ++ rows4) ++ [])%list).
  { unfold generate_all. cbn [pd_links pd_forms pd_structure pd_language
                              get_default].
    apply emits_bind.
    { apply emits_when; [exact E1|]. subst rows1.
      destruct links; [reflexivity | discriminate]. }
    apply emits_bind.
    { apply emits_when; [exact E2|]. subst rows2.
      destruct forms; [reflexivity | discriminate]. }
    apply emits_bind; [|apply emits_ret].
    change (structure_truthy st) with true. cbn [when].
    apply emits_bind; [exact E3 | exact E4]. }
  exists (test_cases (add_rows (rows1 ++ rows2 ++ (rows3 ++ rows4) ++ []) init)),
    links, forms, st, (_analyze_tables parser).
  split.
  { unfold generate_test_cases. rewrite (E init). reflexivity. }
  do 5 (split; [reflexivity|]).
  rewrite length_of_fresh, !length_app, L3, L4.
  subst rows1 rows2.
  rewrite (@GeneratorMore.length_flat_map_const _ _ link_rows 2)
    by (intros [link check]; reflexivity).
  rewrite length_combine, length_map, Nat.min_id.
  unfold enumerate1.
  rewrite (GeneratorMore.length_enumerated rows_of has_required forms 1 L2).
  cbn [length]. lia.
Qed.

End Pipeline.

Lemma wrapper_on_parsed_page_witness :
  exists cases,
    generate_test_cases hi_parsed = Ok cases /\ length cases = 17.
Proof.
  destruct (@wrapper_on_parsed_page Examples.parse_hi Urllib.urljoin
              Urllib.urlparse_netloc (Some Examples.hi_html)
              (Some "http://x.com") hi_parsed)
    as (cases & links & forms & st & tables & E & _).
  - vm_compute. reflexivity.
  - exists cases. split; [exact E|].
    vm_compute in E. injection E as <-. reflexivity.
Defined.

(** ** The names of the languages *)

Section Names.

Variable BeautifulSoup : string -> node.
Variable classify : string -> result (string * Q).
Variable detect : string -> result (option string).


End Names.


(** X30.  The declared name and native name of the full result depend
    only on the part of the declared code before its first hyphen: the
    entry of [LANGUAGE_NAMES] for that part, and [Not declared] when
    there is none, also for a page that does declare a language. *)
Theorem declared_label_of_primary_subtag (pick : string * string -> string)
    (code p : string) :
  code <> "" ->
  primary_subtag code p ->
  LanguageAnalyzer.declared_label pick code
  = match lookup p LanguageAnalyzer.LANGUAGE_NAMES with
    | Some info => pick info
    | None => "Not declared"
    end.
Proof.
  intros Hne Hp. unfold LanguageAnalyzer.declared_label.
  destruct code as [|c code]; [contradiction|]. cbn [truthy].
  assert (E : hd "" (split "-" (String c code)) = p)
    by (apply GeneratorMore.hd_split; exact Hp).
  rewrite E. reflexivity.
Qed.

Lemma declared_label_witness :
  LanguageAnalyzer.declared_label fst "en-US" = "English".
Proof.
  rewrite (@declared_label_of_primary_subtag fst "en-US" "en").
  - reflexivity.
  - discriminate.
  - split; [reflexivity|]. right. exists "US". reflexivity.
Defined.

End PipelineMore.
